(** * Telegram translator: the message-correlation and routing engine

    A shallow embedding of [TranslatorService] (translator.service.ts):
    the configuration parser, module initialisation, the album aggregator
    with its quiescence timers, the single-message and edited-message
    handlers, and the correlation store, together with the properties the
    specification states about them and further properties of the code
    (numbered X1, X2, ...).

    The service is asynchronous JavaScript.  A handler is modelled as a
    finite tree of synchronous steps on the service's fields, suspended at
    each [await] on a gateway promise; the event loop interleaves suspended
    handlers, timer callbacks and inbound events. *)

From Stdlib Require Import Ascii.
From Stdlib Require String.
From stdpp Require Import gmap strings list fin_maps.

Open Scope Z_scope.

(** ** JavaScript values *)

(** A JavaScript [number] as the service uses it: an integer identity or
    the [NaN] that [parseInt] gives on text that does not start with a
    digit. *)
Inductive number : Type :=
| Num (z : Z)
| NaN.

#[global] Instance number_eq_dec : EqDecision number.
Proof. solve_decision. Defined.

(** Truthiness, as in [if (x)] and [x || y]. *)
Definition truthy_Z (z : Z) : bool := negb (Z.eqb z 0).

Definition truthy_string (s : string) : bool :=
  match s with
  | EmptyString => false
  | String _ _ => true
  end.

(** An optional field: [undefined] is falsy, a present value is tested. *)
Definition truthy_opt {A} (t : A -> bool) (o : option A) : bool :=
  match o with
  | Some a => t a
  | None => false
  end.

(** A value read from a plain object that holds texts, as
    [this.prompts[key]] reads the catalog: a text the object has under the
    key, or, for a key it does not have, the member that every object
    inherits from [Object.prototype] under that name (a function, or the
    prototype itself under "__proto__"), which is truthy and is not a
    text. *)
Inductive Prompt : Type :=
| Text (s : string)
| Inherited (name : string).

Definition truthy_prompt (p : Prompt) : bool :=
  match p with
  | Text s => truthy_string s
  | Inherited _ => true
  end.

(** The names of the members of [Object.prototype]. *)
Definition Object_prototype : list string :=
  ["constructor"; "__defineGetter__"; "__defineSetter__"; "hasOwnProperty";
   "__lookupGetter__"; "__lookupSetter__"; "isPrototypeOf";
   "propertyIsEnumerable"; "toString"; "valueOf"; "__proto__";
   "toLocaleString"].

Definition inherited (key : string) : bool :=
  existsb (String.eqb key) Object_prototype.

(** [o[key]]: an own property shadows the inherited member of the same
    name; a key that is neither gives [undefined]. *)
Definition property (o : gmap string string) (key : string)
  : option Prompt :=
  match o !! key with
  | Some text => Some (Text text)
  | None => if inherited key then Some (Inherited key) else None
  end.

(** ** Data model *)

(** A media payload; [photo] says whether [media.photo !== undefined]. *)
Record Media : Type := mkMedia {
  media_ref : Z;
  photo : bool
}.

(** An inbound message as the handlers read it.  [message] is its text,
    empty when it has none (the handlers only test it for truthiness, and
    an absent text and the empty string are both falsy); [groupedId] holds
    the result of [groupedId?.toString()], [replyTo] the value of
    [replyTo?.replyToMsgId]. *)
Record Message : Type := mkMessage {
  id : Z;
  message : string;
  media : option Media;
  groupedId : option string;
  replyTo : option Z
}.

Record ChannelConfig : Type := mkChannelConfig {
  sourceId : number;
  targetTopicId : number;
  promptKey : string;
  prompt : option Prompt
}.

(** Heap addresses of the [groupData] objects and timer handles. *)
Abbreviation loc := nat (only parsing).
Abbreviation handle := nat (only parsing).

(** The object stored in [groupedMessages]: it is shared between the map,
    the arrival handler and the closure of every timer armed for it. *)
Record GroupData : Type := mkGroupData {
  messages : list Message;
  timeout : option handle;
  channelConfig : option ChannelConfig
}.

(** The closures handed to [setTimeout], with their captured variables. *)
Inductive Callback : Type :=
| FlushMulti (groupedId : string) (groupData : loc) (cfg : ChannelConfig)
| FlushLegacy (groupedId : string) (groupData : loc).

Record Timer : Type := mkTimer {
  timer_handle : handle;
  due : Z;
  callback : Callback
}.

(** The logger's output: a line keeps its level and the fixed part of its
    text (the interpolated identifiers are left out). *)
Inductive Level : Type := LOG | WARN | ERROR.

Record LogLine : Type := mkLog { level : Level; text : string }.

#[global] Instance Level_eq_dec : EqDecision Level.
Proof. solve_decision. Defined.

#[global] Instance LogLine_eq_dec : EqDecision LogLine.
Proof. solve_decision. Defined.

(** The fields of [TranslatorService]. *)
Record Service : Type := mkService {
  targetGroupId : number;
  channels : list ChannelConfig;
  prompts : gmap string string;
  groupedMessages : gmap string loc;
  messageMapping : gmap Z Z;
  sourceChannelId : number;
  targetChannelId : number;
  useDirectIds : bool;
  useLegacyMode : bool
}.

(** What a synchronous step can touch: the service, the heap of group
    objects, the timer table of the runtime, its clock (milliseconds) and
    the logger's output. *)
Record World : Type := mkWorld {
  service : Service;
  heap : gmap loc GroupData;
  next_loc : loc;
  timers : list Timer;
  next_handle : handle;
  clock : Z;
  logger : list LogLine
}.

Definition set_service (f : Service -> Service) (w : World) : World :=
  mkWorld (f (service w)) (heap w) (next_loc w) (timers w) (next_handle w)
          (clock w) (logger w).

Definition set_groupedMessages (g : gmap string loc) (s : Service) : Service :=
  mkService (targetGroupId s) (channels s) (prompts s) g (messageMapping s)
            (sourceChannelId s) (targetChannelId s) (useDirectIds s)
            (useLegacyMode s).

Definition set_messageMapping (m : gmap Z Z) (s : Service) : Service :=
  mkService (targetGroupId s) (channels s) (prompts s) (groupedMessages s) m
            (sourceChannelId s) (targetChannelId s) (useDirectIds s)
            (useLegacyMode s).

Definition set_heap (h : gmap loc GroupData) (w : World) : World :=
  mkWorld (service w) h (next_loc w) (timers w) (next_handle w) (clock w)
          (logger w).

Definition set_timers (ts : list Timer) (w : World) : World :=
  mkWorld (service w) (heap w) (next_loc w) ts (next_handle w) (clock w)
          (logger w).

Definition set_clock (t : Z) (w : World) : World :=
  mkWorld (service w) (heap w) (next_loc w) (timers w) (next_handle w) t
          (logger w).

(** ** Gateways *)

Record SentMessage : Type := mkSent { sent_id : Z }.

Inductive File : Type :=
| OneFile (m : Media)
| Album (ms : list Media).

(** The options object of the client's [sendMessage]. *)
Record SendParams : Type := mkSendParams {
  sp_message : string;
  sp_file : option File;
  sp_replyTo : option number
}.

(** The calls the service awaits, indexed by what their promise resolves
    to: [openaiService.translateToKorean], the raw client's [sendMessage],
    and [telegramService]'s [sendMessage], [sendMessageWithMedia] and
    [editMessage]. *)
Inductive Call : Type -> Type :=
| TranslateToKorean (text : string) (prompt : option Prompt) : Call string
| ClientSendMessage (peer : number) (params : SendParams)
    : Call (option SentMessage)
| SendMessage (peer : number) (text : string) (replyTo : option Z)
    : Call (option SentMessage)
| SendMessageWithMedia (peer : number) (text : string) (msg : Message)
    (replyTo : option Z) : Call (option SentMessage)
| EditMessage (peer : number) (messageId : Z) (text : string) : Call unit.

Inductive Outcome (T : Type) : Type :=
| Resolved (v : T)
| Rejected (e : string).
Arguments Resolved {T} v.
Arguments Rejected {T} e.

(** One completed gateway call with what it answered. *)
Inductive Exchange : Type :=
| Exch {T} (c : Call T) (r : Outcome T).

(** A gateway answers a call; the answer may depend on everything that
    was answered before. *)
Definition Gateway : Type := forall T, list Exchange -> Call T -> Outcome T.

(** ** Asynchronous computations *)

Inductive Async (A : Type) : Type :=
| Ret (a : A)
| Throw (e : string)
| Get (k : World -> Async A)
| Put (w : World) (k : Async A)
| Await {T} (c : Call T) (k : Outcome T -> Async A).
Arguments Ret {A} a.
Arguments Throw {A} e.
Arguments Get {A} k.
Arguments Put {A} w k.
Arguments Await {A T} c k.

Fixpoint bind {A B} (m : Async A) (f : A -> Async B) : Async B :=
  match m with
  | Ret a => f a
  | Throw e => Throw e
  | Get k => Get (fun w => bind (k w) f)
  | Put w k => Put w (bind k f)
  | Await c k => Await c (fun r => bind (k r) f)
  end.

(** [try { m } catch (error) { h error }] *)
Fixpoint try_catch {A} (m : Async A) (h : string -> Async A) : Async A :=
  match m with
  | Ret a => Ret a
  | Throw e => h e
  | Get k => Get (fun w => try_catch (k w) h)
  | Put w k => Put w (try_catch k h)
  | Await c k => Await c (fun r => try_catch (k r) h)
  end.

Declare Scope async_scope.
Delimit Scope async_scope with async.
Notation "x <- m ;; k" := (bind m (fun x => k))
  (at level 100, m at next level, right associativity) : async_scope.
Notation "m ;;; k" := (bind m (fun _ => k))
  (at level 100, right associativity) : async_scope.
Open Scope async_scope.

(** [await p]: the value of a resolved promise, a throw for a rejected one. *)
Definition await {T} (c : Call T) : Async T :=
  Await c (fun r => match r with
                    | Resolved v => Ret v
                    | Rejected e => Throw e
                    end).

Definition modify (f : World -> World) : Async unit :=
  Get (fun w => Put (f w) (Ret tt)).

Definition log (l : Level) (s : string) : Async unit :=
  modify (fun w => mkWorld (service w) (heap w) (next_loc w) (timers w)
                           (next_handle w) (clock w)
                           (logger w ++ [mkLog l s])).

Definition this : Async Service := Get (fun w => Ret (service w)).

(** ** Start-up: the prompt catalog and the channel configuration *)

(** [String.prototype.split] for a one-character separator. *)
Fixpoint split (sep : Ascii.ascii) (s : string) : list string :=
  match s with
  | EmptyString => [""]
  | String c rest =>
      if Ascii.eqb c sep then "" :: split sep rest
      else match split sep rest with
           | field :: fields => String c field :: fields
           | [] => [String c ""]
           end
  end.

(** The platform functions the constructor calls.  They are not code of
    the service; the development is parametric in them. *)
Class Builtins : Type := {
  parseInt : string -> number;
  trim : string -> string;
  (** [JSON.parse] of the prompt file, which throws on malformed text:
      the own properties of the parsed object, which the service takes to
      be texts ([Record<string, string>]). *)
  JSON_parse : string -> Outcome (gmap string string)
}.

(** [process.env]. *)
Record Env : Type := mkEnv {
  CHANNELS_CONFIG : option string;
  TARGET_GROUP_ID : option string;
  SOURCE_CHANNEL_ID : option string;
  TARGET_CHANNEL_ID : option string
}.

(** What the constructor finds at [prompts.json]. *)
Inductive PromptsFile : Type :=
| NoFile
| Unreadable (e : string)
| FileContent (data : string).

Definition set_prompts (p : gmap string string) (s : Service) : Service :=
  mkService (targetGroupId s) (channels s) p (groupedMessages s)
            (messageMapping s) (sourceChannelId s) (targetChannelId s)
            (useDirectIds s) (useLegacyMode s).

Definition set_targetGroupId (n : number) (s : Service) : Service :=
  mkService n (channels s) (prompts s) (groupedMessages s)
            (messageMapping s) (sourceChannelId s) (targetChannelId s)
            (useDirectIds s) (useLegacyMode s).

Definition push_channel (c : ChannelConfig) (s : Service) : Service :=
  mkService (targetGroupId s) (channels s ++ [c]) (prompts s)
            (groupedMessages s) (messageMapping s) (sourceChannelId s)
            (targetChannelId s) (useDirectIds s) (useLegacyMode s).

Definition set_useLegacyMode (b : bool) (s : Service) : Service :=
  mkService (targetGroupId s) (channels s) (prompts s) (groupedMessages s)
            (messageMapping s) (sourceChannelId s) (targetChannelId s)
            (useDirectIds s) b.

Definition set_directIds (src tgt : number) (s : Service) : Service :=
  mkService (targetGroupId s) (channels s) (prompts s) (groupedMessages s)
            (messageMapping s) src tgt true (useLegacyMode s).

(** [for (const x of xs) body] *)
Definition for_of {A} (xs : list A) (body : A -> Async unit) : Async unit :=
  fold_right (fun x k => body x ;;; k) (Ret tt) xs.

Section Startup.
Context `{Builtins}.

Definition loadPrompts (file : PromptsFile) : Async unit :=
  try_catch
    (match file with
     | FileContent promptsData =>
         match JSON_parse promptsData with
         | Resolved parsed =>
             modify (set_service (set_prompts parsed)) ;;;
             log LOG "Loaded prompts from prompts.json"
         | Rejected e => Throw e
         end
     | Unreadable e => Throw e
     | NoFile =>
         log WARN "prompts.json not found, using default prompts only" ;;;
         modify (set_service (set_prompts {[ "default" := "" ]}))
     end)
    (fun error =>
       log ERROR "Failed to load prompts.json" ;;;
       modify (set_service (set_prompts {[ "default" := "" ]}))).

(** The test [!sourceId || !targetTopicId || !promptKey] on the first
    three fields of [entry.split(":")]; a missing field is [undefined]. *)
Definition entry_fields (entry : string)
  : option string * option string * option string :=
  let fields := split ":"%char entry in
  (fields !! 0%nat, fields !! 1%nat, fields !! 2%nat).

Definition entry_accepted (entry : string) : bool :=
  let '(sourceId, targetTopicId, promptKey) := entry_fields entry in
  negb (negb (truthy_opt truthy_string sourceId)
        || negb (truthy_opt truthy_string targetTopicId)
        || negb (truthy_opt truthy_string promptKey)).

(** The object literal built for an entry; its [prompt] is
    [this.prompts[promptKey.trim()]], a property read on a plain object. *)
Definition entry_config (prompts : gmap string string) (entry : string)
  : ChannelConfig :=
  let '(sourceId, targetTopicId, promptKey) := entry_fields entry in
  mkChannelConfig (parseInt (trim (default "" sourceId)))
                  (parseInt (trim (default "" targetTopicId)))
                  (trim (default "" promptKey))
                  (property prompts (trim (default "" promptKey))).

(** The body of the loop over [channelEntries]. *)
Definition configure_entry (entry : string) : Async unit :=
  if negb (entry_accepted entry) then
    log WARN "Invalid channel config entry"
  else
    s <- this ;;
    let config := entry_config (prompts s) entry in
    (if negb (truthy_opt truthy_prompt (prompt config))
        && negb (String.eqb (default "" (entry_fields entry).2) "default")
     then log WARN "Prompt key not found in prompts.json, will use default"
     else Ret tt) ;;;
    modify (set_service (push_channel config)) ;;;
    log LOG "Configured channel".

Definition parseChannelConfiguration (env : Env) : Async unit :=
  let channelsConfig := CHANNELS_CONFIG env in
  if truthy_opt truthy_string channelsConfig then
    log LOG "Using multi-channel configuration mode" ;;;
    let targetGroupId := TARGET_GROUP_ID env in
    if negb (truthy_opt truthy_string targetGroupId) then
      Throw "TARGET_GROUP_ID is required when using CHANNELS_CONFIG"
    else
      modify (set_service
                (set_targetGroupId (parseInt (default "" targetGroupId)))) ;;;
      let channelEntries := split ","%char (default "" channelsConfig) in
      for_of channelEntries configure_entry ;;;
      s <- this ;;
      if (length (channels s) =? 0)%nat then
        Throw "No valid channels configured in CHANNELS_CONFIG"
      else Ret tt
  else
    log LOG "Using legacy single-channel mode" ;;;
    modify (set_service (set_useLegacyMode true)) ;;;
    let sourceId := SOURCE_CHANNEL_ID env in
    let targetId := TARGET_CHANNEL_ID env in
    if truthy_opt truthy_string sourceId
       && truthy_opt truthy_string targetId
    then
      modify (set_service
                (set_directIds (parseInt (default "" sourceId))
                               (parseInt (default "" targetId)))) ;;;
      log LOG "Using direct channel IDs"
    else Ret tt.

Definition constructor (file : PromptsFile) (env : Env) : Async unit :=
  loadPrompts file ;;; parseChannelConfiguration env.
End Startup.

(** ** Runtime primitives used by the handlers *)

(** [setTimeout(cb, delay)]: a fresh handle, due [delay] ms from now. *)
Definition setTimeout (cb : Callback) (delay : Z) : Async handle :=
  Get (fun w =>
    let h := next_handle w in
    Put (mkWorld (service w) (heap w) (next_loc w)
                 (timers w ++ [mkTimer h (clock w + delay) cb])
                 (S h) (clock w) (logger w))
        (Ret h)).

(** [clearTimeout(h)]: no effect on a timer that already fired. *)
Definition clearTimeout (h : handle) : Async unit :=
  modify (fun w =>
    set_timers (filter (fun t => timer_handle t ≠ h) (timers w)) w).

(** Allocation of a [groupData] object literal. *)
Definition new_groupData (gd : GroupData) : Async loc :=
  Get (fun w =>
    let l := next_loc w in
    Put (mkWorld (service w) (<[l := gd]> (heap w)) (S l) (timers w)
                 (next_handle w) (clock w) (logger w))
        (Ret l)).

Definition read_groupData (l : loc) : Async GroupData :=
  Get (fun w => Ret (default (mkGroupData [] None None) (heap w !! l))).

Definition write_groupData (l : loc) (f : GroupData -> GroupData)
  : Async unit :=
  modify (fun w => set_heap (alter f l (heap w)) w).

(** The current elements of the [messages] array of the group object at
    [l]; the array is a field that is never reassigned, so it is
    identified with its owner. *)
Definition array_elements (l : loc) : Async (list Message) :=
  gd <- read_groupData l ;; Ret (messages gd).

(** [a || b] on numbers, with [a] possibly [undefined]. *)
Definition or_number (a : option Z) (b : number) : number :=
  match a with
  | Some z => if truthy_Z z then Num z else b
  | None => b
  end.

Definition isPhoto_of (hasMedia : option Media) : bool :=
  match hasMedia with
  | Some m => photo m
  | None => false
  end.

(** The tail shared by the single-message handlers:
    [if (sentMessage && sentMessage.id) messageMapping.set(...)]. *)
Definition store_mapping (sourceMessageId : Z)
  (sentMessage : option SentMessage) : Async unit :=
  match sentMessage with
  | Some sent =>
      if truthy_Z (sent_id sent) then
        modify (set_service (fun s =>
          set_messageMapping
            (<[sourceMessageId := sent_id sent]> (messageMapping s)) s)) ;;;
        log LOG "Stored mapping: source -> target"
      else Ret tt
  | None => Ret tt
  end.

(** The reply resolution shared by the single-message handlers. *)
Definition resolve_reply (replyToMsgId : option Z) : Async (option Z) :=
  match replyToMsgId with
  | Some r =>
      if truthy_Z r then
        s <- this ;;
        let targetReplyToMsgId := messageMapping s !! r in
        (if truthy_opt truthy_Z targetReplyToMsgId
         then log LOG "This is a reply, will reply to target message"
         else log WARN
                "This is a reply, but no mapping found in target channel") ;;;
        Ret targetReplyToMsgId
      else Ret None
  | None => Ret None
  end.

(** ** The handlers of the multi-channel mode *)

Definition processSingleMessageMulti (msg : Message) (cfg : ChannelConfig)
  : Async unit :=
  try_catch
    (let messageText := message msg in
     let hasMedia := media msg in
     let isPhoto := isPhoto_of hasMedia in
     let sourceMessageId := id msg in
     let replyToMsgId := replyTo msg in
     let rest : Async unit :=
       targetReplyToMsgId <- resolve_reply replyToMsgId ;;
       translatedText <-
         (if truthy_string messageText then
            t <- await (TranslateToKorean messageText (prompt cfg)) ;;
            log LOG "Text translated to Korean" ;;;
            Ret t
          else Ret "") ;;
       sentMessage <-
         (match hasMedia with
          | Some file =>
              if isPhoto then
                try_catch
                  (log LOG "Downloading image for translation... Temporary disabled" ;;;
                   s <- this ;;
                   await (ClientSendMessage (targetGroupId s)
                            (mkSendParams translatedText (Some (OneFile file))
                               (Some (or_number targetReplyToMsgId
                                                (targetTopicId cfg))))))
                  (fun imageError =>
                     log ERROR "Failed to send image" ;;; Ret None)
              else
                s <- this ;;
                sent <- await (ClientSendMessage (targetGroupId s)
                           (mkSendParams translatedText (Some (OneFile file))
                              (Some (or_number targetReplyToMsgId
                                               (targetTopicId cfg))))) ;;
                log LOG "Message with media posted to topic" ;;;
                Ret sent
          | None =>
              s <- this ;;
              sent <- await (ClientSendMessage (targetGroupId s)
                         (mkSendParams translatedText None
                            (Some (or_number targetReplyToMsgId
                                             (targetTopicId cfg))))) ;;
              log LOG "Message posted to topic" ;;;
              Ret sent
          end) ;;
       store_mapping sourceMessageId sentMessage in
     match hasMedia with
     | Some _ =>
         log LOG "New message with media from channel" ;;; rest
     | None =>
         if truthy_string messageText then
           log LOG "New message from channel" ;;; rest
         else
           log LOG "Received message without text or media, skipping..."
     end)
    (fun error => log ERROR "Error processing single message").

Definition processGroupedMessagesMulti (groupedId : string) (messages : loc)
  (cfg : ChannelConfig) : Async unit :=
  try_catch
    (log LOG "Processing grouped messages" ;;;
     now_messages <- array_elements messages ;;
     let messageWithText :=
       find (fun msg => truthy_string (message msg)) now_messages in
     let messageText :=
       match messageWithText with
       | Some msg => message msg
       | None => ""
       end in
     translatedText <-
       (if truthy_string messageText then
          t <- await (TranslateToKorean messageText (prompt cfg)) ;;
          log LOG "Text translated to Korean" ;;;
          Ret t
        else Ret "") ;;
     later_messages <- array_elements messages ;;
     (* messages.filter((msg) => msg.media).map((msg) => msg.media) *)
     let mediaFiles := omap media later_messages in
     s <- this ;;
     if (0 <? length mediaFiles)%nat then
       await (ClientSendMessage (targetGroupId s)
                (mkSendParams translatedText (Some (Album mediaFiles))
                              (Some (targetTopicId cfg)))) ;;;
       log LOG "Album posted to topic"
     else
       await (ClientSendMessage (targetGroupId s)
                (mkSendParams translatedText None
                              (Some (targetTopicId cfg)))) ;;;
       log LOG "Message translated and posted to topic")
    (fun error => log ERROR "Error processing grouped messages").

(** The body shared by the grouped branch of both new-message handlers;
    they differ in the [channelConfig] stored in a new group object and
    in the closure they arm. *)
Definition collect (groupedId : string) (msg : Message)
  (cfg : option ChannelConfig) (cb : loc -> Callback) : Async unit :=
  s <- this ;;
  (match groupedMessages s !! groupedId with
   | Some _ => Ret tt
   | None =>
       l <- new_groupData (mkGroupData [] None cfg) ;;
       modify (set_service (fun s =>
         set_groupedMessages (<[groupedId := l]> (groupedMessages s)) s))
   end) ;;;
  s <- this ;;
  match groupedMessages s !! groupedId with
  | None => Throw "groupData is undefined"
  | Some groupData =>
      write_groupData groupData (fun gd =>
        mkGroupData (messages gd ++ [msg]) (timeout gd) (channelConfig gd)) ;;;
      gd <- read_groupData groupData ;;
      (match timeout gd with
       | Some h => clearTimeout h
       | None => Ret tt
       end) ;;;
      h <- setTimeout (cb groupData) 1000 ;;
      write_groupData groupData (fun gd =>
        mkGroupData (messages gd) (Some h) (channelConfig gd)) ;;;
      log LOG "Collected message for group"
  end.

Definition handleNewMessageMulti (msg : Message) (cfg : ChannelConfig)
  : Async unit :=
  try_catch
    (match groupedId msg with
     | Some g =>
         if truthy_string g then
           collect g msg (Some cfg) (fun groupData => FlushMulti g groupData cfg)
         else processSingleMessageMulti msg cfg
     | None => processSingleMessageMulti msg cfg
     end)
    (fun error => log ERROR "Error processing message").

Definition handleEditedMessageMulti (msg : Message) (cfg : ChannelConfig)
  : Async unit :=
  try_catch
    (let sourceMessageId := id msg in
     let messageText := message msg in
     log LOG "Message was edited in channel" ;;;
     s <- this ;;
     let targetMessageId := messageMapping s !! sourceMessageId in
     match targetMessageId with
     | Some target =>
         if truthy_Z target then
           translatedText <-
             (if truthy_string messageText then
                t <- await (TranslateToKorean messageText (prompt cfg)) ;;
                log LOG "Edited text translated to Korean" ;;;
                Ret t
              else Ret "") ;;
           s <- this ;;
           await (EditMessage (targetGroupId s) target translatedText) ;;;
           log LOG "Message edited successfully in topic"
         else
           log WARN "No mapping found for edited message, skipping edit"
     | None =>
         log WARN "No mapping found for edited message, skipping edit"
     end)
    (fun error => log ERROR "Error handling edited message").

(** ** The handlers of the legacy single-channel mode *)

Definition processSingleMessage (msg : Message) : Async unit :=
  try_catch
    (let messageText := message msg in
     let hasMedia := media msg in
     let isPhoto := isPhoto_of hasMedia in
     let sourceMessageId := id msg in
     let replyToMsgId := replyTo msg in
     let rest : Async unit :=
       targetReplyToMsgId <- resolve_reply replyToMsgId ;;
       translatedText <-
         (if truthy_string messageText then
            t <- await (TranslateToKorean messageText None) ;;
            log LOG "Text translated to Korean" ;;;
            Ret t
          else Ret "") ;;
       sentMessage <-
         (match hasMedia with
          | Some _ =>
              if isPhoto then
                try_catch
                  (log LOG "Downloading image for translation... Temporary disabled" ;;;
                   s <- this ;;
                   await (SendMessageWithMedia (targetChannelId s)
                            translatedText msg targetReplyToMsgId))
                  (fun imageError =>
                     log ERROR "Failed to send image" ;;;
                     log WARN "Falling back to sending original media" ;;;
                     s <- this ;;
                     await (SendMessageWithMedia (targetChannelId s)
                              translatedText msg targetReplyToMsgId))
              else
                s <- this ;;
                sent <- await (SendMessageWithMedia (targetChannelId s)
                                 translatedText msg targetReplyToMsgId) ;;
                log LOG "Message with media translated and posted successfully" ;;;
                Ret sent
          | None =>
              s <- this ;;
              sent <- await (SendMessage (targetChannelId s) translatedText
                               targetReplyToMsgId) ;;
              log LOG "Message translated and posted successfully" ;;;
              Ret sent
          end) ;;
       store_mapping sourceMessageId sentMessage in
     match hasMedia with
     | Some _ =>
         log LOG "New message with media received" ;;; rest
     | None =>
         if truthy_string messageText then
           log LOG "New message received" ;;; rest
         else
           log LOG "Received message without text or media, skipping..."
     end)
    (fun error => log ERROR "Error processing single message").

Definition processGroupedMessages (groupedId : string) (messages : loc)
  : Async unit :=
  try_catch
    (log LOG "Processing grouped messages" ;;;
     now_messages <- array_elements messages ;;
     let messageWithText :=
       find (fun msg => truthy_string (message msg)) now_messages in
     let messageText :=
       match messageWithText with
       | Some msg => message msg
       | None => ""
       end in
     translatedText <-
       (if truthy_string messageText then
          t <- await (TranslateToKorean messageText None) ;;
          log LOG "Text translated to Korean" ;;;
          Ret t
        else Ret "") ;;
     later_messages <- array_elements messages ;;
     (* messages.filter((msg) => msg.media).map((msg) => msg.media) *)
     let mediaFiles := omap media later_messages in
     s <- this ;;
     if (0 <? length mediaFiles)%nat then
       await (ClientSendMessage (targetChannelId s)
                (mkSendParams translatedText (Some (Album mediaFiles))
                              None)) ;;;
       log LOG "Album posted successfully"
     else
       await (SendMessage (targetChannelId s) translatedText None) ;;;
       log LOG "Message translated and posted successfully")
    (fun error => log ERROR "Error processing grouped messages").

Definition handleNewMessage (msg : Message) : Async unit :=
  try_catch
    (match groupedId msg with
     | Some g =>
         if truthy_string g then
           collect g msg None (fun groupData => FlushLegacy g groupData)
         else processSingleMessage msg
     | None => processSingleMessage msg
     end)
    (fun error => log ERROR "Error processing message").

Definition handleEditedMessage (msg : Message) : Async unit :=
  try_catch
    (let sourceMessageId := id msg in
     let messageText := message msg in
     log LOG "Message was edited" ;;;
     s <- this ;;
     let targetMessageId := messageMapping s !! sourceMessageId in
     match targetMessageId with
     | Some target =>
         if truthy_Z target then
           translatedText <-
             (if truthy_string messageText then
                t <- await (TranslateToKorean messageText None) ;;
                log LOG "Edited text translated to Korean" ;;;
                Ret t
              else Ret "") ;;
           s <- this ;;
           await (EditMessage (targetChannelId s) target translatedText) ;;;
           log LOG "Message edited successfully in target channel"
         else
           log WARN "No mapping found for edited message, skipping edit"
     | None =>
         log WARN "No mapping found for edited message, skipping edit"
     end)
    (fun error => log ERROR "Error handling edited message").

(** The body of the arrow function given to [setTimeout]: it reads
    [groupData.messages] of the captured object when it runs, and removes
    the group's key once the processing has finished. *)
Definition run_callback (cb : Callback) : Async unit :=
  match cb with
  | FlushMulti groupedId groupData cfg =>
      processGroupedMessagesMulti groupedId groupData cfg ;;;
      modify (set_service (fun s =>
        set_groupedMessages (delete groupedId (groupedMessages s)) s))
  | FlushLegacy groupedId groupData =>
      processGroupedMessages groupedId groupData ;;;
      modify (set_service (fun s =>
        set_groupedMessages (delete groupedId (groupedMessages s)) s))
  end.

(** ** Execution *)

(** A computation run to its end with no other task in between: every
    awaited call is answered by the gateway at once. *)
Fixpoint complete {A} (gw : Gateway) (m : Async A) (w : World)
  (h : list Exchange) : Outcome A * World * list Exchange :=
  match m with
  | Ret a => (Resolved a, w, h)
  | Throw e => (Rejected e, w, h)
  | Get k => complete gw (k w) w h
  | Put w' k => complete gw k w' h
  | Await c k => let r := gw _ h c in complete gw (k r) w (h ++ [Exch c r])
  end.

(** The number of gateway calls such a run makes. *)
Fixpoint awaits {A} (gw : Gateway) (m : Async A) (w : World)
  (h : list Exchange) : nat :=
  match m with
  | Ret _ => 0
  | Throw _ => 0
  | Get k => awaits gw (k w) w h
  | Put w' k => awaits gw k w' h
  | Await c k =>
      let r := gw _ h c in S (awaits gw (k r) w (h ++ [Exch c r]))
  end.

(** The event loop: the world, the tasks suspended on a gateway promise
    (each is an [Await] node), and the completed exchanges. *)
Record Loop : Type := mkLoop {
  world : World;
  pending : list (Async unit);
  history : list Exchange
}.

(** A task runs synchronously up to its first [await]. *)
Fixpoint start (m : Async unit) (l : Loop) : Loop :=
  match m with
  | Ret _ => l
  | Throw _ => l
  | Get k => start (k (world l)) l
  | Put w k => start k (mkLoop w (pending l) (history l))
  | Await c k => mkLoop (world l) (pending l ++ [Await c k]) (history l)
  end.

(** The promise awaited by the [i]-th suspended task settles. *)
Definition respond (gw : Gateway) (i : nat) (l : Loop) : Loop :=
  match pending l !! i with
  | Some (Await c k) =>
      let r := gw _ (history l) c in
      start (k r)
            (mkLoop (world l) (delete i (pending l)) (history l ++ [Exch c r]))
  | _ => l
  end.

(** The clock reaches [t]: the timers that are due leave the table and
    their callbacks start, in the order they were armed. *)
Definition tick (t : Z) (l : Loop) : Loop :=
  let w := world l in
  let now := Z.max (clock w) t in
  let fired := filter (fun tm => due tm ≤ now) (timers w) in
  let rest := filter (fun tm => ¬ (due tm ≤ now)) (timers w) in
  fold_left (fun l tm => start (run_callback (callback tm)) l) fired
            (mkLoop (set_clock now (set_timers rest w)) (pending l)
                    (history l)).

Inductive Event : Type :=
| Clock (t : Z)
| NewMessageMulti (cfg : ChannelConfig) (msg : Message)
| EditedMessageMulti (cfg : ChannelConfig) (msg : Message)
| NewMessage (msg : Message)
| EditedMessage (msg : Message)
| Response (i : nat).

Definition step (gw : Gateway) (l : Loop) (ev : Event) : Loop :=
  match ev with
  | Clock t => tick t l
  | NewMessageMulti cfg msg => start (handleNewMessageMulti msg cfg) l
  | EditedMessageMulti cfg msg => start (handleEditedMessageMulti msg cfg) l
  | NewMessage msg => start (handleNewMessage msg) l
  | EditedMessage msg => start (handleEditedMessage msg) l
  | Response i => respond gw i l
  end.

Definition run (gw : Gateway) (evs : list Event) (l : Loop) : Loop :=
  fold_left (step gw) evs l.

(** ** Subscriptions *)

(** What [onModuleInit] registers with the messaging gateway: in the
    multi-channel mode one pair of handlers per configured channel, each
    closed over its [channelConfig]; in the legacy mode one pair for the
    single source channel. *)
Inductive Route : Type :=
| Topic (channelConfig : ChannelConfig)
| LegacyChannel.

Definition routes (s : Service) : list Route :=
  if useLegacyMode s then [LegacyChannel] else Topic <$> channels s.

Definition onNewMessage (r : Route) (msg : Message) : Async unit :=
  match r with
  | Topic channelConfig => handleNewMessageMulti msg channelConfig
  | LegacyChannel => handleNewMessage msg
  end.

Definition onEditedMessage (r : Route) (msg : Message) : Async unit :=
  match r with
  | Topic channelConfig => handleEditedMessageMulti msg channelConfig
  | LegacyChannel => handleEditedMessage msg
  end.

(** ** Observations used in the statements *)

(** The correlation store of a world. *)
Definition store (w : World) : gmap Z Z := messageMapping (service w).

(** The instruction text a route resolved at start-up. *)
Definition instruction (r : Route) : option Prompt :=
  match r with
  | Topic cfg => prompt cfg
  | LegacyChannel => None
  end.

(** The send that posts [text] for [msg] on route [r], as a reply to
    [reply] when there is one.  On a topic route the client's [replyTo]
    option carries the message replied to, or else the topic itself (this
    is how a post is addressed to a topic); on the legacy route it is the
    gateway's optional reply argument. *)
Definition post (r : Route) (s : Service) (text : string) (msg : Message)
  (reply : option Z) : Call (option SentMessage) :=
  match r with
  | Topic cfg =>
      ClientSendMessage (targetGroupId s)
        (mkSendParams text (OneFile <$> media msg)
           (Some (match reply with
                  | Some d => Num d
                  | None => targetTopicId cfg
                  end)))
  | LegacyChannel =>
      match media msg with
      | Some _ => SendMessageWithMedia (targetChannelId s) text msg reply
      | None => SendMessage (targetChannelId s) text reply
      end
  end.

(** The edit of the destination message [target] on route [r]. *)
Definition edit (r : Route) (s : Service) (target : Z) (text : string)
  : Call unit :=
  match r with
  | Topic _ => EditMessage (targetGroupId s) target text
  | LegacyChannel => EditMessage (targetChannelId s) target text
  end.

Definition is_rejection (e : Exchange) : bool :=
  match e with
  | Exch _ (Rejected _) => true
  | Exch _ (Resolved _) => false
  end.

(** The message a send answered with, when the exchange is a send that
    resolved with one. *)
Definition posted (e : Exchange) : option SentMessage :=
  match e with
  | Exch c r =>
      match c in Call T return Outcome T -> option SentMessage with
      | ClientSendMessage _ _ | SendMessage _ _ _
      | SendMessageWithMedia _ _ _ _ =>
          fun r => match r with
                   | Resolved sent => sent
                   | Rejected _ => None
                   end
      | TranslateToKorean _ _ | EditMessage _ _ _ => fun _ => None
      end r
  end.

Definition is_translation (e : Exchange) : bool :=
  match e with
  | Exch (TranslateToKorean _ _) _ => true
  | _ => false
  end.

(** A message the single-message path handles: no group identifier. *)
Definition ungrouped (msg : Message) : Prop :=
  truthy_opt truthy_string (groupedId msg) = false.

(** ** Sample gateways and inputs for the examples *)

(** Every call succeeds: a translation is the text behind a marker, a
    send answers with a message whose id grows with the history. *)
Definition obliging : Gateway := fun T h c =>
  match c in Call T return Outcome T with
  | TranslateToKorean text _ => Resolved ("ko:" +:+ text)
  | ClientSendMessage _ _ | SendMessage _ _ _
  | SendMessageWithMedia _ _ _ _ =>
      Resolved (Some (mkSent (500 + Z.of_nat (length h))))
  | EditMessage _ _ _ => Resolved tt
  end.

(** Every call fails. *)
Definition failing : Gateway := fun T h c => Rejected "unavailable".

(** The first call fails, the later ones succeed. *)
Definition faltering : Gateway := fun T h c =>
  match h with
  | [] => Rejected "unavailable"
  | _ :: _ => obliging T h c
  end.

Definition sample_service : Service :=
  mkService (Num (-1001)) [] ∅ ∅ ∅ (Num 100) (Num 200) false false.

Definition world_of (s : Service) : World :=
  mkWorld s ∅ 0%nat [] 0%nat 0 [].

Definition news : ChannelConfig :=
  mkChannelConfig (Num 100) (Num 5) "news" (Some (Text "formal tone")).

(** What the tail of a single-message handler leaves in the store, given
    the message its send answered with. *)
Definition recorded (sourceMessageId : Z) (sentMessage : option SentMessage)
  (m : gmap Z Z) : gmap Z Z :=
  match sentMessage with
  | Some sent =>
      if truthy_Z (sent_id sent) then <[sourceMessageId := sent_id sent]> m
      else m
  | None => m
  end.

(** The text a unit posts: the translation of its text when it has one,
    the empty caption otherwise. *)
Definition translation (gw : Gateway) (h : list Exchange) (text : string)
  (prompt : option Prompt) : Outcome string :=
  if truthy_string text then gw _ h (TranslateToKorean text prompt)
  else Resolved "".

(** The exchange that produced it, if any. *)
Definition translated (text : string) (prompt : option Prompt) (t : string)
  : list Exchange :=
  if truthy_string text then [Exch (TranslateToKorean text prompt) (Resolved t)]
  else [].

(** [e] is an exchange of the call [c], whatever the answer. *)
Definition exchange_of {T} (c : Call T) (e : Exchange) : Prop :=
  exists a, e = Exch c a.

(** ** Albums on the event loop *)

(** The schedule in which each message of [arrivals] is delivered to the
    handler of route [cfg] at its arrival time. *)
Definition deliveries (cfg : ChannelConfig) (arrivals : list (Z * Message))
  : list Event :=
  flat_map (fun a => [Clock a.1; NewMessageMulti cfg a.2]) arrivals.

(** Every arrival comes at or after the previous one (the one at [t0] to
    begin with) and less than the quiescence window of 1000 ms after it. *)
Fixpoint timely (t0 : Z) (arrivals : list (Z * Message)) : Prop :=
  match arrivals with
  | [] => True
  | a :: rest => (t0 <= a.1 < t0 + 1000) /\ timely a.1 rest
  end.

(** The time of the last arrival. *)
Fixpoint final (t0 : Z) (arrivals : list (Z * Message)) : Z :=
  match arrivals with
  | [] => t0
  | a :: rest => final a.1 rest
  end.

(** The first non-empty text among the members, in arrival order; empty
    when no member has text. *)
Definition first_text (members : list Message) : string :=
  default "" (head (filter (fun s => s ≠ "") (message <$> members))).

(** The [file] option of an aggregated post. *)
Definition attachment (medias : list Media) : option File :=
  match medias with
  | [] => None
  | _ :: _ => Some (Album medias)
  end.

(** The aggregated post of [members] with text [text] to the topic of
    [cfg]: the media of all members that carry one, in arrival order. *)
Definition group_post (peer : number) (cfg : ChannelConfig)
  (members : list Message) (text : string) : Call (option SentMessage) :=
  ClientSendMessage peer
    (mkSendParams text (attachment (omap media members))
                  (Some (targetTopicId cfg))).

(** The history [h] extended by the exchanges of one aggregated post:
    the translation of the first text, if there is one, and one send. *)
Definition posting (gw : Gateway) (h : list Exchange) (peer : number)
  (cfg : ChannelConfig) (members : list Message) (tr : string)
  : list Exchange :=
  let h1 := h ++ translated (first_text members) (prompt cfg) tr in
  h1 ++ [Exch (group_post peer cfg members tr)
              (gw _ h1 (group_post peer cfg members tr))].

(** No timer is armed, no task is suspended, and group [g] is not being
    collected. *)
Definition quiet (g : string) (l : Loop) : Prop :=
  timers (world l) = [] /\ pending l = []
  /\ groupedMessages (service (world l)) !! g = None.

(** Group [g] is being collected: its object holds [members], and the one
    armed timer is the group's, due 1000 ms after the last arrival [t]. *)
Definition collecting (g : string) (cfg : ChannelConfig)
  (members : list Message) (t : Z) (l0 l : Loop) : Prop :=
  exists loc hd,
    groupedMessages (service (world l)) !! g = Some loc
    /\ heap (world l) !! loc = Some (mkGroupData members (Some hd) (Some cfg))
    /\ timers (world l) = [mkTimer hd (t + 1000) (FlushMulti g loc cfg)]
    /\ clock (world l) = t
    /\ pending l = []
    /\ history l = history l0
    /\ targetGroupId (service (world l)) = targetGroupId (service (world l0))
    /\ store (world l) = store (world l0).

(** ** Start-up statements *)

(** The entries the parser accepts: splitting at the colons gives at least
    three fields, and the first three are non-empty as written (before
    any trimming). *)
Definition well_formed (entry : string) : Prop :=
  match split ":"%char entry with
  | sourceId :: targetTopicId :: promptKey :: _ =>
      sourceId ≠ "" /\ targetTopicId ≠ "" /\ promptKey ≠ ""
  | _ => False
  end.

#[global] Instance well_formed_dec entry : Decision (well_formed entry).
Proof.
  unfold well_formed.
  destruct (split ":"%char entry) as [|a [|b [|c ?]]]; apply _.
Defined.

Definition invalid_entry_warning (line : LogLine) : Prop :=
  line = mkLog WARN "Invalid channel config entry".

#[global] Instance invalid_entry_warning_dec line :
  Decision (invalid_entry_warning line).
Proof. unfold invalid_entry_warning. solve_decision. Defined.

(** The lookup of the specification: the entry under the key, or else the
    entry under "default", or else the empty text. *)
Definition lookup_spec (catalog : gmap string string) (key : string)
  : string :=
  match catalog !! key with
  | Some text => text
  | None => default "" (catalog !! "default")
  end.

(** A decimal [parseInt] (optional minus sign, leading digits), a [trim]
    for spaces, and a [JSON.parse] with a fixed answer, for the examples. *)
Definition is_digit (c : ascii) : bool :=
  (48 <=? nat_of_ascii c)%nat && (nat_of_ascii c <=? 57)%nat.

Fixpoint leading_digits (s : string) (acc : option Z) : option Z :=
  match s with
  | String c rest =>
      if is_digit c
      then leading_digits rest
             (Some (10 * default 0 acc + Z.of_nat (nat_of_ascii c - 48)))
      else acc
  | EmptyString => acc
  end.

Definition decimal (s : string) : number :=
  match s with
  | String "-" rest =>
      match leading_digits rest None with
      | Some z => Num (- z)
      | None => NaN
      end
  | _ =>
      match leading_digits s None with
      | Some z => Num z
      | None => NaN
      end
  end.

Fixpoint trim_left (s : string) : string :=
  match s with
  | String " " rest => trim_left rest
  | _ => s
  end.

Definition trim_spaces (s : string) : string :=
  String.rev (trim_left (String.rev (trim_left s))).

Definition sample_builtins (catalog : Outcome (gmap string string))
  : Builtins :=
  {| parseInt := decimal; trim := trim_spaces; JSON_parse := fun _ => catalog |}.

Definition breaking : Message :=
  mkMessage 7 "Breaking: markets up" None None None.

Definition linked_service : Service :=
  set_messageMapping {[ 7 := 501 ]} sample_service.

Definition caption_removed : Message :=
  mkMessage 7 "" (Some (mkMedia 1 true)) None None.

Definition idle (s : Service) : Loop := mkLoop (world_of s) [] [].

Definition reply_in_album (i ref : Z) : Message :=
  mkMessage i "" (Some (mkMedia ref false)) (Some "g1") (Some 7).

Definition reply_to_7 : Message :=
  mkMessage 8 "Indeed" None None (Some 7).

Definition album1 : Message :=
  mkMessage 11 "a" (Some (mkMedia 1 true)) (Some "g1") None.

Definition album2 : Message :=
  mkMessage 12 "" (Some (mkMedia 2 true)) (Some "g1") None.

Definition late_member : Message :=
  mkMessage 13 "b" (Some (mkMedia 3 false)) (Some "g1") None.

(** The store holds no falsy id: an entry with value 0 would be taken for
    a missing one by the tests [if (targetMessageId)]. *)
Definition store_ok (m : gmap Z Z) : Prop :=
  forall k v, m !! k = Some v -> v ≠ 0.

(** ** Module initialisation *)

(** [onModuleInit] awaits the messaging gateway ([waitForReady],
    [getEntity]) and then registers the handlers.  No handler is
    registered while an await is outstanding, so no other code of the
    service runs in between: each await is modelled as one step of a
    state-and-error monad over the service, the calls made on
    [telegramService] and the logger. *)

(** The [id] of an entity the messaging gateway resolves: a big integer
    object with its [value], a plain number, or none ([undefined]; a
    [null] id behaves as the plain number 0). *)
Inductive EntityId : Type :=
| BigInteger (value : Z)
| PlainNumber (n : number).

Record Entity : Type := mkEntity { entity_id : option EntityId }.

(** [Number(x)] on what the code applies it to. *)
Definition Number_of_id (i : option EntityId) : number :=
  match i with
  | Some (BigInteger value) => Num value
  | Some (PlainNumber n) => n
  | None => NaN
  end.

(** [entity.id?.value ? Number(entity.id.value) : Number(entity.id)] *)
Definition channel_id_of (e : Entity) : number :=
  match entity_id e with
  | Some (BigInteger value) =>
      if truthy_Z value then Num value else Number_of_id (entity_id e)
  | _ => Number_of_id (entity_id e)
  end.

(** The locators of [process.env] read at module initialisation. *)
Record Locators : Type := mkLocators {
  SOURCE_CHANNEL_URL : option string;
  TARGET_CHANNEL_URL : option string
}.

(** The calls module initialisation makes on [telegramService]. *)
Inductive SetupCall : Type :=
| WaitForReady
| GetEntity (url : string)
| AddNewMessageHandler (source : number) (handler : Message -> Async unit)
| AddEditedMessageHandler (source : number) (handler : Message -> Async unit).

(** What [telegramService] answers: whether it becomes ready, and the
    entity behind a locator (the answer may depend on the calls so far);
    [getEntity] is typed [any], and may resolve with no object at all. *)
Record TelegramSetup : Type := mkTelegramSetup {
  ready : Outcome unit;
  entity : list SetupCall -> string -> Outcome (option Entity)
}.

(** The state module initialisation runs on, and its state-and-error
    monad. *)
Record Boot : Type := mkBoot {
  boot_service : Service;
  boot_calls : list SetupCall;
  boot_logger : list LogLine
}.

Definition Setup (A : Type) : Type := Boot -> Outcome A * Boot.

Definition setup_ret {A} (a : A) : Setup A := fun b => (Resolved a, b).

Definition setup_throw {A} (e : string) : Setup A := fun b => (Rejected e, b).

Definition setup_bind {A B} (m : Setup A) (f : A -> Setup B) : Setup B :=
  fun b =>
    match m b with
    | (Resolved a, b1) => f a b1
    | (Rejected e, b1) => (Rejected e, b1)
    end.

Definition setup_try {A} (m : Setup A) (h : string -> Setup A) : Setup A :=
  fun b =>
    match m b with
    | (Resolved a, b1) => (Resolved a, b1)
    | (Rejected e, b1) => h e b1
    end.

Declare Scope setup_scope.
Delimit Scope setup_scope with setup.
Notation "x <- m ;; k" := (setup_bind m (fun x => k))
  (at level 100, m at next level, right associativity) : setup_scope.
Notation "m ;;; k" := (setup_bind m (fun _ => k))
  (at level 100, right associativity) : setup_scope.

Definition setup_log (l : Level) (s : string) : Setup unit :=
  fun b => (Resolved tt,
            mkBoot (boot_service b) (boot_calls b)
                   (boot_logger b ++ [mkLog l s])).

Definition setup_this : Setup Service :=
  fun b => (Resolved (boot_service b), b).

Definition setup_call (c : SetupCall) : Setup unit :=
  fun b => (Resolved tt,
            mkBoot (boot_service b) (boot_calls b ++ [c]) (boot_logger b)).

Definition waitForReady (tg : TelegramSetup) : Setup unit :=
  fun b => (ready tg,
            mkBoot (boot_service b) (boot_calls b ++ [WaitForReady])
                   (boot_logger b)).

Definition getEntity (tg : TelegramSetup) (url : string)
  : Setup (option Entity) :=
  fun b => (entity tg (boot_calls b) url,
            mkBoot (boot_service b) (boot_calls b ++ [GetEntity url])
                   (boot_logger b)).

Definition set_sourceChannelId (n : number) (s : Service) : Service :=
  mkService (targetGroupId s) (channels s) (prompts s) (groupedMessages s)
            (messageMapping s) n (targetChannelId s) (useDirectIds s)
            (useLegacyMode s).

Definition set_targetChannelId (n : number) (s : Service) : Service :=
  mkService (targetGroupId s) (channels s) (prompts s) (groupedMessages s)
            (messageMapping s) (sourceChannelId s) n (useDirectIds s)
            (useLegacyMode s).

Definition setup_modify (f : Service -> Service) : Setup unit :=
  fun b => (Resolved tt,
            mkBoot (f (boot_service b)) (boot_calls b) (boot_logger b)).

(** The property access [entity.id]: a [TypeError] on [undefined]. *)
Definition property_id (e : option Entity) : Setup Entity :=
  match e with
  | Some e => setup_ret e
  | None => setup_throw "TypeError: Cannot read properties of undefined"
  end.

Definition resolveChannelIds (tg : TelegramSetup) (env : Locators)
  : Setup unit :=
  (let sourceUrl := SOURCE_CHANNEL_URL env in
   let targetUrl := TARGET_CHANNEL_URL env in
   if negb (truthy_opt truthy_string sourceUrl)
      || negb (truthy_opt truthy_string targetUrl)
   then
     setup_throw "Missing channel configuration. Provide either SOURCE_CHANNEL_ID + TARGET_CHANNEL_ID or SOURCE_CHANNEL_URL + TARGET_CHANNEL_URL in .env"
   else
     setup_log LOG "Resolving Telegram channel IDs from URLs..." ;;;
     setup_try
       (sourceEntity <- getEntity tg (default "" sourceUrl) ;;
        targetEntity <- getEntity tg (default "" targetUrl) ;;
        source <- property_id sourceEntity ;;
        setup_modify (set_sourceChannelId (channel_id_of source)) ;;;
        target <- property_id targetEntity ;;
        setup_modify (set_targetChannelId (channel_id_of target)) ;;;
        setup_log LOG "Resolved source channel ID, target channel ID")
       (fun error =>
          setup_log ERROR "Failed to resolve channel IDs" ;;;
          setup_throw error))%setup.

(** [for (const x of xs) body] *)
Definition setup_for {A} (xs : list A) (body : A -> Setup unit)
  : Setup unit :=
  fold_right (fun x k => setup_bind (body x) (fun _ => k)) (setup_ret tt) xs.

(** The body of the loop over [this.channels]. *)
Definition watch_channel (channelConfig : ChannelConfig) : Setup unit :=
  (setup_call (AddNewMessageHandler (sourceId channelConfig)
                 (fun event => handleNewMessageMulti event channelConfig)) ;;;
   setup_call (AddEditedMessageHandler (sourceId channelConfig)
                 (fun event => handleEditedMessageMulti event channelConfig)) ;;;
   setup_log LOG "Listening to channel -> posting to topic")%setup.

Definition startWatchingMultiChannel : Setup unit :=
  (setup_log LOG "Starting to watch channels for messages..." ;;;
   s <- setup_this ;;
   setup_for (channels s) watch_channel)%setup.

Definition startWatchingLegacy : Setup unit :=
  (setup_log LOG "Starting to watch channel for messages..." ;;;
   s <- setup_this ;;
   setup_call (AddNewMessageHandler (sourceChannelId s) handleNewMessage) ;;;
   setup_call (AddEditedMessageHandler (sourceChannelId s)
                 handleEditedMessage))%setup.

Definition onModuleInit (tg : TelegramSetup) (env : Locators) : Setup unit :=
  (waitForReady tg ;;;
   s <- setup_this ;;
   if useLegacyMode s then
     (if negb (useDirectIds s) then resolveChannelIds tg env
      else setup_ret tt) ;;;
     startWatchingLegacy
   else startWatchingMultiChannel)%setup.

(** The registrations among the calls. *)
Definition is_registration (c : SetupCall) : bool :=
  match c with
  | AddNewMessageHandler _ _ | AddEditedMessageHandler _ _ => true
  | WaitForReady | GetEntity _ => false
  end.

Definition is_lookup (c : SetupCall) : bool :=
  match c with
  | GetEntity _ => true
  | _ => false
  end.

(** The source a route's handlers are registered under. *)
Definition source_of (s : Service) (r : Route) : number :=
  match r with
  | Topic cfg => sourceId cfg
  | LegacyChannel => sourceChannelId s
  end.

(** Both handlers of each route, in order. *)
Definition subscriptions (s : Service) : list SetupCall :=
  flat_map (fun r => [AddNewMessageHandler (source_of s r) (onNewMessage r);
                      AddEditedMessageHandler (source_of s r)
                                              (onEditedMessage r)])
           (routes s).

(** ** Invariants of the event loop *)

(** [keeps Inv m w h]: run from the world [w] and the history [h], the
    computation [m] writes only worlds that satisfy [Inv] if the world it
    found did.  After an [await] it resumes in whatever world and history
    the loop is then in, with its own exchange added. *)
Fixpoint keeps (Inv : World -> list Exchange -> Prop) {A} (m : Async A)
  (w : World) (h : list Exchange) : Prop :=
  match m with
  | Ret _ => True
  | Throw _ => True
  | Get k => keeps Inv (k w) w h
  | Put w' k => (Inv w h -> Inv w' h) /\ keeps Inv k w' h
  | Await c k => forall r w' h', keeps Inv (k r) w' (h' ++ [Exch c r])
  end.

(** [Inv] is kept by everything the event loop runs: it does not depend
    on the clock and the timer table, it is stable when the history grows,
    and every handler and every timer callback keeps it. *)
Definition invariant (Inv : World -> list Exchange -> Prop) : Prop :=
  (forall w h e, Inv w h -> Inv w (h ++ [e]))
  /\ (forall w h ts t, Inv w h -> Inv (set_clock t (set_timers ts w)) h)
  /\ (forall r msg w h, keeps Inv (onNewMessage r msg) w h)
  /\ (forall r msg w h, keeps Inv (onEditedMessage r msg) w h)
  /\ (forall cb w h, keeps Inv (run_callback cb) w h).

(** The loop state satisfies [Inv], and so will every state a suspended
    task writes when it is resumed. *)
Definition holds (Inv : World -> list Exchange -> Prop) (l : Loop) : Prop :=
  Inv (world l) (history l)
  /\ Forall (fun task => forall w h, keeps Inv task w h) (pending l).

(** The fields the constructor and module initialisation set. *)
Definition configuration (s : Service) :=
  (targetGroupId s, channels s, prompts s, sourceChannelId s,
   targetChannelId s, useDirectIds s, useLegacyMode s).

(** The invariants proved of the loop: the store holds no id 0; the
    configuration is that of [s0]; the keys of [m0] still have an entry;
    every entry was in [m0] or holds the id of a message that a send of
    the history resolved with. *)
Definition never_zero (w : World) (h : list Exchange) : Prop :=
  store_ok (store w).

Definition configured_as (s0 : Service) (w : World) (h : list Exchange)
  : Prop :=
  configuration (service w) = configuration s0.

Definition retains (m0 : gmap Z Z) (w : World) (h : list Exchange) : Prop :=
  forall k, is_Some (m0 !! k) -> is_Some (store w !! k).

Definition returned_ids (m0 : gmap Z Z) (w : World) (h : list Exchange)
  : Prop :=
  forall k v,
    store w !! k = Some v ->
    m0 !! k = Some v \/ exists e, e ∈ h /\ posted e = Some (mkSent v).

(** The number of separators in a string: [split] gives one field more. *)
Fixpoint occurrences (sep : Ascii.ascii) (s : string) : nat :=
  match s with
  | EmptyString => 0
  | String c rest =>
      if Ascii.eqb c sep then S (occurrences sep rest)
      else occurrences sep rest
  end.

(** ** The single-message path as a function of the gateway's answers *)

(** The destination message a new message replies to: the store's entry
    for its reply reference, when it has a (non-zero) one. *)
Definition reply_target (m : gmap Z Z) (msg : Message) : option Z :=
  match replyTo msg with
  | Some r => if truthy_Z r then m !! r else None
  | None => None
  end.

(** The send of the single-message path on route [r], given the resolved
    [targetReplyToMsgId]. *)
Definition send_call (r : Route) (s : Service) (text : string)
  (msg : Message) (targetReplyToMsgId : option Z)
  : Call (option SentMessage) :=
  match r with
  | Topic cfg =>
      ClientSendMessage (targetGroupId s)
        (mkSendParams text (OneFile <$> media msg)
           (Some (or_number targetReplyToMsgId (targetTopicId cfg))))
  | LegacyChannel =>
      match media msg with
      | Some _ =>
          SendMessageWithMedia (targetChannelId s) text msg targetReplyToMsgId
      | None => SendMessage (targetChannelId s) text targetReplyToMsgId
      end
  end.

Definition is_rejected {T} (o : Outcome T) : bool :=
  match o with
  | Rejected _ => true
  | Resolved _ => false
  end.

(** The [sentMessage] a send leaves: nothing when it was rejected. *)
Definition sent_message (o : Outcome (option SentMessage))
  : option SentMessage :=
  match o with
  | Resolved sent => sent
  | Rejected _ => None
  end.

(** A rejected send is repeated only for a photo on the legacy route. *)
Definition retried (r : Route) (msg : Message) : bool :=
  match r with
  | Topic _ => false
  | LegacyChannel => isPhoto_of (media msg)
  end.

(** The group a timer callback flushes. *)
Definition group_of (cb : Callback) : string :=
  match cb with
  | FlushMulti groupedId _ _ => groupedId
  | FlushLegacy groupedId _ => groupedId
  end.

(** The closure a route's new-message handler arms for group [g]. *)
Definition closure (r : Route) (g : string) (groupData : loc) : Callback :=
  match r with
  | Topic cfg => FlushMulti g groupData cfg
  | LegacyChannel => FlushLegacy g groupData
  end.

(** The object a timer callback has captured, and the route it posts on. *)
Definition data_of (cb : Callback) : loc :=
  match cb with
  | FlushMulti _ groupData _ => groupData
  | FlushLegacy _ groupData => groupData
  end.

Definition route_of (cb : Callback) : Route :=
  match cb with
  | FlushMulti _ _ cfg => Topic cfg
  | FlushLegacy _ _ => LegacyChannel
  end.

(** ** Albums of the legacy mode on the event loop *)

(** The counterparts, for [handleNewMessage] and [processGroupedMessages],
    of [deliveries], [group_post], [posting] and [collecting]. *)

Definition legacy_deliveries (arrivals : list (Z * Message)) : list Event :=
  flat_map (fun a => [Clock a.1; NewMessage a.2]) arrivals.

(** The aggregated post of the legacy mode: an album through the raw
    client when a member has media, a plain text message otherwise. *)
Definition legacy_group_post (peer : number) (members : list Message)
  (text : string) : Call (option SentMessage) :=
  match omap media members with
  | [] => SendMessage peer text None
  | medias =>
      ClientSendMessage peer (mkSendParams text (Some (Album medias)) None)
  end.

Definition legacy_posting (gw : Gateway) (h : list Exchange) (peer : number)
  (members : list Message) (tr : string) : list Exchange :=
  let h1 := h ++ translated (first_text members) None tr in
  h1 ++ [Exch (legacy_group_post peer members tr)
              (gw _ h1 (legacy_group_post peer members tr))].

Definition legacy_collecting (g : string) (members : list Message) (t : Z)
  (l0 l : Loop) : Prop :=
  exists loc hd,
    groupedMessages (service (world l)) !! g = Some loc
    /\ heap (world l) !! loc = Some (mkGroupData members (Some hd) None)
    /\ timers (world l) = [mkTimer hd (t + 1000) (FlushLegacy g loc)]
    /\ clock (world l) = t
    /\ pending l = []
    /\ history l = history l0
    /\ targetChannelId (service (world l))
       = targetChannelId (service (world l0))
    /\ store (world l) = store (world l0).

(** ** Counting the calls of a unit *)

Definition is_send (e : Exchange) : bool :=
  match e with
  | Exch (ClientSendMessage _ _) _ | Exch (SendMessage _ _ _) _
  | Exch (SendMessageWithMedia _ _ _ _) _ => true
  | _ => false
  end.

Definition is_edit (e : Exchange) : bool :=
  match e with
  | Exch (EditMessage _ _ _) _ => true
  | _ => false
  end.

(** A send that was not rejected. *)
Definition delivered (e : Exchange) : bool :=
  is_send e && negb (is_rejection e).

Fixpoint count (p : Exchange -> bool) (es : list Exchange) : nat :=
  match es with
  | [] => 0
  | e :: es => ((if p e then 1 else 0) + count p es)%nat
  end.

(** ** Samples for module initialisation *)

(** A gateway that becomes ready and knows the one locator of the source
    channel. *)
Definition reachable : TelegramSetup :=
  mkTelegramSetup
    (Resolved tt)
    (fun _ url =>
       if String.eqb url "https://t.me/source"
       then Resolved (Some (mkEntity (Some (BigInteger 100))))
       else Rejected "Cannot find any entity").

(** The service as the constructor leaves it in the legacy mode without
    direct ids. *)
Definition unresolved_service : Service :=
  mkService NaN [] ∅ ∅ ∅ NaN NaN false true.

Definition booting (s : Service) : Boot := mkBoot s [] [].

(** ** Events by route *)

(** The event that delivers a new message, or an edited one, to the
    handler of route [r]. *)
Definition arrival (r : Route) (msg : Message) : Event :=
  match r with
  | Topic cfg => NewMessageMulti cfg msg
  | LegacyChannel => NewMessage msg
  end.

Definition revision (r : Route) (msg : Message) : Event :=
  match r with
  | Topic cfg => EditedMessageMulti cfg msg
  | LegacyChannel => EditedMessage msg
  end.

(** ** The serverless entry point (api/index.ts) *)

(** The exported handler creates the application on the first request
    and keeps it in the module-level variable [app].  A request starts
    on a task of its own, so another request can come in between only
    where the handler awaits the platform: at [NestFactory.create] and at
    [app.init()]. *)

Module Api.

(** The calls the entry point awaits: [NestFactory.create], which
    resolves with a new application, and [app.init()]. *)
Inductive ApiCall : Type -> Type :=
| NestFactory_create : ApiCall nat
| app_init (application : nat) : ApiCall unit.

Inductive ApiExchange : Type :=
| ApiExch {T} (c : ApiCall T) (r : Outcome T).

Definition Platform : Type :=
  forall T, list ApiExchange -> ApiCall T -> Outcome T.

(** What the entry point does synchronously: [app.enableCors()] and
    [server(req, res)]. *)
Inductive Effect : Type :=
| EnableCors (application : nat)
| Served (req : nat).

(** The module-level variable [app] ([undefined] until assigned) and the
    effects so far. *)
Record Entry : Type := mkEntry {
  app : option nat;
  effects : list Effect
}.

Inductive Job (A : Type) : Type :=
| Ret (a : A)
| Throw (e : string)
| Get (k : Entry -> Job A)
| Put (s : Entry) (k : Job A)
| Await {T} (c : ApiCall T) (k : Outcome T -> Job A).
Arguments Ret {A} a.
Arguments Throw {A} e.
Arguments Get {A} k.
Arguments Put {A} s k.
Arguments Await {A T} c k.

Fixpoint bind {A B} (m : Job A) (f : A -> Job B) : Job B :=
  match m with
  | Ret a => f a
  | Throw e => Throw e
  | Get k => Get (fun s => bind (k s) f)
  | Put s k => Put s (bind k f)
  | Await c k => Await c (fun r => bind (k r) f)
  end.

Definition await {T} (c : ApiCall T) : Job T :=
  Await c (fun r => match r with
                    | Resolved v => Ret v
                    | Rejected e => Throw e
                    end).

Definition effect (e : Effect) : Job unit :=
  Get (fun s => Put (mkEntry (app s) (effects s ++ [e])) (Ret tt)).

(** A method call on the variable [app], which is read when the call is
    made. *)
Definition on_app {A} (method : nat -> Job A) : Job A :=
  Get (fun s => match app s with
                | Some application => method application
                | None => Throw "TypeError: app is undefined"
                end).

Definition createNestApp : Job unit :=
  Get (fun s =>
    match app s with
    | None =>
        bind (await NestFactory_create) (fun created =>
        bind (Get (fun s => Put (mkEntry (Some created) (effects s)) (Ret tt)))
             (fun _ =>
        bind (on_app (fun application => effect (EnableCors application)))
             (fun _ =>
        on_app (fun application => await (app_init application)))))
    | Some _ => Ret tt
    end).

(** The exported request handler. *)
Definition handler (req : nat) : Job unit :=
  bind createNestApp (fun _ => effect (Served req)).

Record Loop : Type := mkLoop {
  entry : Entry;
  waiting : list (Job unit);
  exchanges : list ApiExchange
}.

Fixpoint start (m : Job unit) (l : Loop) : Loop :=
  match m with
  | Ret _ => l
  | Throw _ => l
  | Get k => start (k (entry l)) l
  | Put s k => start k (mkLoop s (waiting l) (exchanges l))
  | Await c k => mkLoop (entry l) (waiting l ++ [Await c k]) (exchanges l)
  end.

Definition settle (pf : Platform) (i : nat) (l : Loop) : Loop :=
  match waiting l !! i with
  | Some (Await c k) =>
      let r := pf _ (exchanges l) c in
      start (k r)
            (mkLoop (entry l) (delete i (waiting l))
                    (exchanges l ++ [ApiExch c r]))
  | _ => l
  end.

Inductive Event : Type :=
| Request (req : nat)
| Settled (i : nat).

Definition step (pf : Platform) (l : Loop) (ev : Event) : Loop :=
  match ev with
  | Request req => start (handler req) l
  | Settled i => settle pf i l
  end.

Definition run (pf : Platform) (evs : list Event) (l : Loop) : Loop :=
  fold_left (step pf) evs l.

(** A cold instance: [app] not yet assigned, nothing in flight. *)
Definition cold : Loop := mkLoop (mkEntry None []) [] [].

Definition is_creation (e : ApiExchange) : bool :=
  match e with
  | ApiExch NestFactory_create _ => true
  | ApiExch (app_init _) _ => false
  end.

Fixpoint creations (h : list ApiExchange) : nat :=
  match h with
  | [] => 0
  | e :: h => ((if is_creation e then 1 else 0) + creations h)%nat
  end.

Definition requests (evs : list Event) : list nat :=
  omap (fun ev => match ev with
                  | Request req => Some req
                  | Settled _ => None
                  end) evs.

(** A task suspended on [app.init()], and a task suspended on
    [NestFactory.create] that, when resumed, ends or goes on to wait for
    an initialisation (it creates nothing more). *)
Definition initialising (t : Job unit) : Prop :=
  exists application k, t = Await (app_init application) k.

Definition creating (t : Job unit) : Prop :=
  exists k,
    t = Await NestFactory_create k
    /\ forall r l, exists e tail,
         start (k r) l = mkLoop e (waiting l ++ tail) (exchanges l)
         /\ Forall initialising tail.

(** A platform on which every creation gives a new application (numbered
    by the exchanges so far) and every initialisation succeeds. *)
Definition willing : Platform := fun T h c =>
  match c in ApiCall T return Outcome T with
  | NestFactory_create => Resolved (length h)
  | app_init _ => Resolved tt
  end.

(** A platform on which the initialisation fails. *)
Definition uninitialisable : Platform := fun T h c =>
  match c in ApiCall T return Outcome T with
  | NestFactory_create => Resolved (length h)
  | app_init _ => Rejected "init failed"
  end.

End Api.

(** * Properties *)

(** ** Evaluation lemmas *)

Lemma truthy_Z_true z : truthy_Z z = true <-> z ≠ 0.
Proof. unfold truthy_Z. destruct (Z.eqb_spec z 0); simpl; split; done. Qed.

Lemma truthy_string_true s : truthy_string s = true <-> s ≠ "".
Proof. destruct s; simpl; split; done. Qed.

Lemma complete_bind {A B} gw (m : Async A) (f : A -> Async B) w h :
  complete gw (bind m f) w h =
  match complete gw m w h with
  | (Resolved a, w1, h1) => complete gw (f a) w1 h1
  | (Rejected e, w1, h1) => (Rejected e, w1, h1)
  end.
Proof.
  revert w h. induction m as [a|e|k IH|w0 k IH|T c k IH]; intros w h; cbn;
    auto.
Qed.

Lemma complete_try_catch {A} gw (m : Async A) (k : string -> Async A) w h :
  complete gw (try_catch m k) w h =
  match complete gw m w h with
  | (Resolved a, w1, h1) => (Resolved a, w1, h1)
  | (Rejected e, w1, h1) => complete gw (k e) w1 h1
  end.
Proof.
  revert w h. induction m as [a|e|k0 IH|w0 k0 IH|T c k0 IH]; intros w h; cbn;
    auto.
Qed.

(** Without a group identifier the new-message handlers hand the message
    to the single-message path. *)
Lemma ungrouped_handlers (r : Route) (msg : Message) :
  ungrouped msg ->
  onNewMessage r msg =
  try_catch (match r with
             | Topic cfg => processSingleMessageMulti msg cfg
             | LegacyChannel => processSingleMessage msg
             end)
            (fun _ => log ERROR "Error processing message").
Proof.
  unfold ungrouped. intros Hg.
  destruct r; unfold onNewMessage, handleNewMessageMulti, handleNewMessage;
    destruct (groupedId msg) as [g|]; cbn in Hg; try rewrite Hg; reflexivity.
Qed.

Ltac answer gw :=
  match goal with
  | |- context [match gw ?T ?h ?c with _ => _ end] =>
      let E := fresh "Egw" in destruct (gw T h c) as [[[]|]|] eqn:E
  | |- context [match gw ?T ?h ?c with _ => _ end] =>
      let E := fresh "Egw" in destruct (gw T h c) eqn:E
  end.

Ltac branch :=
  match goal with
  | |- context [if truthy_string ?x then _ else _] =>
      destruct (truthy_string x) eqn:?
  | |- context [if truthy_Z ?x then _ else _] => destruct (truthy_Z x) eqn:?
  | |- context [match messageMapping ?s !! ?k with _ => _ end] =>
      destruct (messageMapping s !! k) eqn:?
  | |- context [truthy_opt _ (messageMapping ?s !! ?k)] =>
      destruct (messageMapping s !! k) eqn:?
  end.

Ltac crunch gw := repeat (cbn; first [answer gw | branch]); cbn.

(** Closes a goal [exists w' new, run = (_, w', h ++ new) /\ P w' new]
    once the run is evaluated: the new exchanges are read off the goal. *)
Ltac read_off h tac :=
  first
    [ eexists; exists []; rewrite app_nil_r; split; [reflexivity|]
    | eexists; eexists [_]; split; [reflexivity|]
    | eexists; eexists [_; _]; split;
      [rewrite <- (app_assoc h); reflexivity|]
    | eexists; eexists [_; _; _]; split;
      [rewrite <- !(app_assoc h); reflexivity|] ];
  cbn; tac.

Ltac unit_store :=
  unfold recorded; cbn; repeat case_match; simplify_eq/=; done.

(** Among the listed exchanges only the last can be a send that returned
    a message. *)
Ltac only_last :=
  let e := fresh "e" in
  let He := fresh "He" in
  let Hp := fresh "Hp" in
  intros e He Hp;
  repeat (apply elem_of_cons in He as [->|He]);
  try (by apply elem_of_nil in He);
  first [reflexivity | by destruct Hp].

(** The single-message path never throws, what it leaves in the store is
    decided by the last exchange of the unit, and no earlier exchange is a
    send that returned a message. *)
Lemma single_unit (gw : Gateway) (r : Route) (msg : Message) (w : World)
  (h : list Exchange) :
  exists w' new,
    complete gw (match r with
                 | Topic cfg => processSingleMessageMulti msg cfg
                 | LegacyChannel => processSingleMessage msg
                 end) w h = (Resolved tt, w', h ++ new)
    /\ store w' = recorded (id msg) (last new ≫= posted) (store w)
    /\ (forall e, e ∈ new -> is_Some (posted e) -> last new = Some e).
Proof.
  destruct msg as [i txt md g rp].
  destruct r as [cfg|];
    unfold processSingleMessageMulti, processSingleMessage, resolve_reply,
      store_mapping.
  - destruct md as [[ref [|]]|], rp as [rp|]; crunch gw;
      read_off h ltac:(split; [unit_store | only_last]).
  - destruct md as [[ref [|]]|], rp as [rp|]; crunch gw;
      read_off h ltac:(split; [unit_store | only_last]).
Qed.

(** The edited-message handlers never throw and never write the store. *)
Lemma edit_unit (gw : Gateway) (r : Route) (msg : Message) (w : World)
  (h : list Exchange) :
  exists w' new,
    complete gw (onEditedMessage r msg) w h = (Resolved tt, w', h ++ new)
    /\ store w' = store w.
Proof.
  destruct msg as [i txt md g rp].
  destruct r as [cfg|];
    unfold onEditedMessage, handleEditedMessageMulti, handleEditedMessage;
    crunch gw; read_off h ltac:(done).
Qed.

Ltac branch_group :=
  match goal with
  | |- context [if truthy_string ?x then _ else _] =>
      destruct (truthy_string x) eqn:?
  | |- context [omap media ?l] => destruct (omap media l) eqn:?
  end.

(** Processing a group never throws and never writes the store. *)
Lemma group_unit (gw : Gateway) (cb : Callback) (w : World)
  (h : list Exchange) :
  exists w' new,
    complete gw (run_callback cb) w h = (Resolved tt, w', h ++ new)
    /\ store w' = store w.
Proof.
  destruct cb as [g l cfg|g l];
    unfold run_callback, processGroupedMessagesMulti, processGroupedMessages,
      array_elements, read_groupData;
    repeat (cbn; first [answer gw | branch_group]); cbn;
    read_off h ltac:(done).
Qed.

(** Collecting a group member calls no gateway and leaves the store. *)
Lemma collect_unit (gw : Gateway) g msg cfg cb (w : World)
  (h : list Exchange) :
  exists w',
    complete gw (collect g msg cfg cb) w h = (Resolved tt, w', h)
    /\ store w' = store w.
Proof.
  unfold collect. cbn.
  destruct (groupedMessages (service w) !! g) as [l|] eqn:El; cbn.
  - rewrite El. cbn.
    destruct (timeout _); cbn; eexists; split; reflexivity.
  - rewrite lookup_insert_eq. cbn.
    destruct (timeout _); cbn; eexists; split; reflexivity.
Qed.

Lemma new_unit (gw : Gateway) (r : Route) (msg : Message) (w : World)
  (h : list Exchange) :
  exists w' new,
    complete gw (onNewMessage r msg) w h = (Resolved tt, w', h ++ new)
    /\ store w' = recorded (id msg) (last new ≫= posted) (store w)
    /\ (forall e, e ∈ new -> is_Some (posted e) -> last new = Some e).
Proof.
  destruct (truthy_opt truthy_string (groupedId msg)) eqn:Eg.
  - destruct (groupedId msg) as [g|] eqn:Eg'; [|done]. cbn in Eg.
    destruct r as [cfg|];
      unfold onNewMessage, handleNewMessageMulti, handleNewMessage;
      rewrite Eg', Eg, complete_try_catch;
      match goal with
      | |- context [collect ?g ?m ?c ?cb] =>
          destruct (collect_unit gw g m c cb w h) as (w' & -> & Hs)
      end;
      exists w', []; rewrite app_nil_r;
      (split; [done|]); (split; [done|]);
      intros e He; by apply elem_of_nil in He.
  - rewrite ungrouped_handlers by done. rewrite complete_try_catch.
    destruct (single_unit gw r msg w h) as (w' & new & -> & Hs). eauto.
Qed.

(** No handler puts the id 0 in the store, so an entry a handler finds is
    never taken for a missing one. *)
Lemma recorded_ok src sent m : store_ok m -> store_ok (recorded src sent m).
Proof.
  intros Hm. unfold recorded. destruct sent as [s|]; [|done].
  destruct (truthy_Z (sent_id s)) eqn:E; [|done].
  intros k v. rewrite lookup_insert. case_decide; [|apply Hm].
  intros [= <-]. by apply truthy_Z_true.
Qed.

Lemma store_stays_ok (gw : Gateway) (w : World) (h : list Exchange) :
  store_ok (store w) ->
  (forall r msg, store_ok (store (complete gw (onNewMessage r msg) w h).1.2))
  /\ (forall r msg, store_ok (store (complete gw (onEditedMessage r msg) w h).1.2))
  /\ (forall cb, store_ok (store (complete gw (run_callback cb) w h).1.2)).
Proof.
  intros Hok. split; [|split].
  - intros r msg.
    destruct (new_unit gw r msg w h) as (w' & new & Hrun & Hs & _).
    rewrite Hrun. cbn. rewrite Hs. by apply recorded_ok.
  - intros r msg. destruct (edit_unit gw r msg w h) as (w' & new & Hrun & Hs).
    rewrite Hrun. cbn. by rewrite Hs.
  - intros cb. destruct (group_unit gw cb w h) as (w' & new & Hrun & Hs).
    rewrite Hrun. cbn. by rewrite Hs.
Qed.

(** ** Single messages *)

(** C1.  On every route, a new message with text, no group identifier and
    no reply reference makes the handler call the translation gateway
    once, with the text and the instruction the route resolved, then send
    once to the route's destination (the topic of the target group, or the
    legacy target channel) with the translated text, and record the id of
    the message the send returned under the source message id.  The two
    gateway hypotheses say that the calls succeed and that the send
    returns a message with an id. *)
Theorem C1_text_message_posted_once (gw : Gateway) (r : Route)
  (msg : Message) (w : World) (h : list Exchange) (t : string)
  (sent : SentMessage) :
  ungrouped msg ->
  truthy_string (message msg) = true ->
  truthy_opt truthy_Z (replyTo msg) = false ->
  let translate := TranslateToKorean (message msg) (instruction r) in
  let send := post r (service w) t msg None in
  gw _ h translate = Resolved t ->
  gw _ (h ++ [Exch translate (Resolved t)]) send = Resolved (Some sent) ->
  sent_id sent ≠ 0 ->
  exists w',
    complete gw (onNewMessage r msg) w h
    = (Resolved tt, w',
       h ++ [Exch translate (Resolved t); Exch send (Resolved (Some sent))])
    /\ store w' = <[id msg := sent_id sent]> (store w).
Proof.
  intros Hg Ht Hr translate send Htr Hs Hid.
  apply truthy_Z_true in Hid.
  rewrite (ungrouped_handlers r msg Hg).
  assert (Hrr : resolve_reply (replyTo msg) = Ret None).
  { unfold resolve_reply.
    destruct (replyTo msg) as [z|]; cbn in Hr; [rewrite Hr|]; reflexivity. }
  subst translate send.
  destruct r as [cfg|];
    unfold processSingleMessageMulti, processSingleMessage;
    rewrite Ht, Hrr; cbn in *;
    destruct (media msg) as [md|] eqn:Em; cbn in *; rewrite Htr; cbn;
    try destruct (photo md); cbn; rewrite Hs; cbn; rewrite Hid; cbn;
    rewrite <- (app_assoc h); eexists; split; reflexivity.
Qed.

Lemma C1_witness :
  exists w',
    complete obliging (onNewMessage (Topic news) breaking)
             (world_of sample_service) []
    = (Resolved tt, w',
       [Exch (TranslateToKorean "Breaking: markets up" (Some (Text "formal tone")))
             (Resolved "ko:Breaking: markets up");
        Exch (ClientSendMessage (Num (-1001))
                (mkSendParams "ko:Breaking: markets up" None (Some (Num 5))))
             (Resolved (Some (mkSent 501)))])
    /\ store w' = <[7 := 501]> ∅.
Proof.
  apply (C1_text_message_posted_once obliging (Topic news) breaking
           (world_of sample_service) [] "ko:Breaking: markets up"
           (mkSent 501)); try reflexivity.
  cbn. lia.
Defined.

(** C10.  A new message without group identifier that carries neither
    text nor media is dropped: the handler returns with no gateway call
    made, and the service (the correlation store with it), the heap and
    the timers as they were. *)
Theorem C10_empty_message_dropped (gw : Gateway) (r : Route) (msg : Message)
  (w : World) (h : list Exchange) :
  ungrouped msg ->
  truthy_string (message msg) = false ->
  media msg = None ->
  exists w',
    complete gw (onNewMessage r msg) w h = (Resolved tt, w', h)
    /\ service w' = service w /\ heap w' = heap w /\ timers w' = timers w.
Proof.
  intros Hg Ht Hm. rewrite (ungrouped_handlers r msg Hg).
  destruct r; unfold processSingleMessageMulti, processSingleMessage;
    rewrite Ht, Hm; cbn; eexists; repeat split.
Qed.

Lemma C10_witness :
  exists w',
    complete obliging (onNewMessage LegacyChannel (mkMessage 9 "" None None None))
             (world_of sample_service) []
    = (Resolved tt, w', [])
    /\ service w' = sample_service /\ heap w' = ∅ /\ timers w' = [].
Proof.
  apply (C10_empty_message_dropped obliging LegacyChannel
           (mkMessage 9 "" None None None) (world_of sample_service) []);
    reflexivity.
Defined.

(** ** Edited messages *)

(** C3, as stated, fails.  The edit of a forwarded message that carries
    no text (a caption removed from a photo) is applied with the empty
    text, without any call of the translation gateway; and when the
    translation gateway rejects the call, the edit of a forwarded message
    that carries text is not applied at all. *)
Lemma C3_counterexample :
  store (world_of linked_service) !! id caption_removed = Some 501
  /\ (complete obliging (onEditedMessage (Topic news) caption_removed)
               (world_of linked_service) []).2
     = [Exch (EditMessage (Num (-1001)) 501 "") (Resolved tt)]
  /\ filter (fun e => is_translation e = true)
       (complete obliging (onEditedMessage (Topic news) caption_removed)
                 (world_of linked_service) []).2 = []
  /\ store (world_of linked_service) !! id breaking = Some 501
  /\ (complete failing (onEditedMessage (Topic news) breaking)
               (world_of linked_service) []).2
     = [Exch (TranslateToKorean "Breaking: markets up"
                (Some (Text "formal tone")))
             (Rejected "unavailable")].
Proof. repeat split. Qed.

(** C3, amended.  An edited message whose source id has a recorded entry
    is handled according to what the translation gives.  When the edited
    message carries no text, or the translation gateway answers its text
    with the route's instruction, there is exactly one edit call, against
    the mapped destination id, with the fresh translation (the empty text,
    and no translation call, when there is no text).  When the
    translation gateway rejects the call, that rejected call is the only
    gateway call: no edit is made.  An edited message with no entry
    causes no gateway call at all.  The handler returns normally and the
    store is never touched. *)
Theorem C3_edit_applied (gw : Gateway) (r : Route) (msg : Message)
  (w : World) (h : list Exchange) :
  (forall target,
      store w !! id msg = Some target -> target ≠ 0 ->
      match translation gw h (message msg) (instruction r) with
      | Resolved t =>
          exists w' a,
            complete gw (onEditedMessage r msg) w h
            = (Resolved tt, w',
               h ++ translated (message msg) (instruction r) t
                 ++ [Exch (edit r (service w) target t) a])
            /\ store w' = store w
      | Rejected err =>
          exists w',
            complete gw (onEditedMessage r msg) w h
            = (Resolved tt, w',
               h ++ [Exch (TranslateToKorean (message msg) (instruction r))
                          (Rejected err)])
            /\ store w' = store w
      end)
  /\ (store w !! id msg = None ->
      exists w',
        complete gw (onEditedMessage r msg) w h = (Resolved tt, w', h)
        /\ store w' = store w).
Proof.
  unfold store, translation, translated. split.
  - intros target Hl Hz. apply truthy_Z_true in Hz.
    destruct r as [cfg|];
      unfold onEditedMessage, handleEditedMessageMulti, handleEditedMessage;
      cbn; rewrite Hl, Hz; cbn;
      destruct (truthy_string (message msg)); cbn.
    all: repeat (answer gw; cbn).
    all: rewrite <- ?(app_assoc h); cbn.
    all: first [ eexists _, _; split; reflexivity
               | eexists; split; reflexivity ].
  - intros Hl.
    destruct r as [cfg|];
      unfold onEditedMessage, handleEditedMessageMulti, handleEditedMessage;
      cbn; rewrite Hl; cbn; eexists; split; reflexivity.
Qed.

Lemma C3_witness :
  (exists w' a,
     complete obliging (onEditedMessage (Topic news) breaking)
              (world_of linked_service) []
     = (Resolved tt, w',
        [Exch (TranslateToKorean "Breaking: markets up"
                 (Some (Text "formal tone")))
              (Resolved "ko:Breaking: markets up");
         Exch (EditMessage (Num (-1001)) 501 "ko:Breaking: markets up") a])
     /\ store w' = {[ 7 := 501 ]})
  /\ (exists w',
     complete failing (onEditedMessage (Topic news) breaking)
              (world_of linked_service) []
     = (Resolved tt, w',
        [Exch (TranslateToKorean "Breaking: markets up"
                 (Some (Text "formal tone")))
              (Rejected "unavailable")])
     /\ store w' = {[ 7 := 501 ]})
  /\ (exists w',
        complete obliging (onEditedMessage (Topic news) breaking)
                 (world_of sample_service) []
        = (Resolved tt, w', [])
        /\ store w' = ∅).
Proof.
  split; [|split].
  - apply (proj1 (C3_edit_applied obliging (Topic news) breaking
                    (world_of linked_service) []) 501);
      [reflexivity | lia].
  - apply (proj1 (C3_edit_applied failing (Topic news) breaking
                    (world_of linked_service) []) 501);
      [reflexivity | lia].
  - apply (proj2 (C3_edit_applied obliging (Topic news) breaking
                    (world_of sample_service) [])); reflexivity.
Defined.

(** ** Replies *)

(** C4, as stated, fails on three kinds of events that carry a reply
    reference.  The members of an album that reply to a forwarded message
    (7, forwarded as 501) are posted as one album addressed to the topic
    only; a reply with neither text nor media is not posted at all; and a
    reply whose text the translation gateway rejects is not posted
    either. *)
Lemma C4_counterexample :
  store (world_of linked_service) !! 7 = Some 501
  /\ history (run obliging
                [Clock 0; NewMessageMulti news (reply_in_album 11 1);
                 Clock 200; NewMessageMulti news (reply_in_album 12 2);
                 Clock 1200; Response 0]
                (idle linked_service))
     = [Exch (ClientSendMessage (Num (-1001))
                (mkSendParams ""
                   (Some (Album [mkMedia 1 false; mkMedia 2 false]))
                   (Some (Num 5))))
             (Resolved (Some (mkSent 500)))]
  /\ (complete obliging
        (onNewMessage (Topic news) (mkMessage 13 "" None None (Some 7)))
        (world_of sample_service) []).2 = []
  /\ (complete failing (onNewMessage (Topic news) reply_to_7)
        (world_of linked_service) []).2
     = [Exch (TranslateToKorean "Indeed" (Some (Text "formal tone")))
             (Rejected "unavailable")].
Proof. repeat split. Qed.

(** C4, amended.  For a new message without group identifier that carries
    text or media and a reply reference.  When the message has no text, or
    the translation gateway answers its text: if the store maps the
    referenced id, every send of the unit is the post that replies to the
    mapped destination id; if the store has no mapping, the post is still
    made, addressed to the route only (the topic, or the legacy channel
    with no reply argument).  When the translation gateway rejects the
    call, that rejected call is the only gateway call and nothing is
    posted, whatever the store holds.  The handler returns normally in
    every case. *)
Theorem C4_reply_resolution (gw : Gateway) (r : Route) (msg : Message)
  (w : World) (h : list Exchange) (ref : Z) :
  ungrouped msg ->
  replyTo msg = Some ref -> ref ≠ 0 ->
  is_Some (media msg) \/ message msg ≠ "" ->
  match translation gw h (message msg) (instruction r) with
  | Resolved t =>
      (forall d, store w !! ref = Some d -> d ≠ 0 ->
         exists w' sends,
           complete gw (onNewMessage r msg) w h
           = (Resolved tt, w',
              h ++ translated (message msg) (instruction r) t ++ sends)
           /\ sends ≠ []
           /\ Forall (exchange_of (post r (service w) t msg (Some d))) sends)
      /\ (store w !! ref = None ->
         exists w' sends,
           complete gw (onNewMessage r msg) w h
           = (Resolved tt, w',
              h ++ translated (message msg) (instruction r) t ++ sends)
           /\ sends ≠ []
           /\ Forall (exchange_of (post r (service w) t msg None)) sends)
  | Rejected err =>
      exists w',
        complete gw (onNewMessage r msg) w h
        = (Resolved tt, w',
           h ++ [Exch (TranslateToKorean (message msg) (instruction r))
                      (Rejected err)])
        /\ store w' = store w
  end.
Proof.
  intros Hg Hr Hz Hc. apply truthy_Z_true in Hz.
  rewrite (ungrouped_handlers r msg Hg).
  destruct (translation gw h (message msg) (instruction r)) as [t|err] eqn:Ht.
  - revert Ht.
    unfold store, translation, translated in *.
    destruct msg as [i txt md g rp]; cbn in *; subst rp. intros Ht.
    assert (Hc' : md = None -> truthy_string txt = true).
    { intros ->. destruct Hc as [[? ?]|Hc]; [done|].
      by apply truthy_string_true. }
    clear Hc.
    assert (Hone : forall (c : Call (option SentMessage)) a,
               [Exch c a] ≠ [] /\ Forall (exchange_of c) [Exch c a]).
    { intros c a. split; [done|]. repeat constructor. by exists a. }
    assert (Htwo : forall (c : Call (option SentMessage)) a b,
               [Exch c a; Exch c b] ≠ []
               /\ Forall (exchange_of c) [Exch c a; Exch c b]).
    { intros c a b. split; [done|]. repeat constructor; by eexists. }
    split.
    + intros d Hl Hd. apply truthy_Z_true in Hd.
      destruct (truthy_string txt) eqn:Etxt, r as [cfg|], md as [[m [|]]|];
        try (specialize (Hc' eq_refl); discriminate);
        unfold processSingleMessageMulti, processSingleMessage, resolve_reply,
          store_mapping; cbn in *; rewrite ?Etxt, Hz; cbn; rewrite Hl; cbn;
        rewrite Hd; cbn; rewrite ?Etxt; cbn; try rewrite Ht; simplify_eq; cbn.
      all: crunch gw; try discriminate.
      all: rewrite <- ?(app_assoc h); cbn.
      all: try (eexists _, [_]; split; [reflexivity|apply Hone]).
      all: try (eexists _, [_; _]; split; [reflexivity|apply Htwo]).
    + intros Hl.
      destruct (truthy_string txt) eqn:Etxt, r as [cfg|], md as [[m [|]]|];
        try (specialize (Hc' eq_refl); discriminate);
        unfold processSingleMessageMulti, processSingleMessage, resolve_reply,
          store_mapping; cbn in *; rewrite ?Etxt, Hz; cbn; rewrite Hl; cbn;
        rewrite ?Etxt; cbn; try rewrite Ht; simplify_eq; cbn.
      all: crunch gw; try discriminate.
      all: rewrite <- ?(app_assoc h); cbn.
      all: try (eexists _, [_]; split; [reflexivity|apply Hone]).
      all: try (eexists _, [_; _]; split; [reflexivity|apply Htwo]).
  - clear Hc. revert Ht. unfold store, translation.
    destruct (truthy_string (message msg)) eqn:Etxt; [|discriminate].
    intros Hgw.
    destruct msg as [i txt md g rp]; cbn in *; subst rp.
    destruct r as [cfg|], md as [[m [|]]|];
      unfold processSingleMessageMulti, processSingleMessage, resolve_reply;
      cbn in *; rewrite ?Etxt.
    all: repeat (cbn; first [rewrite Hgw | rewrite Etxt | branch]).
    all: cbn; eexists; split; reflexivity.
Qed.

Lemma C4_witness :
  ((exists w' sends,
     complete obliging (onNewMessage (Topic news) reply_to_7)
              (world_of linked_service) []
     = (Resolved tt, w',
        [Exch (TranslateToKorean "Indeed" (Some (Text "formal tone")))
              (Resolved "ko:Indeed")] ++ sends)
     /\ sends ≠ []
     /\ Forall (exchange_of
                  (ClientSendMessage (Num (-1001))
                     (mkSendParams "ko:Indeed" None (Some (Num 501)))))
               sends)
   /\ (exists w' sends,
     complete obliging (onNewMessage (Topic news) reply_to_7)
              (world_of sample_service) []
     = (Resolved tt, w',
        [Exch (TranslateToKorean "Indeed" (Some (Text "formal tone")))
              (Resolved "ko:Indeed")] ++ sends)
     /\ sends ≠ []
     /\ Forall (exchange_of
                  (ClientSendMessage (Num (-1001))
                     (mkSendParams "ko:Indeed" None (Some (Num 5)))))
               sends))
  /\ (exists w',
     complete failing (onNewMessage (Topic news) reply_to_7)
              (world_of linked_service) []
     = (Resolved tt, w',
        [Exch (TranslateToKorean "Indeed" (Some (Text "formal tone")))
              (Rejected "unavailable")])
     /\ store w' = {[ 7 := 501 ]}).
Proof.
  split; [split|].
  - apply (proj1 (C4_reply_resolution obliging (Topic news) reply_to_7
                    (world_of linked_service) [] 7
                    eq_refl eq_refl ltac:(lia) ltac:(right; discriminate))
                 501); [reflexivity | lia].
  - apply (proj2 (C4_reply_resolution obliging (Topic news) reply_to_7
                    (world_of sample_service) [] 7
                    eq_refl eq_refl ltac:(lia) ltac:(right; discriminate)));
      reflexivity.
  - apply (C4_reply_resolution failing (Topic news) reply_to_7
             (world_of linked_service) [] 7
             eq_refl eq_refl ltac:(lia) ltac:(right; discriminate)).
Defined.

(** ** The correlation store *)

(** C5, as stated, fails for groups: two members of group g1 arrive 200 ms
    apart from the source of route [news]; once the window has elapsed
    the album is posted, the send returns message 501, and the store has
    no entry at all. *)
Lemma C5_counterexample :
  let l := run obliging
             [Clock 0; NewMessageMulti news album1;
              Clock 200; NewMessageMulti news album2;
              Clock 1200; Response 0; Response 0]
             (idle sample_service) in
  history l
  = [Exch (TranslateToKorean "a" (Some (Text "formal tone"))) (Resolved "ko:a");
     Exch (ClientSendMessage (Num (-1001))
             (mkSendParams "ko:a"
                (Some (Album [mkMedia 1 true; mkMedia 2 true]))
                (Some (Num 5))))
          (Resolved (Some (mkSent 501)))]
  /\ pending l = []
  /\ store (world l) = ∅.
Proof. repeat split. Qed.

(** C5, amended.  After any successful post of a single message (one
    without group identifier), that is, whenever a send of the unit
    returned a message with an id, the store maps the source message id
    to the id of the message returned. *)
Theorem C5_single_post_recorded (gw : Gateway) (r : Route) (msg : Message)
  (w : World) (h : list Exchange) :
  ungrouped msg ->
  exists w' new,
    complete gw (onNewMessage r msg) w h = (Resolved tt, w', h ++ new)
    /\ forall e sent,
         e ∈ new -> posted e = Some sent -> sent_id sent ≠ 0 ->
         store w' !! id msg = Some (sent_id sent).
Proof.
  intros _.
  destruct (new_unit gw r msg w h) as (w' & new & Hrun & Hs & Hlast).
  exists w', new. split; [done|].
  intros e sent He Hp Hid.
  rewrite Hs, (Hlast e He) by (rewrite Hp; eauto). cbn. rewrite Hp. cbn.
  apply truthy_Z_true in Hid. rewrite Hid. apply lookup_insert_eq.
Qed.

Lemma C5_witness :
  exists w' new,
    complete obliging (onNewMessage (Topic news) breaking)
             (world_of sample_service) []
    = (Resolved tt, w', [] ++ new)
    /\ forall e sent,
         e ∈ new -> posted e = Some sent -> sent_id sent ≠ 0 ->
         store w' !! 7 = Some (sent_id sent).
Proof.
  apply (C5_single_post_recorded obliging (Topic news) breaking
           (world_of sample_service) []).
  reflexivity.
Defined.

(** The post of the witness does happen, and is recorded. *)
Example breaking_recorded :
  let '(_, w', new) := complete obliging (onNewMessage (Topic news) breaking)
                                (world_of sample_service) [] in
  posted <$> last new = Some (Some (mkSent 501))
  /\ store w' !! 7 = Some 501.
Proof. split; reflexivity. Qed.

(** ** Failures *)

(** Starting a task leaves the suspended tasks in place; at most it adds
    itself after them. *)
Lemma start_pending (m : Async unit) (l : Loop) :
  exists tail, pending (start m l) = pending l ++ tail.
Proof.
  revert l. induction m as [a|e|k IH|w0 k IH|T c k IH]; intros l; cbn.
  - exists []. by rewrite app_nil_r.
  - exists []. by rewrite app_nil_r.
  - apply IH.
  - apply (IH (mkLoop w0 (pending l) (history l))).
  - by eexists.
Qed.

(** C9.  Whatever the gateways answer, no handler lets an exception out:
    the new-message and edited-message handlers and the flush of a group
    all return normally.  A unit whose last gateway call was rejected
    leaves the store as it was; the store changes only by the entry for a
    send that returned a message with an id.  Edits and group flushes
    never change it.  On the event loop, the settling of one task's call,
    resolved or rejected, leaves every other suspended task in place. *)
Theorem C9_failures_contained (gw : Gateway) (w : World)
  (h : list Exchange) :
  (forall r msg, exists w' new,
      complete gw (onNewMessage r msg) w h = (Resolved tt, w', h ++ new)
      /\ (forall e, last new = Some e -> is_rejection e = true ->
                    store w' = store w)
      /\ (store w' = store w
          \/ exists e sent,
               last new = Some e /\ posted e = Some sent
               /\ sent_id sent ≠ 0
               /\ store w' = <[id msg := sent_id sent]> (store w)))
  /\ (forall r msg, exists w' new,
      complete gw (onEditedMessage r msg) w h = (Resolved tt, w', h ++ new)
      /\ store w' = store w)
  /\ (forall cb, exists w' new,
      complete gw (run_callback cb) w h = (Resolved tt, w', h ++ new)
      /\ store w' = store w)
  /\ (forall l i,
      pending (respond gw i l) = pending l
      \/ exists tail, pending (respond gw i l) = delete i (pending l) ++ tail).
Proof.
  split; [|split; [|split]].
  - intros r msg.
    destruct (new_unit gw r msg w h) as (w' & new & Hrun & Hs & _).
    exists w', new. split; [done|]. rewrite Hs. unfold recorded. split.
    + intros e -> Hrej. cbn.
      destruct e as [T c [v|err]]; [done|]. by destruct c.
    + destruct (last new) as [e|]; cbn; [|by left].
      destruct (posted e) as [sent|] eqn:Hp; [|by left].
      destruct (truthy_Z (sent_id sent)) eqn:Hid; [|by left].
      right. exists e, sent. by rewrite truthy_Z_true in Hid.
  - intros r msg. apply edit_unit.
  - intros cb. apply group_unit.
  - intros l i. unfold respond.
    destruct (pending l !! i) as [[a|e|k|w0 k|T c k]|]; try by left.
    right. apply (start_pending _ (mkLoop _ _ _)).
Qed.

(** With every gateway call failing, the text message of C1 is dropped
    after the rejected translation, with nothing posted or recorded. *)
Example breaking_with_failing_gateway :
  exists w',
    complete failing (onNewMessage (Topic news) breaking)
             (world_of sample_service) []
    = (Resolved tt, w',
       [Exch (TranslateToKorean "Breaking: markets up" (Some (Text "formal tone")))
             (Rejected "unavailable")])
    /\ store w' = ∅.
Proof. eexists. split; reflexivity. Qed.

(** ** Albums *)

Lemma run_app gw evs1 evs2 l :
  run gw (evs1 ++ evs2) l = run gw evs2 (run gw evs1 l).
Proof. apply fold_left_app. Qed.

Lemma drain gw (m : Async unit) (n : nat) (l : Loop) :
  pending l = [] ->
  (awaits gw m (world l) (history l) <= n)%nat ->
  run gw (replicate n (Response 0)) (start m l)
  = mkLoop (complete gw m (world l) (history l)).1.2 []
           (complete gw m (world l) (history l)).2.
Proof.
  revert n l.
  assert (Hidle : forall n l, pending l = [] ->
            run gw (replicate n (Response 0)) l = l).
  { induction n as [|n IH]; intros l Hp; [done|]. cbn.
    unfold respond. rewrite Hp. cbn. by apply IH. }
  induction m as [a|e|k IH|w0 k IH|T c k IH]; intros n l Hp Hn; cbn in *.
  - rewrite Hidle by done. destruct l; cbn in *; by subst.
  - rewrite Hidle by done. destruct l; cbn in *; by subst.
  - by apply IH.
  - rewrite (IH n (mkLoop w0 (pending l) (history l))); done.
  - destruct n as [|n]; [lia|]. cbn. unfold respond. rewrite Hp. cbn.
    apply (IH _ n (mkLoop (world l) []
                     (history l ++ [Exch c (gw T (history l) c)])));
      cbn; [done|lia].
Qed.

Lemma find_first_text (members : list Message) :
  match find (fun msg => truthy_string (message msg)) members with
  | Some msg => message msg
  | None => ""
  end = first_text members.
Proof.
  unfold first_text. induction members as [|m ms IH]; [done|].
  rewrite fmap_cons, filter_cons. cbn [find].
  destruct (message m) eqn:E; cbn [truthy_string].
  - rewrite decide_False by (intros ?; done). done.
  - rewrite decide_True by done. done.
Qed.

Lemma flush_complete gw g loc cfg members hd (w : World) h tr :
  heap w !! loc = Some (mkGroupData members (Some hd) (Some cfg)) ->
  translation gw h (first_text members) (prompt cfg) = Resolved tr ->
  exists w',
    complete gw (run_callback (FlushMulti g loc cfg)) w h
    = (Resolved tt, w',
       posting gw h (targetGroupId (service w)) cfg members tr)
    /\ (awaits gw (run_callback (FlushMulti g loc cfg)) w h <= 2)%nat
    /\ service w' = set_groupedMessages (delete g (groupedMessages (service w))) (service w)
    /\ timers w' = timers w /\ clock w' = clock w.
Proof.
  intros Hh Htr. unfold posting, group_post, translation, translated in *.
  unfold run_callback, processGroupedMessagesMulti, array_elements, read_groupData.
  cbn. rewrite Hh. cbn. rewrite find_first_text.
  destruct (truthy_string (first_text members)) eqn:Etxt; cbn.
  - rewrite Htr. cbn. rewrite Hh. cbn.
    destruct (omap media members) as [|md mds] eqn:Em; cbn; answer gw; cbn;
      eexists; repeat split; lia.
  - simplify_eq. rewrite Hh. cbn. rewrite !app_nil_r.
    destruct (omap media members) as [|md mds] eqn:Em; cbn; answer gw; cbn;
      eexists; repeat split; lia.
Qed.

Lemma first_member gw g cfg msg t l0 :
  truthy_string g = true -> groupedId msg = Some g ->
  quiet g l0 -> clock (world l0) <= t ->
  collecting g cfg [msg] t l0 (run gw [Clock t; NewMessageMulti cfg msg] l0).
Proof.
  intros Hg Hm (Ht & Hp & Hgm) Hc.
  destruct l0 as [[svc hp nl tms nh clk lg] pend hist]; cbn in *; subst.
  unfold tick; cbn. rewrite Z.max_r by lia.
  unfold handleNewMessageMulti, collect. rewrite Hm, Hg. cbn.
  rewrite Hgm. cbn. rewrite lookup_insert_eq. cbn.
  rewrite lookup_alter_eq, lookup_insert_eq. cbn.
  exists nl, nh. cbn.
  rewrite lookup_insert_eq, !lookup_alter_eq, lookup_insert_eq. cbn.
  repeat split.
Qed.

Lemma next_member gw g cfg members msg t t' l0 l :
  truthy_string g = true -> groupedId msg = Some g ->
  collecting g cfg members t l0 l -> t <= t' < t + 1000 ->
  collecting g cfg (members ++ [msg]) t' l0
    (run gw [Clock t'; NewMessageMulti cfg msg] l).
Proof.
  intros Hg Hm (loc & hd & Hgm & Hh & Ht & Hc & Hp & Hh0 & Htg & Hs) Htt.
  destruct l as [[svc hp nl tms nh clk lg] pend hist]; cbn in *; subst.
  unfold tick; cbn. rewrite Z.max_r by lia.
  rewrite decide_False by lia. rewrite decide_True by lia. cbn.
  unfold handleNewMessageMulti, collect. rewrite Hm, Hg. cbn.
  rewrite Hgm. cbn. rewrite Hgm. cbn. rewrite lookup_alter_eq, Hh. cbn.
  rewrite decide_False by (intros ?; done). cbn.
  exists loc, nh. cbn. rewrite !lookup_alter_eq, Hh. cbn.
  repeat split; done.
Qed.

Lemma more_members gw g cfg rest :
  truthy_string g = true ->
  Forall (fun a => groupedId a.2 = Some g) rest ->
  forall members t l0 l,
    collecting g cfg members t l0 l -> timely t rest ->
    collecting g cfg (members ++ rest.*2) (final t rest) l0
      (run gw (deliveries cfg rest) l).
Proof.
  intros Hg. induction 1 as [|[t' m] rest Hm _ IH]; intros members t l0 l Hc Ht.
  - cbn. by rewrite app_nil_r.
  - destruct Ht as [Ht Hrest]. cbn in *.
    change (collecting g cfg (members ++ m :: rest.*2) (final t' rest) l0
              (run gw (deliveries cfg rest)
                   (run gw [Clock t'; NewMessageMulti cfg m] l))).
    rewrite (cons_middle m members), app_assoc.
    apply IH; [|done]. by eapply next_member.
Qed.

Lemma flush gw g cfg members t T l0 l tr :
  collecting g cfg members t l0 l -> t + 1000 <= T ->
  translation gw (history l0) (first_text members) (prompt cfg) = Resolved tr ->
  let l' := run gw [Clock T; Response 0; Response 0] l in
  history l'
  = posting gw (history l0) (targetGroupId (service (world l0))) cfg
            members tr
    /\ quiet g l' /\ clock (world l') = T
    /\ targetGroupId (service (world l')) = targetGroupId (service (world l0))
    /\ store (world l') = store (world l0).
Proof.
  intros (loc & hd & Hgm & Hh & Ht & Hc & Hp & Hh0 & Htg & Hs) HT Htr l'.
  destruct l as [[svc hp nl tms nh clk lg] pend hist]; cbn in *; subst.
  subst l'. cbn [run fold_left step]. unfold tick. cbn [world timers clock set_timers set_clock pending history].
  rewrite Z.max_r by lia. rewrite !filter_cons, !filter_nil. cbn [due].
  rewrite decide_True by lia. rewrite decide_False by lia. cbn [fold_left callback].
  match goal with
  | |- context [start _ (mkLoop ?w _ _)] => set (w1 := w)
  end.
  destruct (flush_complete gw g loc cfg members hd w1 (history l0) tr Hh Htr)
    as (w' & Hrun & Hn & Hsvc & Htm & Hclk).
  pose proof (drain gw (run_callback (FlushMulti g loc cfg)) 2
                (mkLoop w1 [] (history l0)) eq_refl Hn) as Hd.
  cbn [run replicate fold_left step] in Hd. rewrite Hd. cbn [world history]. rewrite Hrun. cbn.
  split; [by rewrite <- Htg|].
  unfold quiet, store in *. cbn in *.
  rewrite Htm, Hsvc, Hclk. cbn. rewrite lookup_delete_eq.
  repeat split; assumption.
Qed.

Lemma first_text_singleton (m : Message) : first_text [m] = message m.
Proof.
  rewrite <- find_first_text. cbn.
  destruct (message m) eqn:E; cbn; by rewrite ?E.
Qed.

(** X29.  An album of the multi-channel mode is posted once.  The members
    of one group arrive at the handler of one route, each less than
    1000 ms after the previous one, on a loop where no timer is armed, no
    task is suspended and the group is not being collected, and the
    translation gateway answers the first non-empty text among the
    members, if there is one.  Once the clock has passed the last arrival
    by 1000 ms and the gateway calls have settled, exactly one post has
    been made: the translation gateway was given that text with the
    route's instruction, and the one send carries its translation and the
    media of all members in arrival order; no timer and no task is left.
    If a further member of the group arrives 1000 ms or more after the
    last one, after the calls of the first post have settled, and the
    translation gateway answers its text, it is posted on its own: two
    posts are made. *)
Theorem group_posted_once (gw : Gateway) (cfg : ChannelConfig)
  (g : string) (first : Z * Message) (rest : list (Z * Message))
  (l0 : Loop) :
  truthy_string g = true ->
  Forall (fun a => groupedId a.2 = Some g) (first :: rest) ->
  quiet g l0 ->
  clock (world l0) <= first.1 ->
  timely first.1 rest ->
  let members := (first :: rest).*2 in
  let arrived := final first.1 rest in
  let peer := targetGroupId (service (world l0)) in
  forall tr,
    translation gw (history l0) (first_text members) (prompt cfg)
    = Resolved tr ->
    let h1 := posting gw (history l0) peer cfg members tr in
    (forall T, arrived + 1000 <= T ->
       let l := run gw (deliveries cfg (first :: rest)
                          ++ [Clock T; Response 0; Response 0]) l0 in
       history l = h1 /\ pending l = [] /\ timers (world l) = [])
    /\ (forall late T tr',
          groupedId late.2 = Some g ->
          arrived + 1000 <= late.1 -> late.1 + 1000 <= T ->
          translation gw h1 (message late.2) (prompt cfg) = Resolved tr' ->
          let l := run gw (deliveries cfg (first :: rest)
                             ++ [Clock late.1; Response 0; Response 0]
                             ++ deliveries cfg [late]
                             ++ [Clock T; Response 0; Response 0]) l0 in
          history l = posting gw h1 peer cfg [late.2] tr'
          /\ pending l = [] /\ timers (world l) = []).
Proof.
  intros Hg Hall Hq Hc Ht members arrived peer tr Htr h1.
  subst h1 peer.
  apply Forall_cons in Hall as [Hfirst Hrest].
  assert (Hcol : collecting g cfg members arrived l0
                   (run gw (deliveries cfg (first :: rest)) l0)).
  { change (deliveries cfg (first :: rest))
      with ([Clock first.1; NewMessageMulti cfg first.2]
              ++ deliveries cfg rest).
    rewrite run_app.
    apply (more_members gw g cfg rest Hg Hrest [first.2] first.1); [|done].
    by apply first_member. }
  split.
  - intros T HT l. subst l. rewrite run_app.
    destruct (flush gw g cfg members arrived T l0 _ tr Hcol HT Htr)
      as (Hh & (Htm & Hp & _) & _). done.
  - intros late T tr' Hlate Hl HT Htr' l. subst l.
    rewrite !run_app.
    destruct (flush gw g cfg members arrived late.1 l0 _ tr Hcol Hl Htr)
      as (Hh & Hq1 & Hc1 & Htg1 & _).
    set (l1 := run gw [Clock late.1; Response 0; Response 0] _) in *.
    assert (Hcol1 : collecting g cfg [late.2] late.1 l1
                      (run gw (deliveries cfg [late]) l1)).
    { apply first_member; try done. lia. }
    rewrite <- first_text_singleton in Htr'. rewrite <- Hh in Htr'.
    destruct (flush gw g cfg [late.2] late.1 T l1 _ tr' Hcol1 HT Htr')
      as (Hh2 & (Htm & Hp & _) & _).
    rewrite Hh2, Hh, Htg1. done.
Qed.

Lemma group_posted_once_witness :
  (let l := run obliging
              (deliveries news [(0, album1); (200, album2)]
                 ++ [Clock 1200; Response 0; Response 0])
              (idle sample_service) in
   history l
   = [Exch (TranslateToKorean "a" (Some (Text "formal tone"))) (Resolved "ko:a");
      Exch (ClientSendMessage (Num (-1001))
              (mkSendParams "ko:a"
                 (Some (Album [mkMedia 1 true; mkMedia 2 true]))
                 (Some (Num 5))))
           (Resolved (Some (mkSent 501)))]
   /\ pending l = [] /\ timers (world l) = [])
  /\ (let l := run obliging
                 (deliveries news [(0, album1); (200, album2)]
                    ++ [Clock 1500; Response 0; Response 0]
                    ++ deliveries news [(1500, late_member)]
                    ++ [Clock 2500; Response 0; Response 0])
                 (idle sample_service) in
      history l
      = [Exch (TranslateToKorean "a" (Some (Text "formal tone"))) (Resolved "ko:a");
         Exch (ClientSendMessage (Num (-1001))
                 (mkSendParams "ko:a"
                    (Some (Album [mkMedia 1 true; mkMedia 2 true]))
                    (Some (Num 5))))
              (Resolved (Some (mkSent 501)));
         Exch (TranslateToKorean "b" (Some (Text "formal tone"))) (Resolved "ko:b");
         Exch (ClientSendMessage (Num (-1001))
                 (mkSendParams "ko:b" (Some (Album [mkMedia 3 false]))
                    (Some (Num 5))))
              (Resolved (Some (mkSent 503)))]
      /\ pending l = [] /\ timers (world l) = []).
Proof.
  pose proof (group_posted_once obliging news "g1" (0, album1)
                [(200, album2)] (idle sample_service) eq_refl
                ltac:(repeat constructor) ltac:(repeat split)
                ltac:(cbn; lia) ltac:(cbn; lia) "ko:a" eq_refl) as [H1 H2].
  split.
  - apply (H1 1200). cbn. lia.
  - apply (H2 (1500, late_member) 2500 "ko:b"); [reflexivity|cbn; lia..|reflexivity].
Defined.

(** C2.  The claim does not hold of the code.  Two members of group g1
    arrive 200 ms apart and the group's timer fires 1000 ms after the
    second.  A third member arrives 1100 ms after the second, while the
    flush awaits the translation.  The gap between the last two arrivals
    is at least the window, so the claim has two separate posts: one with
    the media of the first two members and the translation of "a", one
    with the third member's media and the translation of its text "b".
    The code posts the same album twice: the group is still in the table,
    so the third member is appended to the array the flush is reading and
    a timer is armed on the same group object; the running flush and, a
    second later, that timer each post the media of all three members
    with the translation of "a".  The text "b" is never given to the
    translation gateway. *)
Theorem C2_late_member_joins_running_flush :
  let l := run obliging
             [Clock 0; NewMessageMulti news album1;
              Clock 200; NewMessageMulti news album2;
              Clock 1200;
              Clock 1300; NewMessageMulti news late_member;
              Response 0; Response 0;
              Clock 2300; Response 0; Response 0]
             (idle sample_service) in
  let union := Album [mkMedia 1 true; mkMedia 2 true; mkMedia 3 false] in
  history l
  = [Exch (TranslateToKorean "a" (Some (Text "formal tone")))
          (Resolved "ko:a");
     Exch (ClientSendMessage (Num (-1001))
             (mkSendParams "ko:a" (Some union) (Some (Num 5))))
          (Resolved (Some (mkSent 501)));
     Exch (TranslateToKorean "a" (Some (Text "formal tone")))
          (Resolved "ko:a");
     Exch (ClientSendMessage (Num (-1001))
             (mkSendParams "ko:a" (Some union) (Some (Num 5))))
          (Resolved (Some (mkSent 503)))]
  /\ pending l = [] /\ timers (world l) = []
  /\ groupedMessages (service (world l)) = ∅.
Proof. vm_compute. repeat split. Qed.

(** When the third member arrives, the first flush is awaiting the
    translation: the group is still in the table, its object holds the
    three members, and the timer of the late arrival is armed on it. *)
Example late_member_during_flush :
  let l := run obliging
             [Clock 0; NewMessageMulti news album1;
              Clock 200; NewMessageMulti news album2;
              Clock 1200;
              Clock 1300; NewMessageMulti news late_member]
             (idle sample_service) in
  length (pending l) = 1%nat
  /\ history l = []
  /\ groupedMessages (service (world l)) !! "g1" = Some 0%nat
  /\ heap (world l) !! 0%nat
     = Some (mkGroupData [album1; album2; late_member] (Some 2%nat)
               (Some news))
  /\ timers (world l) = [mkTimer 2%nat 2300 (FlushMulti "g1" 0%nat news)].
Proof. vm_compute. repeat split. Qed.

(** C6.  The claim does not hold of the code.  A member of group g1
    arrives 200 ms after the group's timer fired, while the flush awaits
    the translation.  The group is still in the table, so the member is
    appended to the array the flush is reading and a new timer is armed on
    the same group object; the running flush posts both members and
    removes the key, and a second later the new timer posts both members
    again. *)
Theorem C6_member_during_flush_posted_twice :
  let l := run obliging
             [Clock 0; NewMessageMulti news album1;
              Clock 1000;
              Clock 1200; NewMessageMulti news album2;
              Response 0; Response 0;
              Clock 2200; Response 0; Response 0]
             (idle sample_service) in
  let legacy := run obliging
             [Clock 0; NewMessage album1;
              Clock 1000;
              Clock 1200; NewMessage album2;
              Response 0; Response 0;
              Clock 2200; Response 0; Response 0]
             (idle sample_service) in
  (history l
   = [Exch (TranslateToKorean "a" (Some (Text "formal tone"))) (Resolved "ko:a");
      Exch (ClientSendMessage (Num (-1001))
              (mkSendParams "ko:a"
                 (Some (Album [mkMedia 1 true; mkMedia 2 true]))
                 (Some (Num 5))))
           (Resolved (Some (mkSent 501)));
      Exch (TranslateToKorean "a" (Some (Text "formal tone"))) (Resolved "ko:a");
      Exch (ClientSendMessage (Num (-1001))
              (mkSendParams "ko:a"
                 (Some (Album [mkMedia 1 true; mkMedia 2 true]))
                 (Some (Num 5))))
           (Resolved (Some (mkSent 503)))]
   /\ pending l = [] /\ timers (world l) = [])
  /\ (history legacy
      = [Exch (TranslateToKorean "a" None) (Resolved "ko:a");
         Exch (ClientSendMessage (Num 200)
                 (mkSendParams "ko:a"
                    (Some (Album [mkMedia 1 true; mkMedia 2 true])) None))
              (Resolved (Some (mkSent 501)));
         Exch (TranslateToKorean "a" None) (Resolved "ko:a");
         Exch (ClientSendMessage (Num 200)
                 (mkSendParams "ko:a"
                    (Some (Album [mkMedia 1 true; mkMedia 2 true])) None))
              (Resolved (Some (mkSent 503)))]
      /\ pending legacy = [] /\ timers (world legacy) = []).
Proof. vm_compute. repeat split. Qed.

(** While the first flush awaits the translation, the group is still in
    the table and its object is the one the running flush reads. *)
Example flush_in_progress :
  let l := run obliging
             [Clock 0; NewMessageMulti news album1; Clock 1000]
             (idle sample_service) in
  length (pending l) = 1%nat
  /\ history l = []
  /\ groupedMessages (service (world l)) !! "g1" = Some 0%nat
  /\ timers (world l) = [].
Proof. vm_compute. repeat split. Qed.


(** ** Start-up *)

Section StartupProperties.
Context `{Builtins}.
Variable gw : Gateway.

Lemma entry_accepted_well_formed entry :
  entry_accepted entry = true <-> well_formed entry.
Proof.
  unfold entry_accepted, entry_fields, well_formed.
  destruct (split ":"%char entry) as [|[|] [|[|] [|[|] ?]]]; cbn;
    intuition congruence.
Qed.
Lemma configure_entry_run (entry : string) (w : World) (h : list Exchange) :
  exists w' logs,
    complete gw (configure_entry entry) w h = (Resolved tt, w', h)
    /\ channels (service w')
       = channels (service w)
         ++ (if decide (well_formed entry)
             then [entry_config (prompts (service w)) entry] else [])
    /\ prompts (service w') = prompts (service w)
    /\ targetGroupId (service w') = targetGroupId (service w)
    /\ logger w' = logger w ++ logs
    /\ filter invalid_entry_warning logs
       = if decide (well_formed entry) then []
         else [mkLog WARN "Invalid channel config entry"].
Proof.
  unfold configure_entry.
  destruct (entry_accepted entry) eqn:Ea; cbn [negb].
  - rewrite !decide_True by by apply entry_accepted_well_formed.
    cbn.
    destruct (negb _ && negb _); cbn.
    + eexists _, [_; _]. split_and!; try done.
      * cbn. by rewrite <- app_assoc.
      * reflexivity.
    + eexists _, [_]. split_and!; try done; reflexivity.
  - rewrite !decide_False
      by (rewrite <- entry_accepted_well_formed; congruence).
    cbn. eexists _, [_]. rewrite app_nil_r. split_and!; try done; reflexivity.
Qed.

Lemma configure_entries (entries : list string) :
  forall w h,
  exists w' logs,
    complete gw (for_of entries configure_entry) w h = (Resolved tt, w', h)
    /\ channels (service w')
       = channels (service w)
         ++ (entry_config (prompts (service w)) <$> filter well_formed entries)
    /\ prompts (service w') = prompts (service w)
    /\ targetGroupId (service w') = targetGroupId (service w)
    /\ logger w' = logger w ++ logs
    /\ length (filter invalid_entry_warning logs)
       = length (filter (fun e => ¬ well_formed e) entries).
Proof.
  induction entries as [|entry entries IH]; intros w h.
  - exists w, []. cbn. rewrite !app_nil_r. done.
  - cbn [for_of foldr]. rewrite complete_bind.
    destruct (configure_entry_run entry w h)
      as (w1 & logs1 & -> & Hc1 & Hp1 & Ht1 & Hl1 & Hw1).
    destruct (IH w1 h) as (w2 & logs2 & Hrun & Hc2 & Hp2 & Ht2 & Hl2 & Hw2).
    unfold for_of in Hrun. rewrite Hrun.
    exists w2, (logs1 ++ logs2). split; [done|].
    rewrite Hc2, Hc1, Hp2, Hp1, Ht2, Ht1, Hl2, Hl1, !filter_cons, filter_app,
      length_app, Hw1, Hw2.
    destruct (decide (well_formed entry)).
    + rewrite decide_False by tauto. cbn. rewrite <- !app_assoc. done.
    + rewrite decide_True by tauto. cbn. rewrite !app_nil_r, <- !app_assoc. done.
Qed.

(** C7, amended.  With a multi-channel specification present, the
    constructor's parsing aborts exactly in two cases: with the error
    about the target group when [TARGET_GROUP_ID] is absent or empty, and
    with the error about no valid channel when no entry has its first
    three fields non-empty.  Otherwise it returns, the configured channels
    are the ones built from the entries whose first three fields are
    non-empty as written, in order, and each other entry is skipped with
    one warning.  Nothing else is checked of an entry. *)
Theorem C7_channel_configuration (env : Env) (config : string)
  (w : World) (h : list Exchange) :
  CHANNELS_CONFIG env = Some config ->
  truthy_string config = true ->
  channels (service w) = [] ->
  let entries := split ","%char config in
  let accepted := filter well_formed entries in
  exists w' logs,
    complete gw (parseChannelConfiguration env) w h
    = (if negb (truthy_opt truthy_string (TARGET_GROUP_ID env))
       then Rejected "TARGET_GROUP_ID is required when using CHANNELS_CONFIG"
       else match accepted with
            | [] => Rejected "No valid channels configured in CHANNELS_CONFIG"
            | _ :: _ => Resolved tt
            end,
       w', h)
    /\ logger w' = logger w ++ logs
    /\ (truthy_opt truthy_string (TARGET_GROUP_ID env) = true ->
        channels (service w')
        = entry_config (prompts (service w)) <$> accepted
        /\ length (filter invalid_entry_warning logs)
           = length (filter (fun e => ¬ well_formed e) entries)).
Proof.
  intros Hcfg Ht Hch entries accepted. subst entries accepted.
  unfold parseChannelConfiguration. rewrite Hcfg.
  cbn [truthy_opt default]. rewrite Ht.
  destruct (truthy_opt truthy_string (TARGET_GROUP_ID env)) eqn:Etg; cbn [negb].
  - cbn. rewrite complete_bind.
    match goal with
    | |- context [complete gw (foldr _ _ ?es) ?w1 ?h1] =>
        destruct (configure_entries es w1 h1)
          as (w2 & logs & Hrun & Hc & Hp & Htgt & Hl & Hw)
    end.
    unfold for_of in Hrun. rewrite Hrun.
    cbn in Hc, Hp, Hl. rewrite Hch in Hc. cbn in Hc.
    cbn. rewrite Hc.
    exists w2, (mkLog LOG "Using multi-channel configuration mode" :: logs).
    split.
    + destruct (filter well_formed (split "," config)); reflexivity.
    + split; [by rewrite Hl, <- app_assoc|].
      intros _. split; [done|].
      rewrite <- Hw. rewrite filter_cons. by rewrite decide_False.
  - cbn. eexists _, [_]. split; [reflexivity|]. split; [done|]. done.
Qed.

(** C8, amended.  Loading the prompt file never fails: a missing,
    unreadable or malformed file leaves the default-only catalog.
    Configuring a channel never fails either, whatever its prompt key.
    The instruction the route resolves is what the catalog object answers
    under the trimmed key: the catalog's text when it has an entry of
    that name; nothing when it has none and the key names no member that
    objects inherit; and the inherited member, which is not a text, when
    it has none and the key names one ("toString", "constructor", ...).
    The catalog's "default" entry is not consulted. *)
Theorem C8_prompt_lookup :
  (forall file w h,
      exists w',
        complete gw (loadPrompts file) w h = (Resolved tt, w', h)
        /\ prompts (service w')
           = match file with
             | FileContent data =>
                 match JSON_parse data with
                 | Resolved parsed => parsed
                 | Rejected _ => {[ "default" := "" ]}
                 end
             | _ => {[ "default" := "" ]}
             end)
  /\ (forall entry w h,
        well_formed entry ->
        exists w' cfg,
          complete gw (configure_entry entry) w h = (Resolved tt, w', h)
          /\ channels (service w') = channels (service w) ++ [cfg]
          /\ match prompts (service w) !! promptKey cfg with
             | Some text => prompt cfg = Some (Text text)
             | None =>
                 prompt cfg
                 = if inherited (promptKey cfg)
                   then Some (Inherited (promptKey cfg))
                   else None
             end).
Proof.
  split.
  - intros [|e|data] w h; unfold loadPrompts; cbn; try (eexists; split; reflexivity).
    destruct (JSON_parse data); cbn; eexists; split; reflexivity.
  - intros entry w h Hwf.
    destruct (configure_entry_run entry w h)
      as (w' & logs & Hrun & Hc & _).
    rewrite decide_True in Hc by done.
    exists w', (entry_config (prompts (service w)) entry).
    split; [done|]. split; [done|]. unfold entry_config, property.
    destruct (entry_fields entry) as [[? ?] ?]. cbn.
    by destruct (_ !! _).
Qed.
End StartupProperties.

(** C7, as stated, fails: entries that are not well-formed triples are
    accepted.  An identifier that is not a number becomes [NaN], a field
    of blanks passes the emptiness test and is trimmed afterwards, and a
    fourth field is ignored; none of the three entries is logged as
    invalid. *)
Lemma C7_counterexample :
  let run := complete obliging
               (@parseChannelConfiguration (sample_builtins (Rejected "no file"))
                  (mkEnv (Some "abc:5:news, :7:x,1:2:k:extra") (Some "-1001")
                         None None))
               (world_of sample_service) [] in
  run.1.1 = Resolved tt
  /\ channels (service run.1.2)
     = [mkChannelConfig NaN (Num 5) "news" None;
        mkChannelConfig NaN (Num 7) "x" None;
        mkChannelConfig (Num 1) (Num 2) "k" None]
  /\ filter invalid_entry_warning (logger run.1.2) = [].
Proof. vm_compute. repeat split. Qed.

Lemma C7_witness :
  exists w' logs,
    complete obliging
      (@parseChannelConfiguration (sample_builtins (Rejected "no file"))
         (mkEnv (Some "100:5:news,oops,7::x") (Some "-1001") None None))
      (world_of sample_service) []
    = (Resolved tt, w', [])
    /\ logger w' = [] ++ logs
    /\ (true = true ->
        channels (service w')
        = [mkChannelConfig (Num 100) (Num 5) "news" None]
        /\ length (filter invalid_entry_warning logs) = 2%nat).
Proof.
  apply (@C7_channel_configuration (sample_builtins (Rejected "no file"))
           obliging
           (mkEnv (Some "100:5:news,oops,7::x") (Some "-1001") None None)
           "100:5:news,oops,7::x" (world_of sample_service) []);
    reflexivity.
Defined.

Lemma C8_witness :
  exists w' cfg,
    complete obliging
      (@configure_entry (sample_builtins (Rejected "no file")) "100:5:news")
      (world_of sample_service) []
    = (Resolved tt, w', [])
    /\ channels (service w') = [] ++ [cfg]
    /\ match (∅ : gmap string string) !! promptKey cfg with
       | Some text => prompt cfg = Some (Text text)
       | None =>
           prompt cfg
           = if inherited (promptKey cfg)
             then Some (Inherited (promptKey cfg))
             else None
       end.
Proof.
  apply (proj2 (@C8_prompt_lookup (sample_builtins (Rejected "no file"))
                  obliging) "100:5:news" (world_of sample_service) []).
  repeat split; discriminate.
Defined.

(** C8, as stated, fails: with a catalog whose "default" entry is
    "polite tone", the route of the unknown key "foo" resolves no
    instruction at all, where the lookup of the specification gives
    "polite tone". *)
Lemma C8_counterexample :
  let catalog : gmap string string := {[ "default" := "polite tone" ]} in
  let env := mkEnv (Some "1:2:foo") (Some "-1001") None None in
  let run := complete obliging
               (@constructor (sample_builtins (Resolved catalog))
                  (FileContent "{...}") env)
               (world_of sample_service) [] in
  run.1.1 = Resolved tt
  /\ prompts (service run.1.2) = catalog
  /\ channels (service run.1.2)
     = [mkChannelConfig (Num 1) (Num 2) "foo" None]
  /\ lookup_spec catalog "foo" = "polite tone".
Proof. vm_compute. repeat split. Qed.

(** A prompt key that names a member of [Object.prototype] and is not in
    the catalog resolves that member: the prompt is truthy, so no warning
    is logged, and it is not a text. *)
Example inherited_member_as_prompt :
  let catalog : gmap string string := {[ "default" := "polite tone" ]} in
  let env := mkEnv (Some "1:2:toString,3:4:foo") (Some "-1001") None None in
  let run := complete obliging
               (@constructor (sample_builtins (Resolved catalog))
                  (FileContent "{...}") env)
               (world_of sample_service) [] in
  run.1.1 = Resolved tt
  /\ channels (service run.1.2)
     = [mkChannelConfig (Num 1) (Num 2) "toString"
          (Some (Inherited "toString"));
        mkChannelConfig (Num 3) (Num 4) "foo" None]
  /\ length (filter (fun line => level line = WARN) (logger run.1.2))
     = 1%nat.
Proof. vm_compute. repeat split. Qed.

(** The route of the specification's example, as the constructor builds
    it. *)
Example spec_route :
  let catalog : gmap string string := {[ "news" := "formal tone" ]} in
  let env := mkEnv (Some "100:5:news") (Some "-1001") None None in
  let run := complete obliging
               (@constructor (sample_builtins (Resolved catalog))
                  (FileContent "{...}") env)
               (world_of sample_service) [] in
  run.1.1 = Resolved tt /\ routes (service run.1.2) = [Topic news]
  /\ targetGroupId (service run.1.2) = Num (-1001).
Proof. vm_compute. repeat split. Qed.

(** ** Module initialisation *)

Ltac boot :=
  cbn -[handleNewMessageMulti handleEditedMessageMulti handleNewMessage
        handleEditedMessage onNewMessage onEditedMessage setup_for].

Lemma registrations_frame (calls extra : list SetupCall) :
  Forall (fun c => is_registration c = false) extra ->
  filter (fun c => is_registration c = true) (calls ++ extra)
  = filter (fun c => is_registration c = true) calls.
Proof.
  intros Hex. rewrite filter_app.
  replace (filter _ extra) with (@nil SetupCall); [by rewrite app_nil_r|].
  symmetry. induction Hex as [|c extra Hc _ IH]; [done|].
  rewrite filter_cons, decide_False by congruence. done.
Qed.

Lemma multi_registration (cs : list ChannelConfig) (b : Boot) :
  exists logs,
    setup_for cs watch_channel b
    = (Resolved tt,
       mkBoot (boot_service b)
              (boot_calls b
                 ++ flat_map (fun cfg =>
                      [AddNewMessageHandler (sourceId cfg)
                                            (onNewMessage (Topic cfg));
                       AddEditedMessageHandler (sourceId cfg)
                                               (onEditedMessage (Topic cfg))])
                      cs)
              (boot_logger b ++ logs)).
Proof.
  revert b. induction cs as [|cfg cs IH]; intros b.
  - exists []. cbn. rewrite !app_nil_r. by destruct b.
  - change (setup_for (cfg :: cs) watch_channel)
      with (setup_bind (watch_channel cfg)
              (fun _ => setup_for cs watch_channel)).
    unfold watch_channel at 1. unfold setup_bind, setup_call, setup_log.
    cbn -[handleNewMessageMulti handleEditedMessageMulti setup_for
          watch_channel].
    match goal with
    | |- context [setup_for cs watch_channel ?b1] =>
        destruct (IH b1) as [logs ->]
    end.
    boot. eexists (_ :: logs). rewrite <- !app_assoc. reflexivity.
Qed.


(** X1.  Module initialisation ends in one of two ways. When it returns,
    the calls made are the wait, then the lookups, then both handlers of
    every route of the service, in order, each pair under its route's
    source; when it fails nothing was registered (and the target channel id
    is as it was). *)
Theorem module_init_registers_routes (tg : TelegramSetup) (env : Locators)
  (b : Boot) :
  let run := onModuleInit tg env b in
  match run.1 with
  | Resolved _ =>
      exists lookups,
        boot_calls run.2
        = boot_calls b ++ WaitForReady :: lookups
            ++ subscriptions (boot_service run.2)
        /\ Forall (fun c => is_lookup c = true) lookups
  | Rejected _ =>
      filter (fun c => is_registration c = true) (boot_calls run.2)
      = filter (fun c => is_registration c = true) (boot_calls b)
      /\ targetChannelId (boot_service run.2)
         = targetChannelId (boot_service b)
  end.
Proof.
  destruct b as [s calls logs].
  unfold onModuleInit, resolveChannelIds, startWatchingLegacy,
    startWatchingMultiChannel, waitForReady, getEntity, setup_try,
    property_id, setup_modify.
  unfold setup_bind at 1. boot.
  destruct (ready tg) as [[]|err]; boot.
  2:{ split; [|done]. apply registrations_frame. by repeat constructor. }
  unfold setup_bind at 1. boot.
  destruct (useLegacyMode s) eqn:Eleg.
  - unfold setup_bind, setup_log, setup_call, setup_this, setup_ret,
      setup_throw.
    destruct (useDirectIds s) eqn:Edir; boot.
    + exists []. unfold subscriptions, routes. boot. rewrite Eleg. boot.
      by rewrite <- !app_assoc.
    + destruct (negb _ || negb _) eqn:Eurl; boot.
      { split; [|done]. apply registrations_frame. by repeat constructor. }
      destruct (entity tg _ _) as [e1|err]; boot.
      2:{ split; [|done]. rewrite <- ?app_assoc. apply registrations_frame.
          by repeat constructor. }
      destruct (entity tg _ _) as [e2|err]; boot.
      2:{ split; [|done]. rewrite <- ?app_assoc. apply registrations_frame.
          by repeat constructor. }
      destruct e1 as [e1|]; boot.
      2:{ split; [|done]. rewrite <- ?app_assoc. apply registrations_frame.
          by repeat constructor. }
      destruct e2 as [e2|]; boot.
      2:{ split; [|done]. rewrite <- ?app_assoc. apply registrations_frame.
          by repeat constructor. }
      eexists [_; _]. unfold subscriptions, routes. boot. rewrite Eleg. boot.
      rewrite <- !app_assoc. split; [reflexivity|]. by repeat constructor.
  - unfold setup_bind, setup_log, setup_this. boot.
    match goal with
    | |- context [setup_for _ watch_channel ?b] =>
        destruct (multi_registration (channels s) b) as [logs1 ->]
    end.
    boot. exists []. unfold subscriptions, routes. rewrite Eleg. boot.
    rewrite <- !app_assoc. boot. split; [|done].
    do 2 f_equal.
    by rewrite !flat_map_concat_map, <- list_fmap_compose.
Qed.

(** X2.  In the multi-channel mode, and in the legacy mode with direct ids,
    module initialisation looks nothing up, whatever the locators are: once
    the gateway is ready it registers the routes of the service as the
    constructor left it. *)
Theorem no_lookup_with_configured_ids (tg : TelegramSetup) (env : Locators)
  (b : Boot) :
  useLegacyMode (boot_service b) = false
  \/ useDirectIds (boot_service b) = true ->
  ready tg = Resolved tt ->
  exists logs,
    onModuleInit tg env b
    = (Resolved tt,
       mkBoot (boot_service b)
              (boot_calls b ++ WaitForReady :: subscriptions (boot_service b))
              (boot_logger b ++ logs)).
Proof.
  destruct b as [s calls logs]. cbn [boot_service boot_calls boot_logger].
  intros Hmode Hready.
  unfold onModuleInit, startWatchingLegacy, startWatchingMultiChannel,
    waitForReady.
  unfold setup_bind at 1. rewrite Hready. boot.
  unfold setup_bind at 1. boot.
  destruct (useLegacyMode s) eqn:Eleg.
  - destruct Hmode as [|Hdir]; [done|]. rewrite Hdir.
    unfold setup_bind, setup_log, setup_call, setup_this, setup_ret. boot.
    unfold subscriptions, routes. rewrite Eleg. boot.
    eexists [_]. by rewrite <- !app_assoc.
  - unfold setup_bind, setup_log, setup_this. boot.
    match goal with
    | |- context [setup_for _ watch_channel ?b] =>
        destruct (multi_registration (channels s) b) as [logs1 ->]
    end.
    boot. eexists (_ :: logs1).
    unfold subscriptions, routes. rewrite Eleg. boot.
    rewrite <- !app_assoc. boot. do 3 f_equal.
    by rewrite !flat_map_concat_map, <- list_fmap_compose.
Qed.

(** X3.  In the legacy mode without direct ids both locators are needed: if
    one is absent or empty, module initialisation fails with the
    configuration error before any lookup, even of the locator that is
    present. *)
Theorem missing_locator_fails_before_lookup (tg : TelegramSetup)
  (env : Locators) (b : Boot) :
  useLegacyMode (boot_service b) = true ->
  useDirectIds (boot_service b) = false ->
  ready tg = Resolved tt ->
  truthy_opt truthy_string (SOURCE_CHANNEL_URL env) = false
  \/ truthy_opt truthy_string (TARGET_CHANNEL_URL env) = false ->
  onModuleInit tg env b
  = (Rejected "Missing channel configuration. Provide either SOURCE_CHANNEL_ID + TARGET_CHANNEL_ID or SOURCE_CHANNEL_URL + TARGET_CHANNEL_URL in .env",
     mkBoot (boot_service b) (boot_calls b ++ [WaitForReady])
            (boot_logger b)).
Proof.
  destruct b as [s calls logs]. cbn [boot_service boot_calls boot_logger].
  intros Hleg Hdir Hready Hurl.
  unfold onModuleInit, resolveChannelIds, waitForReady.
  unfold setup_bind at 1. rewrite Hready. boot.
  unfold setup_bind at 1. boot. rewrite Hleg, Hdir. boot.
  unfold setup_bind at 1.
  assert (negb (truthy_opt truthy_string (SOURCE_CHANNEL_URL env))
          || negb (truthy_opt truthy_string (TARGET_CHANNEL_URL env)) = true)
    as ->; [|done].
  destruct Hurl as [-> | ->]; [done|]. apply orb_true_r.
Qed.

(** X4.  The two ids are assigned only after both lookups have answered. If
    the second lookup is rejected, the error is logged and passed on,
    nothing is registered, and the source id the first lookup gave has not
    been kept: the service is as it was. *)
Theorem failed_lookup_keeps_nothing (tg : TelegramSetup) (env : Locators)
  (b : Boot) (src tgt : string) (e1 : option Entity) (err : string) :
  useLegacyMode (boot_service b) = true ->
  useDirectIds (boot_service b) = false ->
  ready tg = Resolved tt ->
  SOURCE_CHANNEL_URL env = Some src -> truthy_string src = true ->
  TARGET_CHANNEL_URL env = Some tgt -> truthy_string tgt = true ->
  entity tg (boot_calls b ++ [WaitForReady]) src = Resolved e1 ->
  entity tg (boot_calls b ++ [WaitForReady; GetEntity src]) tgt
  = Rejected err ->
  onModuleInit tg env b
  = (Rejected err,
     mkBoot (boot_service b)
            (boot_calls b ++ [WaitForReady; GetEntity src; GetEntity tgt])
            (boot_logger b
               ++ [mkLog LOG "Resolving Telegram channel IDs from URLs...";
                   mkLog ERROR "Failed to resolve channel IDs"])).
Proof.
  destruct b as [s calls logs]. cbn [boot_service boot_calls boot_logger].
  intros Hleg Hdir Hready Hs Hst Ht Htt H1 H2.
  unfold onModuleInit, resolveChannelIds, waitForReady, getEntity, setup_try.
  unfold setup_bind at 1. rewrite Hready. boot.
  unfold setup_bind at 1. boot. rewrite Hleg, Hdir. boot.
  rewrite Hs, Ht. boot. rewrite Hst, Htt. boot.
  unfold setup_bind, setup_log, setup_throw. boot.
  rewrite H1. boot. rewrite <- app_assoc. boot. rewrite H2. boot.
  by rewrite <- !app_assoc.
Qed.

Lemma no_lookup_with_configured_ids_witness :
  exists logs,
    onModuleInit reachable (mkLocators None None)
                 (booting (push_channel news sample_service))
    = (Resolved tt,
       mkBoot (push_channel news sample_service)
              ([] ++ WaitForReady
                  :: subscriptions (push_channel news sample_service))
              ([] ++ logs)).
Proof.
  apply (no_lookup_with_configured_ids reachable (mkLocators None None)
           (booting (push_channel news sample_service)));
    [by left | reflexivity].
Defined.

Lemma missing_locator_fails_before_lookup_witness :
  onModuleInit reachable (mkLocators (Some "https://t.me/source") None)
               (booting unresolved_service)
  = (Rejected "Missing channel configuration. Provide either SOURCE_CHANNEL_ID + TARGET_CHANNEL_ID or SOURCE_CHANNEL_URL + TARGET_CHANNEL_URL in .env",
     mkBoot unresolved_service ([] ++ [WaitForReady]) []).
Proof.
  apply (missing_locator_fails_before_lookup reachable
           (mkLocators (Some "https://t.me/source") None)
           (booting unresolved_service));
    [reflexivity | reflexivity | reflexivity | by right].
Defined.

Lemma failed_lookup_keeps_nothing_witness :
  onModuleInit reachable
    (mkLocators (Some "https://t.me/source") (Some "https://t.me/target"))
    (booting unresolved_service)
  = (Rejected "Cannot find any entity",
     mkBoot unresolved_service
            ([] ++ [WaitForReady; GetEntity "https://t.me/source";
                    GetEntity "https://t.me/target"])
            ([] ++ [mkLog LOG "Resolving Telegram channel IDs from URLs...";
                    mkLog ERROR "Failed to resolve channel IDs"])).
Proof.
  apply (failed_lookup_keeps_nothing reachable
           (mkLocators (Some "https://t.me/source")
                       (Some "https://t.me/target"))
           (booting unresolved_service) "https://t.me/source"
           "https://t.me/target" (Some (mkEntity (Some (BigInteger 100))))
           "Cannot find any entity"); reflexivity.
Defined.

(** The legacy start-up of the samples: both locators resolve, and the
    handlers are registered under the id the source lookup gave. *)
Example legacy_start_up :
  let tg := mkTelegramSetup (Resolved tt)
              (fun _ url =>
                 Resolved (Some (mkEntity (Some (BigInteger
                   (if String.eqb url "https://t.me/source"
                    then 100 else 200)))))) 
  in
  let run := onModuleInit tg
               (mkLocators (Some "https://t.me/source")
                           (Some "https://t.me/target"))
               (booting unresolved_service) in
  run.1 = Resolved tt
  /\ boot_calls run.2
     = [WaitForReady; GetEntity "https://t.me/source";
        GetEntity "https://t.me/target";
        AddNewMessageHandler (Num 100) handleNewMessage;
        AddEditedMessageHandler (Num 100) handleEditedMessage]
  /\ targetChannelId (boot_service run.2) = Num 200.
Proof. repeat split. Qed.

(** When the target lookup resolves with no object, the failure comes
    after the source id was assigned: start-up fails with nothing
    registered, but the source id has changed. *)
Example target_without_object :
  let tg := mkTelegramSetup (Resolved tt)
              (fun _ url =>
                 Resolved (if String.eqb url "https://t.me/source"
                           then Some (mkEntity (Some (BigInteger 100)))
                           else None)) in
  let run := onModuleInit tg
               (mkLocators (Some "https://t.me/source")
                           (Some "https://t.me/target"))
               (booting unresolved_service) in
  run.1 = Rejected "TypeError: Cannot read properties of undefined"
  /\ boot_calls run.2
     = [WaitForReady; GetEntity "https://t.me/source";
        GetEntity "https://t.me/target"]
  /\ sourceChannelId (boot_service run.2) = Num 100
  /\ targetChannelId (boot_service run.2) = NaN.
Proof. repeat split. Qed.

(** ** Invariants of the event loop *)

Section LoopInvariant.
Variable Inv : World -> list Exchange -> Prop.
Hypothesis HInv : invariant Inv.
Variable gw : Gateway.

Lemma start_holds (m : Async unit) (l : Loop) :
  keeps Inv m (world l) (history l) -> holds Inv l -> holds Inv (start m l).
Proof.
  revert l.
  induction m as [a|e|k IH|w0 k IH|T c k IH]; intros l Hm Hl; cbn in *.
  - done.
  - done.
  - by apply IH.
  - destruct Hm as [Hput Hk]. destruct Hl as [Hw Hp].
    apply (IH (mkLoop w0 (pending l) (history l))); [done|].
    split; cbn; [by apply Hput|done].
  - destruct Hl as [Hw Hp]. split; cbn; [done|].
    apply Forall_app. split; [done|]. repeat constructor.
    intros w h. cbn. apply Hm.
Qed.

Lemma step_holds (l : Loop) (ev : Event) :
  holds Inv l -> holds Inv (step gw l ev).
Proof.
  destruct HInv as (Hmono & Hclock & Hnew & Hedit & Hcb).
  intros Hl. destruct ev as [t|cfg msg|cfg msg|msg|msg|i]; cbn [step].
  - unfold tick.
    set (fired := filter _ _). set (l1 := mkLoop _ _ _).
    assert (H1 : holds Inv l1).
    { destruct Hl as [Hw Hp]. split; cbn; [by apply Hclock|done]. }
    clearbody l1 fired. revert l1 H1.
    induction fired as [|tm fired IH]; intros l1 H1; [exact H1|].
    cbn. apply IH. apply start_holds; [apply Hcb|done].
  - apply start_holds; [apply (Hnew (Topic cfg))|done].
  - apply start_holds; [apply (Hedit (Topic cfg))|done].
  - apply start_holds; [apply (Hnew LegacyChannel)|done].
  - apply start_holds; [apply (Hedit LegacyChannel)|done].
  - unfold respond.
    destruct (pending l !! i) as [[a|e|k|w0 k|T c k]|] eqn:Ei; try done.
    destruct Hl as [Hw Hp].
    pose proof (Forall_lookup_1 _ _ _ _ Hp Ei) as Hk. cbn in Hk.
    apply start_holds; cbn.
    + apply (Hk (world l) (history l)).
    + split; cbn; [by apply Hmono|].
      rewrite delete_take_drop. apply Forall_app.
      split; [by apply Forall_take|by apply Forall_drop].
Qed.

Lemma run_holds (evs : list Event) (l : Loop) :
  holds Inv l -> holds Inv (run gw evs l).
Proof.
  revert l. induction evs as [|ev evs IH]; intros l Hl; [done|].
  cbn. apply IH. by apply step_holds.
Qed.
End LoopInvariant.

Ltac keep tac :=
  repeat (cbn;
          match goal with
          | |- True => exact Logic.I
          | |- (_ -> _) /\ _ => split; [solve [tac]|]
          | |- forall r : Outcome _, _ => intros [?|?] ? ?
          | |- context [match ?x with _ => _ end] => destruct x eqn:?
          | |- context [if ?x then _ else _] => destruct x eqn:?
          end).

Lemma insert_ok k v m :
  truthy_Z v = true -> store_ok m -> store_ok (<[k:=v]> m).
Proof.
  intros Hv Hm k' v'. rewrite lookup_insert. case_decide; [|apply Hm].
  intros [= <-]. by apply truthy_Z_true.
Qed.

Ltac handlers :=
  unfold onNewMessage, onEditedMessage, run_callback, handleNewMessageMulti,
    handleNewMessage, handleEditedMessageMulti, handleEditedMessage, collect,
    processSingleMessageMulti, processSingleMessage,
    processGroupedMessagesMulti, processGroupedMessages, array_elements,
    read_groupData, resolve_reply, store_mapping.

Lemma never_zero_invariant : invariant never_zero.
Proof.
  unfold invariant, never_zero, store. split_and!; try done.
  - intros r msg w h. destruct msg as [i txt md g rp].
    destruct r as [cfg|]; handlers;
      keep ltac:(first [done | cbn; intros; by apply insert_ok]).
  - intros r msg w h. destruct msg as [i txt md g rp].
    destruct r as [cfg|]; handlers; keep ltac:(done).
  - intros cb w h. destruct cb as [g l cfg|g l]; handlers; keep ltac:(done).
Qed.

Lemma configured_as_invariant s0 : invariant (configured_as s0).
Proof.
  unfold invariant, configured_as, configuration. split_and!; try done.
  - intros r msg w h. destruct msg as [i txt md g rp].
    destruct r as [cfg|]; handlers; keep ltac:(done).
  - intros r msg w h. destruct msg as [i txt md g rp].
    destruct r as [cfg|]; handlers; keep ltac:(done).
  - intros cb w h. destruct cb as [g l cfg|g l]; handlers; keep ltac:(done).
Qed.

Lemma retains_invariant m0 : invariant (retains m0).
Proof.
  unfold invariant, retains, store. split_and!; try done.
  - intros r msg w h. destruct msg as [i txt md g rp].
    destruct r as [cfg|]; handlers;
      keep ltac:(first [done
                       | cbn; intros Hk k Hm; rewrite lookup_insert;
                         case_decide; [done|by apply Hk]]).
  - intros r msg w h. destruct msg as [i txt md g rp].
    destruct r as [cfg|]; handlers; keep ltac:(done).
  - intros cb w h. destruct cb as [g l cfg|g l]; handlers; keep ltac:(done).
Qed.

Lemma sent_eta s : mkSent (sent_id s) = s.
Proof. by destruct s. Qed.

Lemma returned_ids_invariant m0 : invariant (returned_ids m0).
Proof.
  unfold invariant, returned_ids, store. split_and!; try done.
  - intros w h e Hk k v Hl.
    destruct (Hk k v Hl) as [?|(e' & He & Hp)]; [by left|].
    right. exists e'. split; [|done]. apply elem_of_app. by left.
  - intros r msg w h. destruct msg as [i txt md g rp].
    destruct r as [cfg|]; handlers;
      keep ltac:(first [done
                       | cbn; intros Hk k v'; rewrite lookup_insert;
                         case_decide;
                         [intros [= <-]; right; eexists; split;
                          [apply elem_of_app; right; apply elem_of_cons; by left
                          |cbn; by rewrite sent_eta]
                         |by apply Hk]]).
  - intros r msg w h. destruct msg as [i txt md g rp].
    destruct r as [cfg|]; handlers; keep ltac:(done).
  - intros cb w h. destruct cb as [g l cfg|g l]; handlers; keep ltac:(done).
Qed.

Lemma idle_holds Inv (l : Loop) :
  pending l = [] -> Inv (world l) (history l) -> holds Inv l.
Proof. intros Hp Hi. split; [done|]. rewrite Hp. constructor. Qed.

(** X5.  Under every schedule of arrivals, edits, clock advances and
    gateway answers, and whatever the gateways answer, the correlation
    store never comes to hold the id 0 (which the tests [if
    (targetMessageId)] would take for a missing entry). *)
Theorem store_never_holds_zero (gw : Gateway) (evs : list Event) (l : Loop) :
  pending l = [] ->
  store_ok (store (world l)) ->
  store_ok (store (world (run gw evs l))).
Proof.
  intros Hp Hok.
  apply (run_holds never_zero never_zero_invariant gw evs l).
  by apply idle_holds.
Qed.

Lemma store_never_holds_zero_witness :
  store_ok (store (world (run obliging
                            [NewMessageMulti news breaking; Response 0;
                             Response 0]
                            (idle sample_service)))).
Proof.
  apply (store_never_holds_zero obliging _ (idle sample_service)).
  - reflexivity.
  - intros k v. cbn. by rewrite lookup_empty.
Defined.

(** X6.  Under every schedule the configuration the constructor left is
    never written: the routes, the target group and the legacy channel ids
    stay what they were. *)
Theorem configuration_is_fixed (gw : Gateway) (evs : list Event) (l : Loop) :
  pending l = [] ->
  configuration (service (world (run gw evs l)))
  = configuration (service (world l))
  /\ routes (service (world (run gw evs l))) = routes (service (world l)).
Proof.
  intros Hp.
  assert (Hc : configuration (service (world (run gw evs l)))
               = configuration (service (world l))).
  { apply (run_holds (configured_as (service (world l)))
             (configured_as_invariant _) gw evs l).
    by apply idle_holds. }
  split; [done|]. unfold configuration in Hc. unfold routes.
  injection Hc as _ Hch _ _ _ _ Hleg. by rewrite Hch, Hleg.
Qed.

Lemma configuration_is_fixed_witness :
  let l := run obliging [NewMessageMulti news breaking; Response 0; Response 0]
               (idle sample_service) in
  configuration (service (world l)) = configuration sample_service
  /\ routes (service (world l)) = routes sample_service.
Proof.
  apply (configuration_is_fixed obliging _ (idle sample_service)).
  reflexivity.
Defined.

(** X7.  The store is never pruned: under every schedule, a source id that
    has an entry keeps one (the destination it maps to may be replaced when
    the same source id is posted again). *)
Theorem store_never_forgets (gw : Gateway) (evs : list Event) (l : Loop)
  (k : Z) :
  pending l = [] ->
  is_Some (store (world l) !! k) ->
  is_Some (store (world (run gw evs l)) !! k).
Proof.
  intros Hp Hk.
  apply (run_holds (retains (store (world l))) (retains_invariant _)
           gw evs l); [|done].
  apply idle_holds; [done|]. by intros k'.
Qed.

Lemma store_never_forgets_witness :
  is_Some (store (world (run obliging
                           [NewMessageMulti news reply_to_7; Response 0;
                            Response 0; EditedMessageMulti news breaking]
                           (idle linked_service))) !! 7).
Proof.
  apply (store_never_forgets obliging _ (idle linked_service) 7).
  - reflexivity.
  - by exists 501.
Defined.

(** X8.  Every destination id in the store was returned by the messaging
    gateway: under every schedule, an entry of the store is one that was
    there at the beginning, or its value is the id of a message that a send
    of the history resolved with. *)
Theorem store_holds_returned_ids (gw : Gateway) (evs : list Event)
  (l : Loop) (k v : Z) :
  pending l = [] ->
  store (world (run gw evs l)) !! k = Some v ->
  store (world l) !! k = Some v
  \/ exists e, e ∈ history (run gw evs l) /\ posted e = Some (mkSent v).
Proof.
  intros Hp.
  apply (run_holds (returned_ids (store (world l))) (returned_ids_invariant _)
           gw evs l).
  apply idle_holds; [done|]. intros k' v' Hl. by left.
Qed.

Lemma store_holds_returned_ids_witness :
  let l := run obliging [NewMessageMulti news breaking; Response 0; Response 0]
               (idle sample_service) in
  store (world (idle sample_service)) !! 7 = Some 501
  \/ exists e, e ∈ history l /\ posted e = Some (mkSent 501).
Proof.
  apply (store_holds_returned_ids obliging _ (idle sample_service) 7 501);
    reflexivity.
Defined.

(** ** The constructor *)

Lemma split_length (sep : Ascii.ascii) (s : string) :
  length (split sep s) = S (occurrences sep s).
Proof.
  induction s as [|c rest IH]; [done|]. cbn [split occurrences].
  destruct (Ascii.eqb c sep); cbn; [by rewrite IH|].
  destruct (split sep rest) as [|field fields]; [done|]. exact IH.
Qed.

Lemma filter_partition_length {A} (P : A -> Prop) `{!forall x, Decision (P x)}
  (xs : list A) :
  (length (filter P xs) + length (filter (fun x => ¬ P x) xs)
   = length xs)%nat.
Proof.
  induction xs as [|x xs IH]; [done|]. rewrite !filter_cons.
  destruct (decide (P x)).
  - rewrite decide_False by tauto. cbn. lia.
  - rewrite decide_True by tauto. cbn. lia.
Qed.

Section ConstructorProperties.
Context `{Builtins}.
Variable gw : Gateway.

Lemma configure_entries_frame (entries : list string) :
  forall w h,
  exists w',
    complete gw (for_of entries configure_entry) w h = (Resolved tt, w', h)
    /\ timers w' = timers w
    /\ useLegacyMode (service w') = useLegacyMode (service w).
Proof.
  induction entries as [|entry entries IH]; intros w h.
  - by exists w.
  - cbn [for_of foldr]. rewrite complete_bind.
    assert (Hone : exists w1,
               complete gw (configure_entry entry) w h = (Resolved tt, w1, h)
               /\ timers w1 = timers w
               /\ useLegacyMode (service w1) = useLegacyMode (service w)).
    { unfold configure_entry. destruct (negb (entry_accepted entry)); cbn.
      - eexists; split_and!; reflexivity.
      - destruct (negb _ && negb _); cbn; eexists; split_and!; reflexivity. }
    destruct Hone as (w1 & -> & <- & <-).
    destruct (IH w1 h) as (w2 & Hrun & Htm & Hleg). unfold for_of in Hrun.
    rewrite Hrun. by exists w2.
Qed.

(** X9.  No entry of the channel specification is lost silently: when the
    target group is given, the channels configured and the entries warned
    about as invalid add up to the number of entries, one more than the
    commas of the specification; this holds also when the parsing ends with
    the error about no valid channel. *)
Theorem every_entry_accounted_for (env : Env) (config : string) (w : World)
  (h : list Exchange) :
  CHANNELS_CONFIG env = Some config ->
  truthy_string config = true ->
  truthy_opt truthy_string (TARGET_GROUP_ID env) = true ->
  let w' := (complete gw (parseChannelConfiguration env) w h).1.2 in
  exists logs,
    logger w' = logger w ++ logs
    /\ (length (channels (service w'))
        + length (filter invalid_entry_warning logs)
        = length (channels (service w)) + S (occurrences ","%char config))%nat.
Proof.
  intros Hcfg Ht Htg. unfold parseChannelConfiguration.
  rewrite Hcfg. cbn [truthy_opt default]. rewrite Ht, Htg. cbn [negb].
  cbn. rewrite complete_bind.
  match goal with
  | |- context [complete gw (foldr _ _ ?es) ?w1 ?h1] =>
      destruct (configure_entries gw es w1 h1)
        as (w2 & logs & Hrun & Hc & Hp & Htgt & Hl & Hw)
  end.
  unfold for_of in Hrun. rewrite Hrun. cbn in Hc, Hl.
  exists (mkLog LOG "Using multi-channel configuration mode" :: logs).
  assert (Hcount : (length (channels (service w2))
                    + length (filter invalid_entry_warning
                                (mkLog LOG "Using multi-channel configuration mode"
                                   :: logs))
                    = length (channels (service w))
                      + S (occurrences ","%char config))%nat).
  { rewrite filter_cons, decide_False by done.
    rewrite Hc, Hw, length_app, length_fmap, <- split_length.
    rewrite <- (filter_partition_length well_formed (split "," config)).
    lia. }
  cbn. destruct (length (channels (service w2)) =? 0)%nat; cbn;
    (split; [by rewrite Hl, <- app_assoc | exact Hcount]).
Qed.

(** X10.  Without a channel specification (absent or empty) the constructor
    never fails, whatever else the environment holds, and the service has
    the one legacy route. The direct ids are taken exactly when both
    [SOURCE_CHANNEL_ID] and [TARGET_CHANNEL_ID] are non-empty; with only
    one of them given neither is used. The channels, the target group, the
    catalog and the store are left alone. *)
Theorem legacy_configuration (env : Env) (w : World) (h : list Exchange) :
  truthy_opt truthy_string (CHANNELS_CONFIG env) = false ->
  let direct := truthy_opt truthy_string (SOURCE_CHANNEL_ID env)
                && truthy_opt truthy_string (TARGET_CHANNEL_ID env) in
  exists w',
    complete gw (parseChannelConfiguration env) w h = (Resolved tt, w', h)
    /\ routes (service w') = [LegacyChannel]
    /\ useDirectIds (service w') = direct || useDirectIds (service w)
    /\ (sourceChannelId (service w'), targetChannelId (service w'))
       = (if direct
          then (parseInt (default "" (SOURCE_CHANNEL_ID env)),
                parseInt (default "" (TARGET_CHANNEL_ID env)))
          else (sourceChannelId (service w), targetChannelId (service w)))
    /\ channels (service w') = channels (service w)
    /\ targetGroupId (service w') = targetGroupId (service w)
    /\ prompts (service w') = prompts (service w)
    /\ store w' = store w.
Proof.
  intros Hcfg direct. subst direct. unfold parseChannelConfiguration.
  rewrite Hcfg.
  destruct (truthy_opt truthy_string (SOURCE_CHANNEL_ID env)
            && truthy_opt truthy_string (TARGET_CHANNEL_ID env)); cbn;
    eexists; split_and!; reflexivity.
Qed.

(** X11.  A service the constructor returns has a route to watch: in the
    multi-channel mode at least one channel was configured (otherwise the
    constructor throws), in the legacy mode there is the legacy channel.
    The constructor calls no gateway and arms no timer. *)
Theorem constructed_service_has_a_route (file : PromptsFile) (env : Env)
  (w w' : World) (h h' : list Exchange) :
  complete gw (constructor file env) w h = (Resolved tt, w', h') ->
  routes (service w') ≠ [] /\ h' = h /\ timers w' = timers w.
Proof.
  unfold constructor. rewrite complete_bind.
  assert (Hload : exists w1,
             complete gw (loadPrompts file) w h = (Resolved tt, w1, h)
             /\ timers w1 = timers w).
  { destruct file as [|e|data]; unfold loadPrompts; cbn;
      try (eexists; split; reflexivity).
    destruct (JSON_parse data); cbn; eexists; split; reflexivity. }
  destruct Hload as (w1 & -> & <-). clear w.
  unfold parseChannelConfiguration.
  destruct (truthy_opt truthy_string (CHANNELS_CONFIG env)).
  - destruct (negb (truthy_opt truthy_string (TARGET_GROUP_ID env)));
      [cbn; intros [=]|].
    cbn. rewrite complete_bind.
    match goal with
    | |- context [complete gw (for_of ?es _) ?w1 ?h1] =>
        destruct (configure_entries_frame es w1 h1) as (w2 & Hrun & Htm & _)
    end.
    rewrite Hrun. cbn.
    destruct (channels (service w2)) as [|c cs] eqn:Ech; cbn; intros [= <- <-].
    split; [|done]. unfold routes. rewrite Ech. by destruct (useLegacyMode _).
  - destruct (truthy_opt truthy_string (SOURCE_CHANNEL_ID env)
              && truthy_opt truthy_string (TARGET_CHANNEL_ID env)); cbn;
      intros [= <- <-]; done.
Qed.

Lemma load_prompts_run (file : PromptsFile) (w : World) (h : list Exchange) :
  exists w1,
    complete gw (loadPrompts file) w h = (Resolved tt, w1, h)
    /\ channels (service w1) = channels (service w)
    /\ useLegacyMode (service w1) = useLegacyMode (service w)
    /\ prompts (service w1)
       = match file with
         | FileContent data =>
             match JSON_parse data with
             | Resolved parsed => parsed
             | Rejected _ => {[ "default" := "" ]}
             end
         | _ => {[ "default" := "" ]}
         end.
Proof.
  destruct file as [|e|data]; unfold loadPrompts; cbn;
    try (eexists; split_and!; reflexivity).
  destruct (JSON_parse data); cbn; eexists; split_and!; reflexivity.
Qed.

(** What parsing leaves, whether it returns or throws. *)
Lemma parse_channels (env : Env) (w : World) (h : list Exchange) :
  channels (service w) = [] ->
  let w' := (complete gw (parseChannelConfiguration env) w h).1.2 in
  prompts (service w') = prompts (service w)
  /\ exists entries,
       channels (service w') = entry_config (prompts (service w)) <$> entries
       /\ (useLegacyMode (service w') = false ->
           truthy_opt truthy_string (CHANNELS_CONFIG env) = true
           /\ ((complete gw (parseChannelConfiguration env) w h).1.1
               = Resolved tt ->
               entries
               = filter well_formed
                   (split ","%char (default "" (CHANNELS_CONFIG env))))).
Proof.
  intros Hch. unfold parseChannelConfiguration.
  destruct (truthy_opt truthy_string (CHANNELS_CONFIG env)).
  - destruct (negb (truthy_opt truthy_string (TARGET_GROUP_ID env))).
    + cbn. split; [done|]. exists []. rewrite Hch. split; [done|].
      intros _. split; [done|]. intros [=].
    + cbn. rewrite complete_bind.
      match goal with
      | |- context [complete gw (for_of ?es _) ?w1 ?h1] =>
          destruct (configure_entries gw es w1 h1)
            as (w2 & logs & Hrun & Hc & Hp & _)
      end.
      rewrite Hrun. cbn in Hc, Hp. rewrite Hch in Hc. cbn in Hc. cbn.
      destruct (length (channels (service w2)) =? 0)%nat; cbn;
        (split; [done|]); eexists; (split; [exact Hc|]); done.
  - destruct (truthy_opt truthy_string (SOURCE_CHANNEL_ID env)
              && truthy_opt truthy_string (TARGET_CHANNEL_ID env)); cbn;
      (split; [done|]); exists []; rewrite Hch; (split; [done|]);
      intros [=].
Qed.

(** What the default-only catalog answers. *)
Lemma property_degraded (key : string) :
  property {[ "default" := "" ]} key
  = if inherited key then Some (Inherited key)
    else if String.eqb key "default" then Some (Text "") else None.
Proof.
  unfold property. destruct (String.eqb_spec key "default") as [->|Hne].
  - by rewrite lookup_singleton_eq.
  - rewrite lookup_singleton_ne by done. by destruct (inherited key).
Qed.

Lemma entry_config_prompt (catalog : gmap string string) (entry : string) :
  prompt (entry_config catalog entry)
  = property catalog (promptKey (entry_config catalog entry)).
Proof.
  unfold entry_config. by destruct (entry_fields entry) as [[? ?] ?].
Qed.

(** X12.  With the prompt file missing, unreadable or malformed, the
    catalog is the default-only one and no channel has an instruction
    text.  For a channel whose prompt key names no member that objects
    inherit (the key "default" included) the resolved prompt is absent or
    the empty text, hence falsy, so the translation gateway falls back on
    its own instruction.  For a channel whose prompt key names such a
    member the resolved prompt is that member, which is not a text. *)
Theorem degraded_catalog_gives_no_text (file : PromptsFile)
  (env : Env) (w : World) (h : list Exchange) :
  (forall data, file = FileContent data ->
                exists e, JSON_parse data = Rejected e) ->
  channels (service w) = [] ->
  let w' := (complete gw (constructor file env) w h).1.2 in
  prompts (service w') = {[ "default" := "" ]}
  /\ Forall (fun cfg =>
               prompt cfg
               = if inherited (promptKey cfg)
                 then Some (Inherited (promptKey cfg))
                 else if String.eqb (promptKey cfg) "default"
                      then Some (Text "") else None)
            (channels (service w'))
  /\ Forall (fun r =>
               forall text, instruction r = Some (Text text) -> text = "")
            (routes (service w')).
Proof.
  intros Hfile Hch. unfold constructor. rewrite complete_bind.
  destruct (load_prompts_run file w h) as (w1 & -> & Hc1 & _ & Hp1).
  assert (Hcat : prompts (service w1) = {[ "default" := "" ]}).
  { rewrite Hp1. destruct file as [|e|data]; try done.
    destruct (Hfile data eq_refl) as [e ->]. done. }
  rewrite Hch in Hc1.
  destruct (parse_channels env w1 h Hc1) as (Hp & entries & Hc & _).
  cbn zeta in *. rewrite Hp, Hcat in *. split; [done|].
  assert (Hall : Forall (fun cfg =>
               prompt cfg
               = if inherited (promptKey cfg)
                 then Some (Inherited (promptKey cfg))
                 else if String.eqb (promptKey cfg) "default"
                      then Some (Text "") else None)
            (entry_config {[ "default" := "" ]} <$> entries)).
  { apply Forall_fmap, Forall_forall. intros entry _. unfold compose.
    rewrite entry_config_prompt. apply property_degraded. }
  rewrite Hc. split; [done|].
  unfold routes. destruct (useLegacyMode _); [by repeat constructor|].
  rewrite Hc. apply Forall_fmap.
  eapply Forall_impl; [exact Hall|].
  intros cfg Hcfg text. cbn. rewrite Hcfg.
  destruct (inherited _); [done|].
  destruct (String.eqb _ _); congruence.
Qed.

(** X13.  Start-up in the multi-channel mode, end to end: when the
    constructor returns and the gateway becomes ready, module
    initialisation registers one pair of handlers for every entry of the
    specification whose first three fields are non-empty, in the order of
    the specification, each pair closed over the channel built from its
    entry and registered under that channel's source; nothing is looked up
    and no other entry gets a handler. *)
Theorem startup_registers_accepted_entries (file : PromptsFile) (env : Env)
  (config : string) (tg : TelegramSetup) (locators : Locators) (w : World)
  (h : list Exchange) :
  CHANNELS_CONFIG env = Some config ->
  truthy_string config = true ->
  channels (service w) = [] ->
  useLegacyMode (service w) = false ->
  (complete gw (constructor file env) w h).1.1 = Resolved tt ->
  ready tg = Resolved tt ->
  let w' := (complete gw (constructor file env) w h).1.2 in
  boot_calls (onModuleInit tg locators
                (mkBoot (service w') [] (logger w'))).2
  = WaitForReady
      :: flat_map (fun entry =>
           let cfg := entry_config (prompts (service w')) entry in
           [AddNewMessageHandler (sourceId cfg)
              (fun msg => handleNewMessageMulti msg cfg);
            AddEditedMessageHandler (sourceId cfg)
              (fun msg => handleEditedMessageMulti msg cfg)])
          (filter well_formed (split ","%char config)).
Proof.
  intros Hcfg Ht Hch Hleg. unfold constructor. rewrite complete_bind.
  destruct (load_prompts_run file w h) as (w1 & -> & Hc1 & Hl1 & _).
  rewrite Hch in Hc1. rewrite Hleg in Hl1.
  destruct (parse_channels env w1 h Hc1) as (Hp & entries & Hc & Hm).
  assert (Hl2 : useLegacyMode
                  (service (complete gw (parseChannelConfiguration env) w1 h).1.2)
                = false).
  { clear Hm Hc Hp. unfold parseChannelConfiguration. rewrite Hcfg.
    cbn [truthy_opt default]. rewrite Ht.
    destruct (negb (truthy_opt truthy_string (TARGET_GROUP_ID env))); [done|].
    cbn. rewrite complete_bind.
    match goal with
    | |- context [complete gw (foldr _ _ ?es) ?w1 ?h1] =>
        destruct (configure_entries_frame es w1 h1) as (w2 & Hrun & _ & Hl)
    end.
    unfold for_of in Hrun. rewrite Hrun.
    cbn. cbn in Hl.
    destruct (length (channels (service w2)) =? 0)%nat; cbn; congruence. }
  cbn zeta in *. intros Hres Hready.
  destruct (Hm Hl2) as [_ He]. specialize (He Hres). subst entries.
  rewrite Hcfg in Hc. cbn [default] in Hc.
  set (w' := (complete gw (parseChannelConfiguration env) w1 h).1.2) in *.
  unfold onModuleInit, startWatchingMultiChannel, waitForReady.
  unfold setup_bind at 1. rewrite Hready. boot.
  unfold setup_bind at 1. boot. rewrite Hl2.
  unfold setup_bind, setup_log, setup_this. boot.
  match goal with
  | |- context [setup_for _ watch_channel ?b] =>
      destruct (multi_registration (channels (service w')) b) as [logs ->]
  end.
  boot. f_equal. rewrite Hc, Hp.
  by rewrite !flat_map_concat_map, <- list_fmap_compose.
Qed.
End ConstructorProperties.

Lemma every_entry_accounted_for_witness :
  let w' := (complete obliging
               (@parseChannelConfiguration (sample_builtins (Rejected "no file"))
                  (mkEnv (Some "100:5:news,oops,7::x") (Some "-1001")
                         None None))
               (world_of sample_service) []).1.2 in
  exists logs,
    logger w' = [] ++ logs
    /\ (length (channels (service w'))
        + length (filter invalid_entry_warning logs)
        = 0 + 3)%nat.
Proof.
  apply (@every_entry_accounted_for (sample_builtins (Rejected "no file"))
           obliging
           (mkEnv (Some "100:5:news,oops,7::x") (Some "-1001") None None)
           "100:5:news,oops,7::x" (world_of sample_service) []);
    reflexivity.
Defined.

Lemma legacy_configuration_witness :
  exists w',
    complete obliging
      (@parseChannelConfiguration (sample_builtins (Rejected "no file"))
         (mkEnv (Some "") (Some "-1001") (Some "100") None))
      (world_of sample_service) []
    = (Resolved tt, w', [])
    /\ routes (service w') = [LegacyChannel]
    /\ useDirectIds (service w') = false
    /\ (sourceChannelId (service w'), targetChannelId (service w'))
       = (Num 100, Num 200)
    /\ channels (service w') = []
    /\ targetGroupId (service w') = Num (-1001)
    /\ prompts (service w') = ∅
    /\ store w' = ∅.
Proof.
  apply (@legacy_configuration (sample_builtins (Rejected "no file"))
           obliging (mkEnv (Some "") (Some "-1001") (Some "100") None)
           (world_of sample_service) []).
  reflexivity.
Defined.

Lemma constructed_service_has_a_route_witness :
  routes (service
            (complete obliging
               (@constructor (sample_builtins (Rejected "no file")) NoFile
                  (mkEnv (Some "100:5:news") (Some "-1001") None None))
               (world_of sample_service) []).1.2) ≠ []
  /\ @nil Exchange = []
  /\ timers
       (complete obliging
          (@constructor (sample_builtins (Rejected "no file")) NoFile
             (mkEnv (Some "100:5:news") (Some "-1001") None None))
          (world_of sample_service) []).1.2
     = timers (world_of sample_service).
Proof.
  apply (@constructed_service_has_a_route (sample_builtins (Rejected "no file"))
           obliging NoFile
           (mkEnv (Some "100:5:news") (Some "-1001") None None)
           (world_of sample_service) _ [] []).
  reflexivity.
Defined.

Lemma degraded_catalog_gives_no_text_witness :
  let w' := (complete obliging
               (@constructor (sample_builtins (Rejected "no file")) NoFile
                  (mkEnv (Some "100:5:news,7:8:default,9:10:valueOf")
                         (Some "-1001") None None))
               (world_of sample_service) []).1.2 in
  prompts (service w') = {[ "default" := "" ]}
  /\ Forall (fun cfg =>
               prompt cfg
               = if inherited (promptKey cfg)
                 then Some (Inherited (promptKey cfg))
                 else if String.eqb (promptKey cfg) "default"
                      then Some (Text "") else None)
            (channels (service w'))
  /\ Forall (fun r =>
               forall text, instruction r = Some (Text text) -> text = "")
            (routes (service w')).
Proof.
  apply (@degraded_catalog_gives_no_text
           (sample_builtins (Rejected "no file")) obliging NoFile
           (mkEnv (Some "100:5:news,7:8:default,9:10:valueOf")
                  (Some "-1001") None None)
           (world_of sample_service) []);
    [discriminate | reflexivity].
Defined.

Lemma startup_registers_accepted_entries_witness :
  let w' := (complete obliging
               (@constructor (sample_builtins (Rejected "no file")) NoFile
                  (mkEnv (Some "100:5:news,oops") (Some "-1001") None None))
               (world_of sample_service) []).1.2 in
  boot_calls (onModuleInit reachable (mkLocators None None)
                (mkBoot (service w') [] (logger w'))).2
  = WaitForReady
      :: flat_map (fun entry =>
           let cfg := @entry_config (sample_builtins (Rejected "no file"))
                        (prompts (service w')) entry in
           [AddNewMessageHandler (sourceId cfg)
              (fun msg => handleNewMessageMulti msg cfg);
            AddEditedMessageHandler (sourceId cfg)
              (fun msg => handleEditedMessageMulti msg cfg)])
          (filter well_formed (split ","%char "100:5:news,oops")).
Proof.
  apply (@startup_registers_accepted_entries
           (sample_builtins (Rejected "no file")) obliging NoFile
           (mkEnv (Some "100:5:news,oops") (Some "-1001") None None)
           "100:5:news,oops" reachable (mkLocators None None)
           (world_of sample_service) []); reflexivity.
Defined.

(** ** The single-message path and its round trips *)

(** The run of the single-message path proper, for every gateway
    behaviour. *)
Lemma single_run (gw : Gateway) (r : Route) (msg : Message)
  (w : World) (h : list Exchange) (t : string) :
  is_Some (media msg) \/ message msg ≠ "" ->
  translation gw h (message msg) (instruction r) = Resolved t ->
  let h1 := h ++ translated (message msg) (instruction r) t in
  let send := send_call r (service w) t msg (reply_target (store w) msg) in
  let first := gw _ h1 send in
  let again := is_rejected first && retried r msg in
  let retry := gw _ (h1 ++ [Exch send first]) send in
  exists w',
    complete gw (match r with
                 | Topic cfg => processSingleMessageMulti msg cfg
                 | LegacyChannel => processSingleMessage msg
                 end) w h
    = (Resolved tt, w',
       h1 ++ Exch send first :: (if again then [Exch send retry] else []))
    /\ store w'
       = recorded (id msg) (sent_message (if again then retry else first))
                  (store w).
Proof.
  intros Hc Ht.
  unfold store, translation, translated, reply_target in *.
  destruct msg as [i txt md g rp]; cbn in *.
  assert (Hc' : md = None -> truthy_string txt = true).
  { intros ->. destruct Hc as [[? ?]|Hc]; [done|].
    by apply truthy_string_true. }
  clear Hc.
  destruct (truthy_string txt) eqn:Etxt, r as [cfg|], md as [[m [|]]|],
    rp as [rp|];
    try (specialize (Hc' eq_refl); discriminate);
    unfold processSingleMessageMulti, processSingleMessage, resolve_reply,
      store_mapping; cbn in *; rewrite ?Etxt; simplify_eq;
    cbn; rewrite ?app_nil_r.
  all: repeat (cbn; first [rewrite Ht | rewrite Etxt | branch | answer gw]).
  all: try discriminate.
  all: cbn; rewrite ?app_nil_r, <- ?(app_assoc h); cbn.
  all: eexists; split; [reflexivity|unit_store].
Qed.

(** X14.  The single-message path as a function of what the gateways
    answer. A new message without group identifier that has text or media,
    and whose text (if any) the translation gateway translates, makes
    exactly this sequence of calls: the translation when there is text,
    then the send of the route, addressed to the destination the store
    gives for the reply reference (or else to the route itself), and the
    same send once more exactly when the first one was rejected, the route
    is the legacy one and the message is a photo. The store records what
    the last of these sends answered. *)
Theorem single_message_dispatch (gw : Gateway) (r : Route) (msg : Message)
  (w : World) (h : list Exchange) (t : string) :
  ungrouped msg ->
  is_Some (media msg) \/ message msg ≠ "" ->
  translation gw h (message msg) (instruction r) = Resolved t ->
  let h1 := h ++ translated (message msg) (instruction r) t in
  let send := send_call r (service w) t msg (reply_target (store w) msg) in
  let first := gw _ h1 send in
  let again := is_rejected first && retried r msg in
  let retry := gw _ (h1 ++ [Exch send first]) send in
  exists w',
    complete gw (onNewMessage r msg) w h
    = (Resolved tt, w',
       h1 ++ Exch send first :: (if again then [Exch send retry] else []))
    /\ store w'
       = recorded (id msg) (sent_message (if again then retry else first))
                  (store w).
Proof.
  intros Hg Hc Ht. cbn zeta.
  rewrite (ungrouped_handlers r msg Hg), complete_try_catch.
  destruct (single_run gw r msg w h t Hc Ht) as (w' & Hrun & Hs).
  cbn zeta in Hrun, Hs. rewrite Hrun. by exists w'.
Qed.

Lemma single_message_dispatch_witness :
  exists w',
    complete failing (onNewMessage LegacyChannel caption_removed)
             (world_of sample_service) []
    = (Resolved tt, w',
       [Exch (SendMessageWithMedia (Num 200) "" caption_removed None)
             (Rejected "unavailable");
        Exch (SendMessageWithMedia (Num 200) "" caption_removed None)
             (Rejected "unavailable")])
    /\ store w' = ∅.
Proof.
  apply (single_message_dispatch failing LegacyChannel caption_removed
           (world_of sample_service) [] "");
    [reflexivity | left; by eexists | reflexivity].
Defined.

(** X15.  A rejected translation ends the unit: the message is not sent,
    the edit is not applied, and the store is left as it was; the handler
    returns normally. *)
Theorem rejected_translation_stops_unit (gw : Gateway) (r : Route)
  (msg : Message) (w : World) (h : list Exchange) (err : string) :
  truthy_string (message msg) = true ->
  let translate := TranslateToKorean (message msg) (instruction r) in
  gw _ h translate = Rejected err ->
  (ungrouped msg ->
   exists w',
     complete gw (onNewMessage r msg) w h
     = (Resolved tt, w', h ++ [Exch translate (Rejected err)])
     /\ store w' = store w)
  /\ (truthy_opt truthy_Z (store w !! id msg) = true ->
      exists w',
        complete gw (onEditedMessage r msg) w h
        = (Resolved tt, w', h ++ [Exch translate (Rejected err)])
        /\ store w' = store w).
Proof.
  intros Ht translate Hgw. subst translate. split.
  - intros Hg. rewrite (ungrouped_handlers r msg Hg).
    destruct msg as [i txt md g rp]; cbn in *.
    destruct r as [cfg|], md as [[m [|]]|], rp as [rp|];
      unfold processSingleMessageMulti, processSingleMessage, resolve_reply;
      cbn in *; rewrite ?Ht.
    all: repeat (cbn; first [rewrite Hgw | rewrite Ht | branch]).
    all: cbn; eexists; split; reflexivity.
  - unfold store. intros Hl.
    destruct (messageMapping (service w) !! id msg) as [d|] eqn:El; [|done].
    cbn in Hl.
    destruct r as [cfg|];
      unfold onEditedMessage, handleEditedMessageMulti, handleEditedMessage;
      cbn in *; rewrite El, Hl; cbn; rewrite Ht; cbn; rewrite Hgw; cbn;
      eexists; split; reflexivity.
Qed.

Lemma rejected_translation_stops_unit_witness :
  (ungrouped breaking ->
   exists w',
     complete failing (onNewMessage (Topic news) breaking)
              (world_of linked_service) []
     = (Resolved tt, w',
        [] ++ [Exch (TranslateToKorean "Breaking: markets up"
                       (Some (Text "formal tone")))
                    (Rejected "unavailable")])
     /\ store w' = store (world_of linked_service))
  /\ (truthy_opt truthy_Z (store (world_of linked_service) !! 7) = true ->
      exists w',
        complete failing (onEditedMessage (Topic news) breaking)
                 (world_of linked_service) []
        = (Resolved tt, w',
           [] ++ [Exch (TranslateToKorean "Breaking: markets up"
                          (Some (Text "formal tone")))
                       (Rejected "unavailable")])
        /\ store w' = store (world_of linked_service)).
Proof.
  apply (rejected_translation_stops_unit failing (Topic news) breaking
           (world_of linked_service) [] "unavailable"); reflexivity.
Defined.














(** ** Albums, in both modes *)

(** X19.  The timer callback of a group, run with no other event handled
    between its calls, returns normally whatever the gateways answer: it
    makes at most two calls, the group's key is then deleted from the
    table, and the group objects, the timers and the store are as they
    were. *)
Theorem flush_callback_removes_key (gw : Gateway) (cb : Callback) (w : World)
  (h : list Exchange) :
  exists w' new,
    complete gw (run_callback cb) w h = (Resolved tt, w', h ++ new)
    /\ (length new <= 2)%nat
    /\ groupedMessages (service w')
       = delete (group_of cb) (groupedMessages (service w))
    /\ heap w' = heap w /\ timers w' = timers w /\ store w' = store w.
Proof.
  destruct cb as [g l cfg|g l];
    unfold run_callback, processGroupedMessagesMulti, processGroupedMessages,
      array_elements, read_groupData;
    repeat (cbn; first [answer gw | branch_group]); cbn;
    read_off h ltac:(split_and!; first [done | lia]).
Qed.

(** X20.  When the translation gateway rejects the first non-empty text of
    an album, the timer callback, run with no other event handled between
    its calls, makes no send: the rejected translation is its only
    exchange, the group's key is removed and the store is unchanged. *)
Theorem failed_translation_sends_nothing (gw : Gateway) (cb : Callback)
  (w : World) (h : list Exchange) (gd : GroupData) (err : string) :
  heap w !! data_of cb = Some gd ->
  first_text (messages gd) ≠ "" ->
  let translate :=
    TranslateToKorean (first_text (messages gd)) (instruction (route_of cb)) in
  gw _ h translate = Rejected err ->
  exists w',
    complete gw (run_callback cb) w h
    = (Resolved tt, w', h ++ [Exch translate (Rejected err)])
    /\ groupedMessages (service w') !! group_of cb = None
    /\ store w' = store w.
Proof.
  intros Hh Htxt translate Hgw. subst translate.
  apply truthy_string_true in Htxt.
  destruct cb as [g l cfg|g l]; cbn in *;
    unfold processGroupedMessagesMulti, processGroupedMessages,
      array_elements, read_groupData;
    cbn; rewrite Hh; cbn; rewrite find_first_text, Htxt; cbn;
    rewrite Hgw; cbn; eexists; split_and!; try reflexivity;
    apply lookup_delete_eq.
Qed.

Lemma failed_translation_sends_nothing_witness :
  exists w',
    complete failing (run_callback (FlushLegacy "g1" 0%nat))
      (set_heap {[ 0%nat := mkGroupData [album1; album2] None None ]}
                (world_of sample_service)) []
    = (Resolved tt, w',
       [] ++ [Exch (TranslateToKorean "a" None) (Rejected "unavailable")])
    /\ groupedMessages (service w') !! "g1" = None
    /\ store w' = ∅.
Proof.
  apply (failed_translation_sends_nothing failing (FlushLegacy "g1" 0%nat)
           (set_heap {[ 0%nat := mkGroupData [album1; album2] None None ]}
                     (world_of sample_service))
           [] (mkGroupData [album1; album2] None None) "unavailable");
    [reflexivity | discriminate | reflexivity].
Defined.

(** On the event loop the callback is suspended at its calls.  A member
    that arrives while the translation is pending joins the group object
    and arms a timer on it; when the translation is then rejected, the
    flush in progress sends nothing and removes the key, and the timer of
    the late arrival flushes the same object a second later. *)
Example member_during_failing_flush :
  let l := run faltering
             [Clock 0; NewMessageMulti news album1;
              Clock 1000;
              Clock 1200; NewMessageMulti news album2;
              Response 0;
              Clock 2200; Response 0; Response 0]
             (idle sample_service) in
  history l
  = [Exch (TranslateToKorean "a" (Some (Text "formal tone")))
          (Rejected "unavailable");
     Exch (TranslateToKorean "a" (Some (Text "formal tone")))
          (Resolved "ko:a");
     Exch (ClientSendMessage (Num (-1001))
             (mkSendParams "ko:a"
                (Some (Album [mkMedia 1 true; mkMedia 2 true]))
                (Some (Num 5))))
          (Resolved (Some (mkSent 502)))]
  /\ pending l = [] /\ timers (world l) = [].
Proof. vm_compute. repeat split. Qed.

Lemma alter_known {A} (f : A -> A) (l : nat) (x : A) (m : gmap nat A) :
  m !! l = Some x -> alter f l m = <[l := f x]> m.
Proof.
  intros Hl. apply map_eq. intros j. destruct (decide (j = l)) as [->|Hne].
  - by rewrite lookup_alter_eq, lookup_insert_eq, Hl.
  - by rewrite lookup_alter_ne, lookup_insert_ne.
Qed.

Lemma filter_all {A} (P : A -> Prop) `{!forall x, Decision (P x)}
  (xs : list A) :
  (forall x, P x) -> filter P xs = xs.
Proof.
  intros HP. induction xs as [|x xs IH]; [done|].
  by rewrite filter_cons, decide_True, IH.
Qed.

(** X21.  The arrival of an album member, in both modes. The handler calls
    no gateway; it appends the member to the group's object (a new one
    under a new key when the group is not in the table), cancels the timer
    that object holds, if any, and arms one due 1000 ms from now with the
    route's flush; the timers and objects of other groups and the store are
    left alone. *)
Theorem arrival_rearms_timer (gw : Gateway) (r : Route) (msg : Message)
  (g : string) (w : World) (h : list Exchange) :
  groupedId msg = Some g -> truthy_string g = true ->
  (forall l, groupedMessages (service w) !! g = Some l ->
             is_Some (heap w !! l)) ->
  let known := groupedMessages (service w) !! g in
  let l := default (next_loc w) known in
  let old := known ≫= (fun l => heap w !! l) in
  let gd :=
    mkGroupData (default [] (messages <$> old) ++ [msg])
                (Some (next_handle w))
                (match old with
                 | Some o => channelConfig o
                 | None => match r with
                           | Topic cfg => Some cfg
                           | LegacyChannel => None
                           end
                 end) in
  exists w',
    complete gw (onNewMessage r msg) w h = (Resolved tt, w', h)
    /\ groupedMessages (service w') = <[g := l]> (groupedMessages (service w))
    /\ heap w' = <[l := gd]> (heap w)
    /\ timers w'
       = filter (fun t => Some (timer_handle t) ≠ old ≫= timeout) (timers w)
         ++ [mkTimer (next_handle w) (clock w + 1000) (closure r g l)]
    /\ store w' = store w.
Proof.
  intros Hm Hg Hwf known l old gd. subst known l old gd.
  assert (Hrun : onNewMessage r msg
                 = try_catch
                     (collect g msg
                        (match r with
                         | Topic cfg => Some cfg
                         | LegacyChannel => None
                         end)
                        (closure r g))
                     (fun _ => log ERROR "Error processing message")).
  { destruct r; unfold onNewMessage, handleNewMessageMulti, handleNewMessage;
      by rewrite Hm, Hg. }
  rewrite Hrun. clear Hrun. unfold collect. cbn.
  destruct (groupedMessages (service w) !! g) as [l|] eqn:El; cbn.
  - destruct (Hwf l eq_refl) as [[ms tm cc] Hl]. rewrite El. cbn.
    rewrite lookup_alter_eq, Hl. cbn.
    destruct tm as [hd|]; cbn; eexists; (split; [reflexivity|]); cbn;
      rewrite (alter_known _ _ _ _ Hl), alter_insert_eq;
      cbn; split_and!; try done.
    + by rewrite insert_id.
    + f_equal. apply list_filter_iff. intros t. split; congruence.
    + by rewrite insert_id.
    + f_equal. symmetry. apply filter_all. by intros t.
  - rewrite lookup_insert_eq. cbn. rewrite lookup_alter_eq, lookup_insert_eq.
    cbn. eexists; (split; [reflexivity|]); cbn.
    rewrite !alter_insert_eq. cbn. split_and!; try done.
    f_equal. symmetry. apply filter_all. by intros t.
Qed.

(** *** Albums of the legacy mode *)

Lemma legacy_flush_complete gw g loc members hd (w : World) h tr :
  heap w !! loc = Some (mkGroupData members (Some hd) None) ->
  translation gw h (first_text members) None = Resolved tr ->
  exists w',
    complete gw (run_callback (FlushLegacy g loc)) w h
    = (Resolved tt, w',
       legacy_posting gw h (targetChannelId (service w)) members tr)
    /\ (awaits gw (run_callback (FlushLegacy g loc)) w h <= 2)%nat
    /\ service w'
       = set_groupedMessages (delete g (groupedMessages (service w)))
                             (service w)
    /\ timers w' = timers w /\ clock w' = clock w.
Proof.
  intros Hh Htr.
  unfold legacy_posting, legacy_group_post, translation, translated in *.
  unfold run_callback, processGroupedMessages, array_elements, read_groupData.
  cbn. rewrite Hh. cbn. rewrite find_first_text.
  destruct (truthy_string (first_text members)) eqn:Etxt; cbn.
  - rewrite Htr. cbn. rewrite Hh. cbn.
    destruct (omap media members) as [|md mds] eqn:Em; cbn; answer gw; cbn;
      eexists; repeat split; lia.
  - simplify_eq. rewrite Hh. cbn. rewrite !app_nil_r.
    destruct (omap media members) as [|md mds] eqn:Em; cbn; answer gw; cbn;
      eexists; repeat split; lia.
Qed.

Lemma legacy_first_member gw g msg t l0 :
  truthy_string g = true -> groupedId msg = Some g ->
  quiet g l0 -> clock (world l0) <= t ->
  legacy_collecting g [msg] t l0 (run gw [Clock t; NewMessage msg] l0).
Proof.
  intros Hg Hm (Ht & Hp & Hgm) Hc.
  destruct l0 as [[svc hp nl tms nh clk lg] pend hist]; cbn in *; subst.
  unfold tick; cbn. rewrite Z.max_r by lia.
  unfold handleNewMessage, collect. rewrite Hm, Hg. cbn.
  rewrite Hgm. cbn. rewrite lookup_insert_eq. cbn.
  rewrite lookup_alter_eq, lookup_insert_eq. cbn.
  exists nl, nh. cbn.
  rewrite lookup_insert_eq, !lookup_alter_eq, lookup_insert_eq. cbn.
  repeat split.
Qed.

Lemma legacy_next_member gw g members msg t t' l0 l :
  truthy_string g = true -> groupedId msg = Some g ->
  legacy_collecting g members t l0 l -> t <= t' < t + 1000 ->
  legacy_collecting g (members ++ [msg]) t' l0
    (run gw [Clock t'; NewMessage msg] l).
Proof.
  intros Hg Hm (loc & hd & Hgm & Hh & Ht & Hc & Hp & Hh0 & Htg & Hs) Htt.
  destruct l as [[svc hp nl tms nh clk lg] pend hist]; cbn in *; subst.
  unfold tick; cbn. rewrite Z.max_r by lia.
  rewrite decide_False by lia. rewrite decide_True by lia. cbn.
  unfold handleNewMessage, collect. rewrite Hm, Hg. cbn.
  rewrite Hgm. cbn. rewrite Hgm. cbn. rewrite lookup_alter_eq, Hh. cbn.
  rewrite decide_False by (intros ?; done). cbn.
  exists loc, nh. cbn. rewrite !lookup_alter_eq, Hh. cbn.
  repeat split; done.
Qed.

Lemma legacy_more_members gw g rest :
  truthy_string g = true ->
  Forall (fun a => groupedId a.2 = Some g) rest ->
  forall members t l0 l,
    legacy_collecting g members t l0 l -> timely t rest ->
    legacy_collecting g (members ++ rest.*2) (final t rest) l0
      (run gw (legacy_deliveries rest) l).
Proof.
  intros Hg. induction 1 as [|[t' m] rest Hm _ IH]; intros members t l0 l Hc Ht.
  - cbn. by rewrite app_nil_r.
  - destruct Ht as [Ht Hrest]. cbn in *.
    change (legacy_collecting g (members ++ m :: rest.*2) (final t' rest) l0
              (run gw (legacy_deliveries rest)
                   (run gw [Clock t'; NewMessage m] l))).
    rewrite (cons_middle m members), app_assoc.
    apply IH; [|done]. by eapply legacy_next_member.
Qed.

Lemma legacy_flush gw g members t T l0 l tr :
  legacy_collecting g members t l0 l -> t + 1000 <= T ->
  translation gw (history l0) (first_text members) None = Resolved tr ->
  let l' := run gw [Clock T; Response 0; Response 0] l in
  history l'
  = legacy_posting gw (history l0) (targetChannelId (service (world l0)))
                   members tr
    /\ quiet g l' /\ clock (world l') = T
    /\ store (world l') = store (world l0).
Proof.
  intros (loc & hd & Hgm & Hh & Ht & Hc & Hp & Hh0 & Htg & Hs) HT Htr l'.
  destruct l as [[svc hp nl tms nh clk lg] pend hist]; cbn in *; subst.
  subst l'. cbn [run fold_left step]. unfold tick.
  cbn [world timers clock set_timers set_clock pending history].
  rewrite Z.max_r by lia. rewrite !filter_cons, !filter_nil. cbn [due].
  rewrite decide_True by lia. rewrite decide_False by lia.
  cbn [fold_left callback].
  match goal with
  | |- context [start _ (mkLoop ?w _ _)] => set (w1 := w)
  end.
  destruct (legacy_flush_complete gw g loc members hd w1 (history l0) tr Hh Htr)
    as (w' & Hrun & Hn & Hsvc & Htm & Hclk).
  pose proof (drain gw (run_callback (FlushLegacy g loc)) 2
                (mkLoop w1 [] (history l0)) eq_refl Hn) as Hd.
  cbn [run replicate fold_left step] in Hd. rewrite Hd. cbn [world history].
  rewrite Hrun. cbn.
  split; [by rewrite <- Htg|].
  unfold quiet, store in *. cbn in *.
  rewrite Htm, Hsvc, Hclk. cbn. rewrite lookup_delete_eq.
  repeat split; assumption.
Qed.

(** X22.  An album of the legacy mode is posted once. The members of one
    group arrive at the legacy handler, each less than 1000 ms after the
    previous one, on a loop where nothing else is going on. Once the clock
    has passed the last arrival by 1000 ms and the gateway calls have
    settled, exactly one post has been made to the target channel: the
    first non-empty text among the members was translated (with no
    instruction), and one send carries the translation with the media of
    all members in arrival order as an album through the raw client, or is
    a plain text message when no member has media. No timer and no task is
    left, the group is forgotten and the store has no entry for it. *)
Theorem legacy_group_posted_once (gw : Gateway) (g : string)
  (first : Z * Message) (rest : list (Z * Message)) (l0 : Loop) (T : Z)
  (tr : string) :
  truthy_string g = true ->
  Forall (fun a => groupedId a.2 = Some g) (first :: rest) ->
  quiet g l0 ->
  clock (world l0) <= first.1 ->
  timely first.1 rest ->
  let members := (first :: rest).*2 in
  translation gw (history l0) (first_text members) None = Resolved tr ->
  final first.1 rest + 1000 <= T ->
  let l := run gw (legacy_deliveries (first :: rest)
                     ++ [Clock T; Response 0; Response 0]) l0 in
  history l
  = legacy_posting gw (history l0) (targetChannelId (service (world l0)))
                   members tr
  /\ quiet g l
  /\ store (world l) = store (world l0).
Proof.
  intros Hg Hall Hq Hc Ht members Htr HT l. subst l.
  apply Forall_cons in Hall as [Hfirst Hrest].
  assert (Hcol : legacy_collecting g members (final first.1 rest) l0
                   (run gw (legacy_deliveries (first :: rest)) l0)).
  { change (legacy_deliveries (first :: rest))
      with ([Clock first.1; NewMessage first.2] ++ legacy_deliveries rest).
    rewrite run_app.
    apply (legacy_more_members gw g rest Hg Hrest [first.2] first.1); [|done].
    by apply legacy_first_member. }
  rewrite run_app.
  destruct (legacy_flush gw g members _ T l0 _ tr Hcol HT Htr)
    as (Hh & Hq1 & _ & Hs).
  done.
Qed.

Lemma legacy_group_posted_once_witness :
  let l := run obliging
             (legacy_deliveries [(0, album1); (200, album2)]
                ++ [Clock 1200; Response 0; Response 0])
             (idle sample_service) in
  history l
  = [Exch (TranslateToKorean "a" None) (Resolved "ko:a");
     Exch (ClientSendMessage (Num 200)
             (mkSendParams "ko:a"
                (Some (Album [mkMedia 1 true; mkMedia 2 true])) None))
          (Resolved (Some (mkSent 501)))]
  /\ quiet "g1" l
  /\ store (world l) = ∅.
Proof.
  apply (legacy_group_posted_once obliging "g1" (0, album1) [(200, album2)]
           (idle sample_service) 1200 "ko:a");
    [reflexivity | repeat constructor | repeat split | cbn; lia | cbn; lia
    | reflexivity | cbn; lia].
Defined.

Lemma arrival_rearms_timer_witness :
  exists w',
    complete obliging (onNewMessage (Topic news) album1)
             (world_of sample_service) []
    = (Resolved tt, w', [])
    /\ groupedMessages (service w') = <[ "g1" := 0%nat ]> ∅
    /\ heap w'
       = <[ 0%nat := mkGroupData ([] ++ [album1]) (Some 0%nat) (Some news) ]> ∅
    /\ timers w'
       = filter (fun t => Some (timer_handle t) ≠ None) []
         ++ [mkTimer 0%nat (0 + 1000) (FlushMulti "g1" 0%nat news)]
    /\ store w' = ∅.
Proof.
  apply (arrival_rearms_timer obliging (Topic news) album1 "g1"
           (world_of sample_service) []); [reflexivity | reflexivity |].
  intros l Hl. cbn in Hl. by rewrite lookup_empty in Hl.
Defined.

(** ** The calls of a unit *)

Ltac tally := cbn; split_and!; first [lia | done].

(** X23.  Each unit keeps to its own calls, whatever the gateways answer. A
    new-message unit translates at most once, has at most one send that was
    not rejected (a send is repeated only after a rejection) and never
    edits; an edited-message unit translates at most once, edits at most
    once and never sends; the flush of a group translates at most once,
    sends at most once and never edits. *)
Theorem units_keep_to_their_calls (gw : Gateway) (w : World)
  (h : list Exchange) :
  (forall r msg, exists w' new,
      complete gw (onNewMessage r msg) w h = (Resolved tt, w', h ++ new)
      /\ (count is_translation new <= 1)%nat
      /\ (count delivered new <= 1)%nat
      /\ count is_edit new = 0%nat)
  /\ (forall r msg, exists w' new,
      complete gw (onEditedMessage r msg) w h = (Resolved tt, w', h ++ new)
      /\ (count is_translation new <= 1)%nat
      /\ (count is_edit new <= 1)%nat
      /\ count is_send new = 0%nat)
  /\ (forall cb, exists w' new,
      complete gw (run_callback cb) w h = (Resolved tt, w', h ++ new)
      /\ (count is_translation new <= 1)%nat
      /\ (count is_send new <= 1)%nat
      /\ count is_edit new = 0%nat).
Proof.
  split_and!.
  - intros r msg.
    destruct (truthy_opt truthy_string (groupedId msg)) eqn:Eg.
    + destruct (groupedId msg) as [g|] eqn:Eg'; [|done]. cbn in Eg.
      destruct r as [cfg|];
        unfold onNewMessage, handleNewMessageMulti, handleNewMessage;
        rewrite Eg', Eg, complete_try_catch;
        match goal with
        | |- context [collect ?g ?m ?c ?cb] =>
            destruct (collect_unit gw g m c cb w h) as (w' & -> & Hs)
        end;
        exists w', []; rewrite app_nil_r; (split; [done|]); tally.
    + rewrite ungrouped_handlers by done.
      destruct msg as [i txt md g rp].
      destruct r as [cfg|];
        unfold processSingleMessageMulti, processSingleMessage,
          resolve_reply, store_mapping;
        destruct md as [[ref [|]]|], rp as [rp|]; crunch gw;
        read_off h ltac:(tally).
  - intros r msg. destruct msg as [i txt md g rp].
    destruct r as [cfg|];
      unfold onEditedMessage, handleEditedMessageMulti, handleEditedMessage;
      crunch gw; read_off h ltac:(tally).
  - intros cb.
    destruct cb as [g l cfg|g l];
      unfold run_callback, processGroupedMessagesMulti, processGroupedMessages,
        array_elements, read_groupData;
      repeat (cbn; first [answer gw | branch_group]); cbn;
      read_off h ltac:(tally).
Qed.

(** ** Arrivals while work is in flight *)

Ltac settle_start :=
  repeat (cbn;
          match goal with
          | |- context [match ?x with _ => _ end] => destruct x eqn:?
          | |- context [if ?x then _ else _] => destruct x eqn:?
          end); cbn.

(** A new-message handler writes the store only after an await: when it
    is started, up to its first await the store stays as it was. *)
Lemma arrival_leaves_store (r : Route) (msg : Message) (l : Loop) :
  store (world (start (onNewMessage r msg) l)) = store (world l).
Proof.
  destruct msg as [i txt md g rp].
  destruct r as [cfg|];
    unfold onNewMessage, handleNewMessageMulti, handleNewMessage, collect,
      processSingleMessageMulti, processSingleMessage, resolve_reply,
      read_groupData;
    settle_start; reflexivity.
Qed.

Lemma revision_without_entry (r : Route) (msg : Message) (l : Loop) :
  truthy_opt truthy_Z (store (world l) !! id msg) = false ->
  pending (start (onEditedMessage r msg) l) = pending l
  /\ history (start (onEditedMessage r msg) l) = history l
  /\ store (world (start (onEditedMessage r msg) l)) = store (world l).
Proof.
  unfold store. intros Hl.
  destruct r as [cfg|];
    unfold onEditedMessage, handleEditedMessageMulti, handleEditedMessage;
    cbn; destruct (messageMapping (service (world l)) !! id msg) as [d|];
    cbn in *; rewrite ?Hl; cbn; done.
Qed.

(** X24.  An edit that arrives while the post of its message is still in
    flight is lost. Whether an edit is applied is decided when it arrives,
    and a new message is recorded only when its send has resolved: an
    edited-message event that follows the new-message event of the same
    source message before the gateway calls have settled finds no entry,
    calls no gateway and suspends nothing, whatever else is going on in the
    loop. *)
Theorem edit_during_post_is_lost (gw : Gateway) (r : Route)
  (msg edited : Message) (l : Loop) :
  id edited = id msg ->
  store (world l) !! id msg = None ->
  let l1 := step gw l (arrival r msg) in
  let l2 := step gw l1 (revision r edited) in
  pending l2 = pending l1
  /\ history l2 = history l1
  /\ store (world l2) !! id msg = None.
Proof.
  intros Hid Hl l1 l2.
  assert (H1 : store (world l1) = store (world l)).
  { subst l1. destruct r as [cfg|];
      [apply (arrival_leaves_store (Topic cfg) msg l)
      |apply (arrival_leaves_store LegacyChannel msg l)]. }
  assert (H2 : truthy_opt truthy_Z (store (world l1) !! id edited) = false).
  { by rewrite H1, Hid, Hl. }
  destruct (revision_without_entry r edited l1 H2) as (Hp & Hh & Hs).
  assert (Hstep : l2 = start (onEditedMessage r edited) l1).
  { subst l2. by destruct r. }
  by rewrite Hstep, Hp, Hh, Hs, H1.
Qed.

Lemma edit_during_post_is_lost_witness :
  let l1 := step obliging (idle sample_service) (arrival (Topic news) breaking) in
  let l2 := step obliging l1
              (revision (Topic news) (mkMessage 7 "Update" None None None)) in
  pending l2 = pending l1
  /\ history l2 = history l1
  /\ store (world l2) !! 7 = None.
Proof.
  apply (edit_during_post_is_lost obliging (Topic news) breaking
           (mkMessage 7 "Update" None None None) (idle sample_service));
    reflexivity.
Defined.

(** The post of the witness is indeed in flight when the edit arrives,
    and is recorded afterwards. *)
Example edit_lost_then_post_recorded :
  let l := run obliging
             [arrival (Topic news) breaking;
              revision (Topic news) (mkMessage 7 "Update" None None None);
              Response 0; Response 0]
             (idle sample_service) in
  history l
  = [Exch (TranslateToKorean "Breaking: markets up" (Some (Text "formal tone")))
          (Resolved "ko:Breaking: markets up");
     Exch (ClientSendMessage (Num (-1001))
             (mkSendParams "ko:Breaking: markets up" None (Some (Num 5))))
          (Resolved (Some (mkSent 501)))]
  /\ store (world l) !! 7 = Some 501.
Proof. vm_compute. repeat split. Qed.

(** X25.  An album is not posted while its members keep arriving. However
    long the burst, as long as each member arrives less than 1000 ms after
    the previous one no gateway has been called: the group holds all the
    members in arrival order and its one timer is due 1000 ms after the
    latest arrival. The delay of an album has no upper bound. In both
    modes. *)
Theorem album_waits_while_members_arrive (gw : Gateway)
  (cfg : ChannelConfig) (g : string) (first : Z * Message)
  (rest : list (Z * Message)) (l0 : Loop) :
  truthy_string g = true ->
  Forall (fun a => groupedId a.2 = Some g) (first :: rest) ->
  quiet g l0 ->
  clock (world l0) <= first.1 ->
  timely first.1 rest ->
  let members := (first :: rest).*2 in
  let latest := final first.1 rest in
  collecting g cfg members latest l0
    (run gw (deliveries cfg (first :: rest)) l0)
  /\ legacy_collecting g members latest l0
       (run gw (legacy_deliveries (first :: rest)) l0).
Proof.
  intros Hg Hall Hq Hc Ht members latest.
  apply Forall_cons in Hall as [Hfirst Hrest]. split.
  - change (deliveries cfg (first :: rest))
      with ([Clock first.1; NewMessageMulti cfg first.2]
              ++ deliveries cfg rest).
    rewrite run_app.
    apply (more_members gw g cfg rest Hg Hrest [first.2] first.1); [|done].
    by apply first_member.
  - change (legacy_deliveries (first :: rest))
      with ([Clock first.1; NewMessage first.2] ++ legacy_deliveries rest).
    rewrite run_app.
    apply (legacy_more_members gw g rest Hg Hrest [first.2] first.1); [|done].
    by apply legacy_first_member.
Qed.

Lemma album_waits_while_members_arrive_witness :
  collecting "g1" news [album1; album2; late_member] 1800
    (idle sample_service)
    (run obliging
       (deliveries news [(0, album1); (900, album2); (1800, late_member)])
       (idle sample_service))
  /\ legacy_collecting "g1" [album1; album2; late_member] 1800
       (idle sample_service)
       (run obliging
          (legacy_deliveries [(0, album1); (900, album2); (1800, late_member)])
          (idle sample_service)).
Proof.
  apply (album_waits_while_members_arrive obliging news "g1" (0, album1)
           [(900, album2); (1800, late_member)] (idle sample_service));
    [reflexivity | repeat constructor | repeat split | cbn; lia | cbn; lia].
Defined.

(** ** The serverless entry point *)

(** A request on a warm instance is served at once. *)
Lemma warm_request (req : nat) (l : Api.Loop) (a : nat) :
  Api.app (Api.entry l) = Some a ->
  Api.start (Api.handler req) l
  = Api.mkLoop
      (Api.mkEntry (Some a) (Api.effects (Api.entry l) ++ [Api.Served req]))
      (Api.waiting l) (Api.exchanges l).
Proof.
  intros Ha. unfold Api.handler, Api.createNestApp. cbn. rewrite Ha. cbn.
  by rewrite Ha.
Qed.

(** X26.  Once [app] is assigned and nothing is in flight, the application
    is never created or initialised again: every later request is served at
    once, with no call at all, and [app] is never replaced. *)
Theorem warm_instance_serves_without_calls (pf : Api.Platform)
  (evs : list Api.Event) (l : Api.Loop) (a : nat) :
  Api.app (Api.entry l) = Some a ->
  Api.waiting l = [] ->
  Api.run pf evs l
  = Api.mkLoop
      (Api.mkEntry (Some a)
         (Api.effects (Api.entry l) ++ (Api.Served <$> Api.requests evs)))
      [] (Api.exchanges l).
Proof.
  unfold Api.run. revert l. induction evs as [|ev evs IH]; intros l Ha Hw.
  - cbn. rewrite app_nil_r. destruct l as [[ap ef] wt ex]; cbn in *.
    by subst.
  - cbn [fold_left]. destruct ev as [req|i]; cbn [Api.step].
    + rewrite (warm_request req l a Ha).
      rewrite IH by (cbn; done). cbn. by rewrite <- app_assoc.
    + unfold Api.settle. rewrite Hw. cbn [lookup list_lookup].
      by rewrite IH.
Qed.

(** A request on an instance whose [app] is not assigned starts a
    creation. *)
Lemma cold_request (req : nat) (l : Api.Loop) :
  Api.app (Api.entry l) = None ->
  exists t,
    Api.start (Api.handler req) l
    = Api.mkLoop (Api.entry l) (Api.waiting l ++ [t]) (Api.exchanges l)
    /\ Api.creating t.
Proof.
  intros Ha. unfold Api.handler, Api.createNestApp, Api.await. cbn.
  rewrite Ha. cbn. eexists. split; [reflexivity|].
  eexists. split; [reflexivity|].
  intros [created|e] l'; cbn.
  - eexists _, [_]. split; [reflexivity|]. repeat constructor. by eexists _, _.
  - exists (Api.entry l'), []. rewrite app_nil_r. by destruct l'.
Qed.

Lemma cold_requests (reqs : list nat) (pf : Api.Platform) (l : Api.Loop) :
  Api.app (Api.entry l) = None ->
  exists ts,
    Api.run pf (Api.Request <$> reqs) l
    = Api.mkLoop (Api.entry l) (Api.waiting l ++ ts) (Api.exchanges l)
    /\ Forall Api.creating ts /\ length ts = length reqs.
Proof.
  unfold Api.run. revert l. induction reqs as [|req reqs IH]; intros l Ha.
  - exists []. rewrite app_nil_r. by destruct l.
  - cbn [fmap list_fmap fold_left Api.step].
    destruct (cold_request req l Ha) as (t & -> & Ht).
    destruct (IH (Api.mkLoop (Api.entry l) (Api.waiting l ++ [t])
                    (Api.exchanges l)) Ha) as (ts & -> & Hts & Hlen).
    exists (t :: ts). cbn. rewrite <- app_assoc. split; [done|].
    split; [by constructor|]. by rewrite Hlen.
Qed.

Lemma creations_app (h1 h2 : list Api.ApiExchange) :
  Api.creations (h1 ++ h2) = (Api.creations h1 + Api.creations h2)%nat.
Proof. induction h1 as [|e h1 IH]; cbn; [done|]. rewrite IH. lia. Qed.

Lemma settle_creations (pf : Api.Platform) (cs : list (Api.Job unit)) :
  Forall Api.creating cs ->
  forall e inits h,
    Forall Api.initialising inits ->
    Api.creations
      (Api.exchanges
         (Api.run pf (replicate (length cs) (Api.Settled 0))
                  (Api.mkLoop e (cs ++ inits) h)))
    = (Api.creations h + length cs)%nat.
Proof.
  unfold Api.run. induction 1 as [|t cs Ht _ IH]; intros e inits h Hi.
  - cbn. lia.
  - destruct Ht as (k & -> & Hk).
    cbn [length replicate fold_left Api.step]. unfold Api.settle. cbn.
    destruct (Hk (pf _ h Api.NestFactory_create)
                 (Api.mkLoop e (cs ++ inits)
                    (h ++ [Api.ApiExch Api.NestFactory_create
                             (pf _ h Api.NestFactory_create)])))
      as (e' & tail & -> & Htail).
    cbn. rewrite <- app_assoc, IH by (by apply Forall_app).
    rewrite creations_app. cbn. lia.
Qed.

(** X27.  Creation is not shared between overlapping requests. Every
    request that arrives before [app] has been assigned starts a creation
    of its own: when [n] requests arrive on a cold instance before any
    creation has settled, the application is created [n] times, whatever
    the platform answers. *)
Theorem overlapping_cold_requests_create_each (pf : Api.Platform)
  (reqs : list nat) :
  Api.creations
    (Api.exchanges
       (Api.run pf ((Api.Request <$> reqs)
                      ++ replicate (length reqs) (Api.Settled 0))
                Api.cold))
  = length reqs.
Proof.
  unfold Api.run. rewrite fold_left_app.
  destruct (cold_requests reqs pf Api.cold eq_refl) as (ts & Hrun & Hts & Hlen).
  unfold Api.run in Hrun. rewrite Hrun, <- Hlen.
  pose proof (settle_creations pf ts Hts (Api.entry Api.cold) [] []
                ltac:(constructor)) as Hs.
  rewrite app_nil_r in Hs. exact Hs.
Qed.

Lemma warm_requests (pf : Api.Platform) (reqs : list nat) (l : Api.Loop)
  (a : nat) :
  Api.app (Api.entry l) = Some a ->
  Api.run pf (Api.Request <$> reqs) l
  = Api.mkLoop
      (Api.mkEntry (Some a)
                   (Api.effects (Api.entry l) ++ (Api.Served <$> reqs)))
      (Api.waiting l) (Api.exchanges l).
Proof.
  unfold Api.run. revert l. induction reqs as [|req reqs IH]; intros l Ha.
  - cbn. rewrite app_nil_r. destruct l as [[ap ef] wt ex]; cbn in *.
    by subst.
  - cbn [fmap list_fmap fold_left Api.step].
    rewrite (warm_request req l a Ha), IH by done. cbn.
    by rewrite <- app_assoc.
Qed.

(** X28.  A failed initialisation is never repeated. [app] is assigned
    before [app.init()] is awaited, so when the initialisation is rejected
    the first request fails unserved, and every later request finds [app]
    assigned and is served with no further call: the application is used
    without ever having been initialised. *)
Theorem failed_initialisation_is_not_repeated (pf : Api.Platform)
  (req : nat) (later : list nat) (a : nat) (err : string) :
  pf _ [] Api.NestFactory_create = Resolved a ->
  pf _ [Api.ApiExch Api.NestFactory_create (Resolved a)] (Api.app_init a)
  = Rejected err ->
  Api.run pf ([Api.Request req; Api.Settled 0; Api.Settled 0]
                ++ (Api.Request <$> later)) Api.cold
  = Api.mkLoop
      (Api.mkEntry (Some a)
                   (Api.EnableCors a :: (Api.Served <$> later)))
      []
      [Api.ApiExch Api.NestFactory_create (Resolved a);
       Api.ApiExch (Api.app_init a) (Rejected err)].
Proof.
  intros Hc Hi. unfold Api.run. rewrite fold_left_app.
  cbn [fold_left Api.step]. unfold Api.settle. cbn. rewrite Hc. cbn.
  rewrite Hi. cbn.
  apply (warm_requests pf later
           (Api.mkLoop (Api.mkEntry (Some a) [Api.EnableCors a]) []
              [Api.ApiExch Api.NestFactory_create (Resolved a);
               Api.ApiExch (Api.app_init a) (Rejected err)])
           a eq_refl).
Qed.

Lemma warm_instance_serves_without_calls_witness :
  let warm := Api.run Api.willing
                [Api.Request 1; Api.Settled 0; Api.Settled 0] Api.cold in
  Api.run Api.willing [Api.Request 2; Api.Settled 0; Api.Request 3] warm
  = Api.mkLoop
      (Api.mkEntry (Some 0%nat)
         (Api.effects (Api.entry warm) ++ [Api.Served 2; Api.Served 3]))
      [] (Api.exchanges warm).
Proof.
  apply (warm_instance_serves_without_calls Api.willing
           [Api.Request 2; Api.Settled 0; Api.Request 3]
           (Api.run Api.willing
              [Api.Request 1; Api.Settled 0; Api.Settled 0] Api.cold)
           0%nat); reflexivity.
Defined.

Lemma failed_initialisation_is_not_repeated_witness :
  Api.run Api.uninitialisable
    ([Api.Request 1; Api.Settled 0; Api.Settled 0]
       ++ [Api.Request 2; Api.Request 3]) Api.cold
  = Api.mkLoop
      (Api.mkEntry (Some 0%nat)
                   [Api.EnableCors 0; Api.Served 2; Api.Served 3])
      []
      [Api.ApiExch Api.NestFactory_create (Resolved 0%nat);
       Api.ApiExch (Api.app_init 0) (Rejected "init failed")].
Proof.
  apply (failed_initialisation_is_not_repeated Api.uninitialisable 1%nat
           [2%nat; 3%nat] 0%nat "init failed"); reflexivity.
Defined.

(** Two requests on a cold instance, the second arriving before the first
    creation has settled: two applications are created and initialised,
    and [app] ends as the second one. *)
Example two_overlapping_cold_requests :
  Api.run Api.willing
    [Api.Request 1; Api.Request 2; Api.Settled 0; Api.Settled 0;
     Api.Settled 0; Api.Settled 0] Api.cold
  = Api.mkLoop
      (Api.mkEntry (Some 1%nat)
                   [Api.EnableCors 0; Api.EnableCors 1; Api.Served 1;
                    Api.Served 2])
      []
      [Api.ApiExch Api.NestFactory_create (Resolved 0%nat);
       Api.ApiExch Api.NestFactory_create (Resolved 1%nat);
       Api.ApiExch (Api.app_init 0) (Resolved tt);
       Api.ApiExch (Api.app_init 1) (Resolved tt)].
Proof. reflexivity. Qed.
